(** * Celia agent console: job store, reconciliation, simulation engine, log formatter

    A shallow embedding of the job lifecycle code of the console
    (App.tsx, services/apiService.ts, services/geminiService.ts,
    components/JobView.tsx, services/types.ts) and the properties of its
    specification that can be settled on that code. *)

From Stdlib Require Import List ZArith NArith Bool Lia String Ascii Permutation Sorted.
From Stdlib Require DecimalNat.
Import ListNotations.

Set Implicit Arguments.

(* ================================================================== *)
(** * JavaScript strings and values *)
(* ================================================================== *)

Module JS.

(** A JavaScript string is a sequence of UTF-16 code units. *)
Definition jsstring := list N.

Fixpoint str_eqb (a b : jsstring) : bool :=
  match a, b with
  | [], [] => true
  | x :: a', y :: b' => N.eqb x y && str_eqb a' b'
  | _, _ => false
  end.

(** Source literals are written as UTF-8 text and decoded to code units. *)
Fixpoint bytes_of (s : string) : list N :=
  match s with
  | EmptyString => []
  | String a s' => N_of_ascii a :: bytes_of s'
  end.

Definition utf16_of_code_point (cp : N) : list N :=
  if (cp <? 65536)%N then [cp]
  else let v := (cp - 65536)%N in
       [(55296 + v / 1024)%N; (56320 + v mod 1024)%N].

Fixpoint utf8_decode (bs : list N) : list N :=
  match bs with
  | [] => []
  | b :: r =>
      if (b <? 128)%N then b :: utf8_decode r
      else if (b <? 224)%N then
        match r with
        | c1 :: r1 => ((b mod 32) * 64 + c1 mod 64)%N :: utf8_decode r1
        | [] => []
        end
      else if (b <? 240)%N then
        match r with
        | c1 :: c2 :: r2 =>
            ((b mod 16) * 4096 + (c1 mod 64) * 64 + c2 mod 64)%N :: utf8_decode r2
        | _ => []
        end
      else
        match r with
        | c1 :: c2 :: c3 :: r3 =>
            ((b mod 8) * 262144 + (c1 mod 64) * 4096 + (c2 mod 64) * 64 + c3 mod 64)%N
              :: utf8_decode r3
        | _ => []
        end
  end.

Definition js (s : string) : jsstring :=
  flat_map utf16_of_code_point (utf8_decode (bytes_of s)).

(** The code unit of a one-character ASCII literal. *)
Definition chr (s : string) : N := hd 0%N (js s).

(** ** Character classes of ECMAScript *)

(** LineTerminator: LF, CR, LS, PS. *)
Definition is_line_terminator (c : N) : bool :=
  N.eqb c 10 || N.eqb c 13 || N.eqb c 8232 || N.eqb c 8233.

(** WhiteSpace: TAB, VT, FF, ZWNBSP and the Unicode category Zs. *)
Definition is_white_space (c : N) : bool :=
  N.eqb c 9 || N.eqb c 11 || N.eqb c 12 || N.eqb c 32 || N.eqb c 160
  || N.eqb c 5760 || (N.leb 8192 c && N.leb c 8202)
  || N.eqb c 8239 || N.eqb c 8287 || N.eqb c 12288 || N.eqb c 65279.

(** What [String.prototype.trim] strips and what [\s] matches. *)
Definition is_space (c : N) : bool := is_white_space c || is_line_terminator c.

(** ** String methods *)

Fixpoint drop_spaces (s : jsstring) : jsstring :=
  match s with
  | c :: s' => if is_space c then drop_spaces s' else s
  | [] => []
  end.

(** [s.trim()] *)
Definition trim (s : jsstring) : jsstring :=
  rev (drop_spaces (rev (drop_spaces s))).

Fixpoint startsWith (s sub : jsstring) {struct sub} : bool :=
  match sub, s with
  | [], _ => true
  | x :: sub', y :: s' => N.eqb x y && startsWith s' sub'
  | _ :: _, [] => false
  end.

(** [s.includes(sub)] *)
Fixpoint includes (s sub : jsstring) : bool :=
  startsWith s sub
  || match s with
     | [] => false
     | _ :: s' => includes s' sub
     end.

(** [s.split(c)] for a separator of one code unit; the result is never empty. *)
Fixpoint split (c : N) (s : jsstring) : list jsstring :=
  match s with
  | [] => [[]]
  | x :: s' =>
      if N.eqb x c then [] :: split c s'
      else match split c s' with
           | h :: t => (x :: h) :: t
           | [] => [[x]]
           end
  end.

(** The longest prefix with no character that [stop] holds of. *)
Fixpoint upto (stop : N -> bool) (s : jsstring) : jsstring :=
  match s with
  | [] => []
  | c :: s' => if stop c then [] else c :: upto stop s'
  end.

(** A string is truthy when it is not empty. *)
Definition truthy_str (s : jsstring) : bool :=
  match s with [] => false | _ => true end.

(** ** Values

    What [JSON.parse] can return, and [undefined], which property access
    adds. A number is carried by its [ToString] rendering, which is all
    this code observes of a number. An object is its list of own
    properties, one entry per key. *)
#[warnings="-register-all"]
Inductive value : Type :=
| VUndefined
| VNull
| VBool (b : bool)
| VNum (shown : jsstring)
| VStr (s : jsstring)
| VArr (items : list value)
| VObj (props : list (jsstring * value)).

Fixpoint own (props : list (jsstring * value)) (key : jsstring) : option value :=
  match props with
  | [] => None
  | (k, v) :: rest => if str_eqb k key then Some v else own rest key
  end.

(** [v === 'literal'] *)
Definition is_str (v : value) (lit : jsstring) : bool :=
  match v with
  | VStr s => str_eqb s lit
  | _ => false
  end.

(** ** A backtracking matcher for the fragment of regular expressions used

    A pattern is anchored at both ends ([^ ... $], no flags). Its items
    are single characters of a class and repetitions of a class, greedy
    or lazy, captured or not. Alternatives are tried in the priority
    order of ECMAScript: a lazy repetition tries the rest of the pattern
    before it takes one more character, a greedy one after. *)
Inductive cls : Type :=
| Dot                (* [.], anything but a line terminator *)
| WhiteSp            (* [\s] *)
| Chr (c : N).       (* a literal code unit *)

Definition in_cls (k : cls) (c : N) : bool :=
  match k with
  | Dot => negb (is_line_terminator c)
  | WhiteSp => is_space c
  | Chr d => N.eqb c d
  end.

Inductive item : Type :=
| One (k : cls)
| Rep (captured lazy : bool) (least : nat) (k : cls).

Definition or_else {A} (a b : option A) : option A :=
  match a with
  | Some _ => a
  | None => b
  end.

(** [rep cont lz least k n rest]: [n] characters of the repetition are
    taken already; the result is what it takes from [rest] and the
    captures of the continuation. *)
Fixpoint rep (cont : jsstring -> option (list jsstring))
    (lz : bool) (least : nat) (k : cls) (n : nat) (rest : jsstring)
    : option (jsstring * list jsstring) :=
  let stop :=
    if Nat.ltb n least then None
    else option_map (fun gs => ([], gs)) (cont rest) in
  let more :=
    match rest with
    | c :: rest' =>
        if in_cls k c
        then option_map (fun r => (c :: fst r, snd r)) (rep cont lz least k (S n) rest')
        else None
    | [] => None
    end in
  if lz then or_else stop more else or_else more stop.

Fixpoint exec (p : list item) (s : jsstring) : option (list jsstring) :=
  match p with
  | [] => match s with [] => Some [] | _ :: _ => None end
  | One k :: p' =>
      match s with
      | c :: s' => if in_cls k c then exec p' s' else None
      | [] => None
      end
  | Rep cap lz least k :: p' =>
      option_map (fun r => if (cap : bool) then fst r :: snd r else snd r)
                 (rep (exec p') lz least k 0 s)
  end.

End JS.

Import JS.

(* ================================================================== *)
(** * services/types.ts *)
(* ================================================================== *)

Inductive JobStatus : Type := pending | running | completed | failed.

(** [type] is one of the literals of the union at compile time; at run
    time the simulation engine stores whatever the model's reply holds
    ([step.type as any]), so the field is a value. *)
Record LogEntry : Type := mkLog {
  timestamp : jsstring;
  message : jsstring;
  type_ : value
}.

Definition ty (name : string) : value := VStr (js name).

(** [files] is declared an array of names or [JobFile]s; the engine
    stores in it whatever the model's reply holds, so it is a value. *)
Record Job : Type := mkJob {
  id : jsstring;
  task : jsstring;
  persona : option jsstring;
  use_search : option bool;
  repo_url : option jsstring;
  status : JobStatus;
  created_at : jsstring;
  logs : jsstring;
  files : value;
  error : option jsstring;
  is_simulation : option bool
}.

(* ================================================================== *)
(** * components/JobView.tsx: the log formatter *)
(* ================================================================== *)

Module JobView.

(** The pattern [^ \[ ( .*? ) \] \s* ( .* ) $] of the [match] of each line. *)
Definition tsRegex : list item :=
  [ One (Chr (chr "[")); Rep true true 0 Dot; One (Chr (chr "]"));
    Rep false false 0 WhiteSp; Rep true false 0 Dot ].

(** [line.match(...)]: the two groups, or nothing. *)
Definition tsMatch (line : jsstring) : option (jsstring * jsstring) :=
  match exec tsRegex line with
  | Some (g1 :: g2 :: _) => Some (g1, g2)
  | _ => None
  end.

(** [g.includes('T') ? g.split('T')[1].split('.')[0] : g]. The second
    piece exists whenever [g] includes a [T]. *)
Definition shortTimestamp (g : jsstring) : jsstring :=
  if includes g (js "T")
  then hd [] (split (chr ".") (nth 1 (split (chr "T") g) []))
  else g.

Section Formatter.

(** [String.prototype.toLowerCase], with the case tables of Unicode. *)
Variable toLowerCase : jsstring -> jsstring.

(** The chain of [if ... else if ...] over [message]. *)
Definition classify (message : jsstring) : value :=
  if includes message (js "[ERROR]") || includes (toLowerCase message) (js "failed")
  then ty "error"
  else if includes message (js "[SUCCESS]")
          || includes (toLowerCase message) (js "completed")
  then ty "success"
  else if includes message (js "[GIT]") then ty "git"
  else if includes message (js "[BRAIN]") then ty "brain"
  else if includes message (js "[PLAN]") || includes message (js "[STEP")
  then ty "plan"
  else if includes message (js "[SYSTEM]") || includes message (js "[CMD]")
  then ty "process"
  else ty "info".

(** The body of the [map] callback. *)
Definition formatLine (line : jsstring) : LogEntry :=
  let tsm := tsMatch line in
  let timestamp := match tsm with
                   | Some (g1, _) => shortTimestamp g1
                   | None => []
                   end in
  let message := match tsm with
                 | Some (_, g2) => g2
                 | None => line
                 end in
  mkLog timestamp message (classify message).

(** [job.logs.split('\n').filter(l => l.trim()).map(...)] *)
Definition formattedLogs (logs : jsstring) : list LogEntry :=
  map formatLine (filter (fun l => truthy_str (trim l)) (split 10%N logs)).

End Formatter.

End JobView.

(* ================================================================== *)
(** * Effects: state, exceptions, [try]/[catch] *)
(* ================================================================== *)

Module Eff.

(** What the runtime throws on its own. *)
Inductive Fault : Type :=
| NotIterable (v : value)          (* [for ... of] over a value with no iterator *)
| ReadOfNullish (prop : jsstring)  (* a property read on [null] or [undefined] *)
| NoPrimitive.                     (* [ToString] of an object that shadows [toString] *)

(** A thrown value: an [Error] with its message, or a [TypeError] of the
    runtime, whose message is the engine's. *)
Inductive Exn : Type :=
| Error (message : jsstring)
| TypeError (what : Fault).

Inductive outcome (A : Type) : Type :=
| Returned (a : A)
| Thrown (e : Exn).
Arguments Returned {A} a.
Arguments Thrown {A} e.

Definition M (W A : Type) : Type := W -> outcome A * W.

Definition ret {W A} (a : A) : M W A := fun w => (Returned a, w).

Definition bind {W A B} (c : M W A) (k : A -> M W B) : M W B :=
  fun w => match c w with
           | (Returned a, w') => k a w'
           | (Thrown e, w') => (Thrown e, w')
           end.

Definition throw {W A} (e : Exn) : M W A := fun w => (Thrown e, w).

Definition try_catch {W A} (body : M W A) (handler : Exn -> M W A) : M W A :=
  fun w => match body w with
           | (Returned a, w') => (Returned a, w')
           | (Thrown e, w') => handler e w'
           end.

Definition modify {W} (f : W -> W) : M W unit := fun w => (Returned tt, f w).

Definition gets {W A} (f : W -> A) : M W A := fun w => (Returned (f w), w).

(** A promise that has settled, awaited. *)
Definition await {W A} (settled : outcome A) : M W A := fun w => (settled, w).

Fixpoint for_of {W A} (items : list A) (body : A -> M W unit) : M W unit :=
  match items with
  | [] => ret tt
  | x :: rest => bind (body x) (fun _ => for_of rest body)
  end.

Definition run {W A} (c : M W A) (w : W) : W := snd (c w).
Definition result {W A} (c : M W A) (w : W) : outcome A := fst (c w).

End Eff.

Import Eff.

Declare Scope eff_scope.
Delimit Scope eff_scope with eff.
Notation "x <- c ;; k" := (bind c (fun x => k))
  (at level 61, c at next level, right associativity) : eff_scope.
Notation "c ;;; k" := (bind c (fun _ => k))
  (at level 61, right associativity) : eff_scope.

(* ================================================================== *)
(** * services/geminiService.ts: the simulation engine *)
(* ================================================================== *)

Module geminiService.

(** The pause before a step: 3500 ms, or [1000 + Math.random() * 1500]. *)
Inductive Delay : Type :=
| Ms (n : Z)
| Jitter.

(** What a run does to the outside, in order. *)
Inductive Event : Type :=
| GenerateContent (contents : jsstring)
| SetTimeout (d : Delay)
| OnLogUpdate (log : LogEntry)
| OnCompletion (files : value).

Record World : Type := mkWorld {
  reads : nat;            (* how often the clock has been read *)
  trace : list Event      (* newest last *)
}.

Definition start : World := mkWorld 0 [].

Definition emit (e : Event) : M World unit :=
  modify (fun w => mkWorld (reads w) (trace w ++ [e])).

(** The settled promise of [ai.models.generateContent]: a rejection, or a
    response with its [text], which may be missing. *)
Inductive Reply : Type :=
| Rejects (e : Exn)
| Responds (text : option jsstring).

(** [for (const step of v)]: arrays yield their items, strings their code
    points; nothing else that [JSON.parse] returns is iterable. *)
Definition is_high (c : N) : bool := N.leb 55296 c && N.leb c 56319.
Definition is_low (c : N) : bool := N.leb 56320 c && N.leb c 57343.

Fixpoint code_points (s : jsstring) : list jsstring :=
  match s with
  | [] => []
  | h :: r =>
      match r with
      | l :: r' =>
          if is_high h && is_low l then [h; l] :: code_points r'
          else [h] :: code_points r
      | [] => [[h]]
      end
  end.

Definition iterate (v : value) : M World (list value) :=
  match v with
  | VArr items => ret items
  | VStr s => ret (map VStr (code_points s))
  | _ => throw (TypeError (NotIterable v))
  end.

(** [v.name] for the names read here ([steps], [files], [type],
    [thought], [action]): an own property of an object, [undefined] on
    any other value that has properties, a [TypeError] on [null]. *)
Definition getprop (v : value) (name : string) : M World value :=
  match v with
  | VUndefined | VNull => throw (TypeError (ReadOfNullish (js name)))
  | VObj props => ret (match own props (js name) with
                       | Some x => x
                       | None => VUndefined
                       end)
  | _ => ret VUndefined
  end.

(** [ToString], as a template literal applies it. An object made by
    [JSON.parse] prints as [[object Object]] unless an own [toString]
    property, which is never callable, shadows the inherited method. *)
Fixpoint toString (v : value) : outcome jsstring :=
  match v with
  | VUndefined => Returned (js "undefined")
  | VNull => Returned (js "null")
  | VBool true => Returned (js "true")
  | VBool false => Returned (js "false")
  | VNum shown => Returned shown
  | VStr s => Returned s
  | VArr items =>
      (fix join (l : list value) : outcome jsstring :=
         match l with
         | [] => Returned []
         | x :: rest =>
             let shown := match x with
                          | VUndefined | VNull => Returned []
                          | _ => toString x
                          end in
             match shown, rest with
             | Thrown e, _ => Thrown e
             | Returned a, [] => Returned a
             | Returned a, _ :: _ =>
                 match join rest with
                 | Returned b => Returned (a ++ js "," ++ b)
                 | Thrown e => Thrown e
                 end
             end
         end) items
  | VObj props =>
      match own props (js "toString") with
      | None => Returned (js "[object Object]")
      | Some _ => Thrown (TypeError NoPrimitive)
      end
  end.

Definition systemNotice : jsstring := js "[SYSTEM] تعذر الاتصال بـ API الخلفي. الانتقال إلى نمط المحاكاة المحلية المستقلة...".
Definition brainNotice : jsstring := js "[BRAIN] جارِ تفعيل الروابط العصبية لمحاكاة المهمة ذهنياً...".
Definition contentsPrefix : jsstring := js "ابدأ محاكاة المهمة: ".
Definition failurePrefix : jsstring := js "فشل المحاكاة المحلية: ".

(** [JSON.parse] of the literal used when the response has no text: an
    object with two empty arrays. *)
Definition emptyResult : value :=
  VObj [(js "steps", VArr []); (js "files", VArr [])].

Section Engine.

(** The clock, as [new Date().toLocaleTimeString('ar-EG')] renders it at
    its n-th reading. *)
Variable toLocaleTimeString : nat -> jsstring.

(** [JSON.parse]; a [SyntaxError] is thrown on text that is not JSON. *)
Variable JSON_parse : jsstring -> outcome value.

(** The message the engine gives a [TypeError] of its own. *)
Variable faultMessage : Fault -> jsstring.

Definition error_message (e : Exn) : jsstring :=
  match e with
  | Error m => m
  | TypeError f => faultMessage f
  end.

Definition now : M World jsstring :=
  fun w => (Returned (toLocaleTimeString (reads w)), mkWorld (S (reads w)) (trace w)).

(** [JSON.parse(response.text || '{...}')] *)
Definition parsed (text : option jsstring) : outcome value :=
  match text with
  | Some (c :: t) => JSON_parse (c :: t)
  | _ => Returned emptyResult
  end.

(** One turn of the [for ... of] loop. *)
Definition replayStep (step : value) : M World unit :=
  (kind <- getprop step "type" ;;
   let delay := if is_str kind (js "search") || is_str kind (js "map")
                then Ms 3500 else Jitter in
   emit (SetTimeout delay) ;;;
   ts <- now ;;
   thought <- getprop step "thought" ;;
   thoughtText <- await (toString thought) ;;
   action <- getprop step "action" ;;
   actionText <- await (toString action) ;;
   kind' <- getprop step "type" ;;
   emit (OnLogUpdate (mkLog ts (thoughtText ++ js " -> " ++ actionText) kind')))%eff.

(** The part of the call that runs before its first [await]. *)
Definition announceFallback : M World unit :=
  (ts0 <- now ;;
   emit (OnLogUpdate (mkLog ts0 systemNotice (ty "process"))))%eff.

(** [repo], [persona] and [useSearch] only enter the system instruction,
    which goes to the model with the schema and is not read again. *)
Definition simulateAgentExecution (task : jsstring) (repo persona : option jsstring)
    (useSearch : option bool) (reply : Reply) : M World unit :=
  (announceFallback ;;;
   try_catch
     (emit (GenerateContent (contentsPrefix ++ task)) ;;;
      text <- match reply with
              | Rejects e => throw e
              | Responds text => ret text
              end ;;
      result <- await (parsed text) ;;
      ts1 <- now ;;
      emit (OnLogUpdate (mkLog ts1 brainNotice (ty "brain"))) ;;;
      steps <- getprop result "steps" ;;
      items <- iterate steps ;;
      for_of items replayStep ;;;
      files <- getprop result "files" ;;
      emit (OnCompletion files))
     (fun error =>
        ts <- now ;;
        emit (OnLogUpdate (mkLog ts (failurePrefix ++ error_message error) (ty "error")))))%eff.

(** The calls a run makes to its two callbacks, in order. *)
Definition callbacks (w : World) : list Event :=
  filter (fun e => match e with
                   | OnLogUpdate _ | OnCompletion _ => true
                   | _ => false
                   end) (trace w).

(** The entry of the [catch] clause when the clock has been read [n]
    times before. *)
Definition failureLog (n : nat) (e : Exn) : LogEntry :=
  mkLog (toLocaleTimeString n) (failurePrefix ++ error_message e) (ty "error").

(** What is thrown when [result.steps] is read and its iteration begins,
    if anything is. *)
Definition stepsFault (result : value) : option Exn :=
  match (steps <- getprop result "steps" ;; iterate steps)%eff start with
  | (Thrown e, _) => Some e
  | (Returned _, _) => None
  end.

End Engine.

(** The [responseSchema] of the request, as a test on a parsed reply: an
    object with [steps], an array of objects with strings [thought] and
    [action] and a [type] of the enumeration, and [files], an array of
    objects with strings [name] and [path] and, if present, a string
    [size]. *)
Definition isString (v : option value) : bool :=
  match v with
  | Some (VStr _) => true
  | _ => false
  end.

Definition stepTypes : list jsstring :=
  [js "info"; js "process"; js "success"; js "error"; js "tool"; js "search"; js "map"].

Definition isStepType (v : option value) : bool :=
  match v with
  | Some (VStr s) => existsb (str_eqb s) stepTypes
  | _ => false
  end.

Definition stepMatches (v : value) : bool :=
  match v with
  | VObj props =>
      isString (own props (js "thought")) && isString (own props (js "action"))
      && isStepType (own props (js "type"))
  | _ => false
  end.

Definition fileMatches (v : value) : bool :=
  match v with
  | VObj props =>
      isString (own props (js "name")) && isString (own props (js "path"))
      && match own props (js "size") with
         | None => true
         | size => isString size
         end
  | _ => false
  end.

Definition matchesSchema (v : value) : bool :=
  match v with
  | VObj props =>
      match own props (js "steps"), own props (js "files") with
      | Some (VArr steps), Some (VArr files) =>
          forallb stepMatches steps && forallb fileMatches files
      | _, _ => false
      end
  | _ => false
  end.

(** The entries passed to [onLogUpdate], in order. *)
Definition onLogCalls (w : World) : list LogEntry :=
  flat_map (fun e => match e with
                     | OnLogUpdate log => [log]
                     | _ => []
                     end) (trace w).


(** The arguments of the calls of [onCompletion], in order. *)
Definition completions (w : World) : list value :=
  flat_map (fun e => match e with
                     | OnCompletion produced => [produced]
                     | _ => []
                     end) (trace w).

End geminiService.

(* ================================================================== *)
(** * services/apiService.ts: the remote job client *)
(* ================================================================== *)

Module apiService.

(** The requests the client can send. *)
Inductive Request : Type :=
| GET_jobs
| POST_jobs (task : jsstring) (repoUrl : option jsstring)
| GET_job (jobId : jsstring)
| GET_status (jobId : jsstring)
| DELETE_job (jobId : jsstring).

(** Whether a request deletes a job on the backend. *)
Definition deletes (r : Request) : bool :=
  match r with
  | DELETE_job _ => true
  | _ => false
  end.

Section Client.

Variable W : Type.
(** How a world records a request that was sent. *)
Variable sent : Request -> W -> W.

(** Each operation sends one request and settles as the backend decides:
    a rejection of [fetch], a response that is not [ok], or a body. *)
Definition listJobs (reply : outcome (list Job)) : M W (list Job) :=
  (modify (sent GET_jobs) ;;; await reply)%eff.

Definition createJob (task : jsstring) (repoUrl : option jsstring)
    (reply : outcome jsstring) : M W jsstring :=
  (modify (sent (POST_jobs task repoUrl)) ;;; await reply)%eff.

Definition getJob (jobId : jsstring) (reply : outcome Job) : M W Job :=
  (modify (sent (GET_job jobId)) ;;; await reply)%eff.

Definition getStatus (jobId : jsstring) (reply : outcome jsstring) : M W jsstring :=
  (modify (sent (GET_status jobId)) ;;; await reply)%eff.

Definition deleteJob (jobId : jsstring) (reply : outcome unit) : M W unit :=
  (modify (sent (DELETE_job jobId)) ;;; await reply)%eff.

End Client.

Definition API_BASE_URL : jsstring := js "http://localhost:8000".

(** The link of an artifact; nothing is fetched. *)
Definition getDownloadUrl (jobId filename : jsstring) : jsstring :=
  API_BASE_URL ++ js "/jobs/" ++ jobId ++ js "/download/" ++ filename.

End apiService.

(* ================================================================== *)
(** * App.tsx: the job store and its handlers *)
(* ================================================================== *)

Module App.

Record World : Type := mkWorld {
  jobs : list Job;
  activeJobId : option jsstring;
  isModalOpen : bool;
  isBackendOnline : bool;
  requests : list apiService.Request     (* sent to the backend, newest last *)
}.

(** [useState] initial values. *)
Definition initial : World := mkWorld [] None false true [].

Definition setJobs (f : list Job -> list Job) : M World unit :=
  modify (fun w => mkWorld (f (jobs w)) (activeJobId w) (isModalOpen w)
                           (isBackendOnline w) (requests w)).

Definition setActiveJobId (a : option jsstring) : M World unit :=
  modify (fun w => mkWorld (jobs w) a (isModalOpen w) (isBackendOnline w) (requests w)).

Definition setIsModalOpen (b : bool) : M World unit :=
  modify (fun w => mkWorld (jobs w) (activeJobId w) b (isBackendOnline w) (requests w)).

Definition setIsBackendOnline (b : bool) : M World unit :=
  modify (fun w => mkWorld (jobs w) (activeJobId w) (isModalOpen w) b (requests w)).

Definition sent (r : apiService.Request) (w : World) : World :=
  mkWorld (jobs w) (activeJobId w) (isModalOpen w) (isBackendOnline w) (requests w ++ [r]).

(** [jobs.find(j => j.id === activeJobId) || null] *)
Definition activeJob (w : World) : option Job :=
  match activeJobId w with
  | Some a => find (fun j => str_eqb (id j) a) (jobs w)
  | None => None
  end.

(** The optional flag read as a condition. *)
Definition truthy (b : option bool) : bool :=
  match b with
  | Some true => true
  | _ => false
  end.

(** [{ ...j, is_simulation: false }] *)
Definition fromServer (j : Job) : Job :=
  mkJob (id j) (task j) (persona j) (use_search j) (repo_url j) (status j)
        (created_at j) (logs j) (files j) (error j) (Some false).

(** [if (!merged.find(m => m.id === sim.id)) merged.push(sim)] *)
Definition pushIfAbsent (merged : list Job) (sim : Job) : list Job :=
  match find (fun m => str_eqb (id m) (id sim)) merged with
  | Some _ => merged
  | None => merged ++ [sim]
  end.

Section Reconcile.

(** [new Date(text).getTime()]; nothing stands for [NaN]. *)
Variable getTime : jsstring -> option Z.

(** The comparator of the sort. A [NaN] result counts as [+0]. Only the
    sign of the difference is observed. *)
Definition byNewest (a b : Job) : Z :=
  match getTime (created_at b), getTime (created_at a) with
  | Some tb, Some ta => tb - ta
  | _, _ => 0
  end.

(** [Array.prototype.sort] is stable: by insertion, an item goes in
    front of the first one it does not have to follow. Where every date
    parses the comparator is consistent and every stable sort gives this
    order. Where a date does not parse it is not, the language leaves
    the order to the engine, and this is one such order: what is proved
    of an order below is proved for dates that parse. *)
Fixpoint insert (cmp : Job -> Job -> Z) (x : Job) (l : list Job) : list Job :=
  match l with
  | [] => [x]
  | y :: l' => if (cmp x y >? 0)%Z then y :: insert cmp x l' else x :: y :: l'
  end.

Definition sort (cmp : Job -> Job -> Z) (l : list Job) : list Job :=
  fold_right (insert cmp) [] l.

(** The updater passed to [setJobs] by [fetchJobsList]. *)
Definition reconcile (data prev : list Job) : list Job :=
  let simulationJobs := filter (fun j => truthy (is_simulation j)) prev in
  let apiJobs := map fromServer data in
  let merged := fold_left pushIfAbsent simulationJobs apiJobs in
  sort byNewest merged.

Definition fetchJobsList (reply : outcome (list Job)) : M World unit :=
  try_catch
    (data <- apiService.listJobs sent reply ;;
     setIsBackendOnline true ;;;
     setJobs (reconcile data))%eff
    (fun err => setIsBackendOnline false).

(** [onLogUpdate] and [onCompletion] as [handleCreateJob] binds them to
    [mockId]. *)
Definition appendLog (log : LogEntry) (j : Job) : Job :=
  mkJob (id j) (task j) (persona j) (use_search j) (repo_url j) (status j)
        (created_at j)
        (logs j ++ js "[" ++ timestamp log ++ js "] " ++ message log ++ [10%N])
        (files j) (error j) (is_simulation j).

Definition complete (produced : value) (j : Job) : Job :=
  mkJob (id j) (task j) (persona j) (use_search j) (repo_url j) completed
        (created_at j) (logs j) produced (error j) (is_simulation j).

Definition onLog (mockId : jsstring) (log : LogEntry) : M World unit :=
  setJobs (map (fun j => if str_eqb (id j) mockId then appendLog log j else j)).

Definition onComplete (mockId : jsstring) (produced : value) : M World unit :=
  setJobs (map (fun j => if str_eqb (id j) mockId then complete produced j else j)).

(** What an event of a simulation run does to the store. *)
Definition deliver (mockId : jsstring) (e : geminiService.Event) : M World unit :=
  match e with
  | geminiService.OnLogUpdate log => onLog mockId log
  | geminiService.OnCompletion produced => onComplete mockId produced
  | _ => ret tt
  end.

(** What [handleCreateJob] reads from its surroundings. *)
Record Surroundings : Type := mkSurroundings {
  randomSuffix : jsstring;       (* [Math.random().toString(36).substr(2, 6)] *)
  isoNow : jsstring;             (* [new Date().toISOString()] *)
  localeNow : jsstring;          (* [new Date().toLocaleTimeString('ar-EG')] *)
  engineClock : nat -> jsstring  (* the clock as the engine will read it *)
}.

Definition fallbackNotice : jsstring := js "[SYSTEM] المحرك الخلفي غير متصل. بدء المحاكاة المحلية المستقلة...".

Definition newSimulationJob (env : Surroundings) (task : jsstring)
    (repo persona : option jsstring) (useSearch : option bool) : Job :=
  mkJob (js "sim-" ++ randomSuffix env) task persona useSearch repo running
        (isoNow env)
        (js "[" ++ localeNow env ++ js "] " ++ fallbackNotice ++ [10%N])
        (VArr []) None (Some true).

(** [createReply] settles [apiService.createJob], [listReply] the poll
    that follows a creation. The engine is started and not awaited: of
    its run, only the part before its first [await] happens here. *)
Definition handleCreateJob (env : Surroundings) (task : jsstring)
    (repo persona : option jsstring) (useSearch : option bool)
    (createReply : outcome jsstring) (listReply : outcome (list Job)) : M World unit :=
  try_catch
    (online <- gets isBackendOnline ;;
     (if negb online then throw (Error (js "Backend offline")) else ret tt) ;;;
     job_id <- apiService.createJob sent task repo createReply ;;
     setIsModalOpen false ;;;
     fetchJobsList listReply ;;;
     setActiveJobId (Some job_id))%eff
    (fun err =>
       let newJob := newSimulationJob env task repo persona useSearch in
       let mockId := id newJob in
       (setJobs (fun prev => newJob :: prev) ;;;
        setActiveJobId (Some mockId) ;;;
        setIsModalOpen false ;;;
        for_of (geminiService.callbacks
                  (run (geminiService.announceFallback (engineClock env))
                       geminiService.start))
               (deliver mockId))%eff).

(** [confirmed] is the answer to the [confirm] dialog. *)
Definition handleDeleteJob (jobId : jsstring) (confirmed : bool) : M World unit :=
  if negb confirmed then ret tt
  else
    (setJobs (filter (fun j => negb (str_eqb (id j) jobId))) ;;;
     active <- gets activeJobId ;;
     match active with
     | Some a => if str_eqb a jobId then setActiveJobId None else ret tt
     | None => ret tt
     end)%eff.

(** What can happen to the console between two renderings: the timer
    of the poll fires, or the user submits a task, deletes a job or
    selects one. *)
Inductive Action : Type :=
| Poll (reply : outcome (list Job))
| Create (env : Surroundings) (task : jsstring) (repo persona : option jsstring)
         (useSearch : option bool)
         (createReply : outcome jsstring) (listReply : outcome (list Job))
| Delete (jobId : jsstring) (confirmed : bool)
| Select (jobId : jsstring).

Definition perform (a : Action) : M World unit :=
  match a with
  | Poll reply => fetchJobsList reply
  | Create env task repo persona useSearch createReply listReply =>
      handleCreateJob env task repo persona useSearch createReply listReply
  | Delete jobId confirmed => handleDeleteJob jobId confirmed
  | Select jobId => setActiveJobId (Some jobId)
  end.

(** The states the console can be in, late callbacks of the engine
    aside. *)
Inductive reachable : World -> Prop :=
| reach_initial : reachable initial
| reach_step (w : World) (a : Action) : reachable w -> reachable (run (perform a) w).

End Reconcile.

End App.

(* ================================================================== *)
(** * components/JobView.tsx: the file browser *)
(* ================================================================== *)

Module FileBrowser.

(** A number as [ToString] prints it, for the lengths met here. *)
Fixpoint digitsOf (u : Decimal.uint) : jsstring :=
  match u with
  | Decimal.Nil => []
  | Decimal.D0 r => 48%N :: digitsOf r
  | Decimal.D1 r => 49%N :: digitsOf r
  | Decimal.D2 r => 50%N :: digitsOf r
  | Decimal.D3 r => 51%N :: digitsOf r
  | Decimal.D4 r => 52%N :: digitsOf r
  | Decimal.D5 r => 53%N :: digitsOf r
  | Decimal.D6 r => 54%N :: digitsOf r
  | Decimal.D7 r => 55%N :: digitsOf r
  | Decimal.D8 r => 56%N :: digitsOf r
  | Decimal.D9 r => 57%N :: digitsOf r
  end.

Definition number (n : nat) : value := VNum (digitsOf (Nat.to_uint n)).

(** [v.length], as [JobView] reads it of [job.files] for the badge of the
    tab, and [FileBrowser] again. *)
Definition lengthOf (v : value) : outcome value :=
  match v with
  | VUndefined | VNull => Thrown (TypeError (ReadOfNullish (js "length")))
  | VArr items => Returned (number (List.length items))
  | VStr s => Returned (number (List.length s))
  | VObj props => Returned (match own props (js "length") with
                            | Some x => x
                            | None => VUndefined
                            end)
  | _ => Returned VUndefined
  end.

(** Whether a value counts as true in a condition. *)
Definition truthy_value (v : value) : bool :=
  match v with
  | VUndefined | VNull | VBool false => false
  | VNum shown => negb (str_eqb shown (js "0"))
  | VStr s => truthy_str s
  | _ => true
  end.

(** [file.split('/').pop() || file] *)
Definition baseName (file : jsstring) : jsstring :=
  let popped := last (split (chr "/") file) [] in
  if truthy_str popped then popped else file.

(** What a card of the grid shows: the name and the size as text, the
    caption, and the download anchor with its [href], which is rendered
    only outside a simulation. The path is computed and not shown. *)
Record Card : Type := mkCard {
  fileName : value;
  fileSize : value;
  caption : jsstring;
  anchor : option jsstring
}.

(** [file.name], [file.path], [file.size] of an entry that is not a
    string. *)
Definition field (file : value) (name : string) : outcome value :=
  match file with
  | VUndefined | VNull => Thrown (TypeError (ReadOfNullish (js name)))
  | VObj props => Returned (match own props (js name) with
                            | Some x => x
                            | None => VUndefined
                            end)
  | _ => Returned VUndefined
  end.

(** The body of the [map] callback. The template of [getDownloadUrl]
    applies [ToString] to the name; it is called outside a simulation
    only. *)
Definition card (jobId : jsstring) (isSimulation : bool) (file : value) : outcome Card :=
  let named :=
    match file with
    | VStr p => Returned (VStr (baseName p), VStr p, VStr (js "Unknown size"))
    | _ =>
        match field file "name", field file "path", field file "size" with
        | Returned n, Returned p, Returned sz =>
            Returned (n, p, if truthy_value sz then sz else VStr (js "Unknown size"))
        | Thrown e, _, _ => Thrown e
        | _, Thrown e, _ => Thrown e
        | _, _, Thrown e => Thrown e
        end
    end in
  match named with
  | Thrown e => Thrown e
  | Returned (n, filePath, sz) =>
      let downloadUrl :=
        if isSimulation then Returned (js "#")
        else match geminiService.toString n with
             | Returned text => Returned (apiService.getDownloadUrl jobId text)
             | Thrown e => Thrown e
             end in
      match downloadUrl with
      | Thrown e => Thrown e
      | Returned url =>
          Returned (mkCard n sz
                      (if isSimulation then js "أصل برمجى مُحاكى" else js "جاهز للتحميل")
                      (if negb isSimulation then Some url else None))
      end
  end.

(** What React accepts as the child of an element: anything but a plain
    object, in an array too. *)
Fixpoint renderable (v : value) : bool :=
  match v with
  | VObj _ => false
  | VArr items => forallb renderable items
  | _ => true
  end.

(** What the browser renders: the empty state, the grid, or nothing
    because an error is thrown while rendering. *)
Inductive View : Type :=
| EmptyState
| Grid (cards : list Card)
| Fails.

(** The cards of the grid; the name and the size of each are rendered as
    children. *)
Fixpoint cardsOf (jobId : jsstring) (isSimulation : bool) (items : list value)
    : option (list Card) :=
  match items with
  | [] => Some []
  | file :: rest =>
      match card jobId isSimulation file, cardsOf jobId isSimulation rest with
      | Returned c, Some cs =>
          if renderable (fileName c) && renderable (fileSize c) then Some (c :: cs) else None
      | _, _ => None
      end
  end.

Definition isZero (v : value) : bool :=
  match v with
  | VNum shown => str_eqb shown (js "0")
  | _ => false
  end.

(** [if (files.length === 0) ... else files.map(...)]; only an array has
    a [map]. *)
Definition render (jobId : jsstring) (files : value) (isSimulation : bool) : View :=
  match lengthOf files with
  | Thrown _ => Fails
  | Returned len =>
      if isZero len then EmptyState
      else match files with
           | VArr items => match cardsOf jobId isSimulation items with
                           | Some cards => Grid cards
                           | None => Fails
                           end
           | _ => Fails
           end
  end.

(** What [JobView] renders below its header. *)
Inductive Screen : Type :=
| LogsTab (entries : list LogEntry)
| FilesTab (view : View)
| RenderFails.

(** [count > 0] in [TabButton]: the comparison converts [count] to a
    primitive first, which throws where [ToString] throws; when it holds,
    [count] is rendered, and is then a number, a string, [true] or an
    array of these. *)
Definition badge (count : value) : outcome unit :=
  match geminiService.toString count with
  | Returned _ => Returned tt
  | Thrown e => Thrown e
  end.

(** [JobView]: the badge of the files tab reads [job.files.length] and
    compares it with zero whichever tab is open; below, the log viewer
    gets the formatted logs, or the browser gets the files and
    [!!job.is_simulation]. *)
Definition jobView (toLowerCase : jsstring -> jsstring) (job : Job) (filesTab : bool)
    : Screen :=
  match lengthOf (files job) with
  | Thrown _ => RenderFails
  | Returned count =>
      match badge count with
      | Thrown _ => RenderFails
      | Returned _ =>
          if filesTab then
            match render (id job) (files job) (App.truthy (is_simulation job)) with
            | Fails => RenderFails
            | view => FilesTab view
            end
          else LogsTab (JobView.formattedLogs toLowerCase (logs job))
      end
  end.

End FileBrowser.

(* ================================================================== *)
(** * components/LogViewer.tsx *)
(* ================================================================== *)

Module LogViewer.

(** [arr.join(sep)] for strings and a separator of one code unit. *)
Fixpoint join (sep : N) (parts : list jsstring) : jsstring :=
  match parts with
  | [] => []
  | [p] => p
  | p :: rest => p ++ sep :: join sep rest
  end.

(** The line of an entry in the copied text. *)
Definition copiedLine (l : LogEntry) : jsstring :=
  js "[" ++ timestamp l ++ js "] " ++ message l.

(** The text that [copyToClipboard] writes. *)
Definition copyToClipboard (logs : list LogEntry) : jsstring :=
  join 10%N (map copiedLine logs).

End LogViewer.

(* ================================================================== *)
(** * components/JobSidebar.tsx *)
(* ================================================================== *)

Module JobSidebar.

(** [confirmedAll] answers the dialog of the button; [confirmedEach i]
    answers the dialog that [onDeleteJob], which is [handleDeleteJob],
    opens for the job at position [i] of the list that was rendered. *)
Definition handleClearAll (confirmedAll : bool) (confirmedEach : nat -> bool)
    : M App.World unit :=
  if confirmedAll then
    (rendered <- gets App.jobs ;;
     for_of (combine (seq 0 (List.length rendered)) rendered)
            (fun ij => App.handleDeleteJob (id (snd ij)) (confirmedEach (fst ij))))%eff
  else ret tt.

(** Whether one of the dialogs that was accepted is the dialog of a job
    with the id [key]. *)
Definition accepted (confirmedEach : nat -> bool) (items : list (nat * Job))
    (key : jsstring) : bool :=
  existsb (fun ij => confirmedEach (fst ij) && str_eqb key (id (snd ij))) items.

End JobSidebar.

(* ================================================================== *)
(** * components/NewJobModal.tsx *)
(* ================================================================== *)

Module NewJobModal.

(** [s || undefined] *)
Definition orUndefined (s : jsstring) : option jsstring :=
  if truthy_str s then Some s else None.

(** The fields of the form when it is submitted. *)
Record Form : Type := mkForm {
  task : jsstring;
  repo : jsstring;
  persona : jsstring;
  useSearch : bool
}.

(** What [handleSubmit] passes to [onSubmit], if it calls it. *)
Definition submitted (f : Form)
    : option (jsstring * option jsstring * option jsstring * option bool) :=
  if truthy_str (trim (task f))
  then Some (task f, orUndefined (trim (repo f)), orUndefined (trim (persona f)),
             Some (useSearch f))
  else None.

(** [handleSubmit] with [onSubmit] bound to [handleCreateJob], as [App]
    binds it. *)
Definition handleSubmit (getTime : jsstring -> option Z) (env : App.Surroundings)
    (f : Form) (createReply : outcome jsstring) (listReply : outcome (list Job))
    : M App.World unit :=
  match submitted f with
  | Some (t, r, p, u) => App.handleCreateJob getTime env t r p u createReply listReply
  | None => ret tt
  end.

End NewJobModal.

(* ================================================================== *)
(** * Instances of the builtins, for running the model on examples *)
(* ================================================================== *)

Module Sample.

(** [toLowerCase] on Basic Latin; other code units are left alone. *)
Definition asciiLower (s : jsstring) : jsstring :=
  map (fun c => if N.leb 65 c && N.leb c 90 then (c + 32)%N else c) s.

(** A [getTime] for the examples. It reads the texts of the shape that
    [toISOString] produces, [YYYY-MM-DDTHH:mm:ss.sssZ], as [Date] does,
    [24:00:00.000] being the end of the day; it gives [NaN] on every
    other text, of which [Date] reads some. *)
Definition digit (c : N) : option Z :=
  if N.leb 48 c && N.leb c 57 then Some (Z.of_N c - 48)%Z else None.

Fixpoint number (acc : Z) (s : jsstring) : option Z :=
  match s with
  | [] => Some acc
  | c :: s' => match digit c with
               | Some d => number (acc * 10 + d)%Z s'
               | None => None
               end
  end.

Definition field (from len : nat) (s : jsstring) : option Z :=
  number 0 (firstn len (skipn from s)).

Definition sep (at_ : nat) (c : string) (s : jsstring) : bool :=
  match nth_error s at_ with
  | Some x => N.eqb x (chr c)
  | None => false
  end.

Definition daysFromCivil (y m d : Z) : Z :=
  let y' := if (m <=? 2)%Z then (y - 1)%Z else y in
  let era := (y' / 400)%Z in
  let yoe := (y' - era * 400)%Z in
  let mp := ((m + 9) mod 12)%Z in
  let doy := ((153 * mp + 2) / 5 + d - 1)%Z in
  let doe := (yoe * 365 + yoe / 4 - yoe / 100 + doy)%Z in
  (era * 146097 + doe - 719468)%Z.

Definition isoTime (s : jsstring) : option Z :=
  if Nat.eqb (List.length s) 24
     && sep 4 "-" s && sep 7 "-" s && sep 10 "T" s && sep 13 ":" s
     && sep 16 ":" s && sep 19 "." s && sep 23 "Z" s
  then
    match field 0 4 s, field 5 2 s, field 8 2 s,
          field 11 2 s, field 14 2 s, field 17 2 s, field 20 3 s with
    | Some y, Some mo, Some d, Some h, Some mi, Some sec, Some ms =>
        if ((1 <=? mo) && (mo <=? 12) && (1 <=? d) && (d <=? 31)
            && ((h <? 24) || (h =? 24) && (mi =? 0) && (sec =? 0) && (ms =? 0))
            && (mi <? 60) && (sec <? 60))%Z
        then Some ((((daysFromCivil y mo d * 24 + h) * 60 + mi) * 60 + sec) * 1000 + ms)%Z
        else None
    | _, _, _, _, _, _, _ => None
    end
  else None.

(** The messages of V8 for the faults of the runtime. *)
Definition v8Message (f : Fault) : jsstring :=
  match f with
  | NotIterable _ => js "result.steps is not iterable"
  | ReadOfNullish prop =>
      js "Cannot read properties of null (reading '" ++ prop ++ js "')"
  | NoPrimitive => js "Cannot convert object to primitive value"
  end.

(** A clock that shows the ordinal of the reading. *)
Definition tick (n : nat) : jsstring := [(48 + N.of_nat n)%N].

(** [JSON.stringify], for values whose strings need no escaping. *)
Definition quoted (s : jsstring) : jsstring := [34%N] ++ s ++ [34%N].

Fixpoint commas (parts : list jsstring) : jsstring :=
  match parts with
  | [] => []
  | [p] => p
  | p :: rest => p ++ js "," ++ commas rest
  end.

Fixpoint stringify (v : value) : jsstring :=
  match v with
  | VUndefined | VNull => js "null"
  | VBool true => js "true"
  | VBool false => js "false"
  | VNum shown => shown
  | VStr s => quoted s
  | VArr items => js "[" ++ commas (map stringify items) ++ js "]"
  | VObj props =>
      js "{"
      ++ commas (map (fun kv => quoted (fst kv) ++ js ":" ++ stringify (snd kv)) props)
      ++ js "}"
  end.

(** A [JSON.parse] that knows the texts of the values of a table. *)
Fixpoint parseByTable (table : list value) (text : jsstring) : outcome value :=
  match table with
  | [] => Thrown (Error (js "Unexpected token"))
  | v :: rest => if str_eqb (stringify v) text then Returned v else parseByTable rest text
  end.

Definition step (thought action kind : string) : value :=
  VObj [(js "thought", VStr (js thought)); (js "action", VStr (js action));
        (js "type", VStr (js kind))].

Definition file (name path : string) : value :=
  VObj [(js "name", VStr (js name)); (js "path", VStr (js path))].

(** A reply of three steps and two files. *)
Definition threeItems : list value :=
  [step "read" "open repo" "info";
   step "look up" "query" "search";
   step "write" "emit report" "success"].

Definition twoFiles : value :=
  VArr [file "a.md" "output/a.md"; file "b.md" "output/b.md"].

Definition threeSteps : value :=
  VObj [(js "steps", VArr threeItems); (js "files", twoFiles)].

(** A reply with steps and no [files]. *)
Definition noFiles : value := VObj [(js "steps", VArr [])].

Definition table : list value := [threeSteps; noFiles; VNull].

(** A reply whose second step is [null]. *)
Definition brokenSteps : value :=
  VObj [(js "steps", VArr [step "read" "open repo" "info"; VNull;
                           step "write" "emit report" "success"]);
        (js "files", twoFiles)].

Definition simulate (reply : geminiService.Reply) : geminiService.World :=
  run (geminiService.simulateAgentExecution tick (parseByTable table) v8Message
         (js "task") None None None reply) geminiService.start.

Definition serverJob (jobId createdAt : string) : Job :=
  mkJob (js jobId) (js "build") None None None pending (js createdAt) [] (VArr [])
        None None.

Definition simJob (jobId createdAt : string) : Job :=
  mkJob (js jobId) (js "draft") None None None running (js createdAt) (js "[t] x")
        (VArr []) None (Some true).

Definition env (suffix createdAt : string) : App.Surroundings :=
  App.mkSurroundings (js suffix) (js createdAt) (js "10:00:00") tick.

End Sample.

(* ================================================================== *)
(** * The specification's wording, for comparison *)
(* ================================================================== *)

Module Spec.

(** The pattern of the specification: as [JobView.tsRegex], but the
    bracketed group takes at least one character. *)
Definition tsPattern : list item :=
  [ One (Chr (chr "[")); Rep true true 1 Dot; One (Chr (chr "]"));
    Rep false false 0 WhiteSp; Rep true false 0 Dot ].

(** What the pattern of the code asks of a line, in words: the line is
    an opening bracket, a value [g1] without line terminator, a closing
    bracket, white space, and a rest [g2] without line terminator that
    does not begin with white space. *)
Definition bracketed (line g1 g2 : jsstring) : Prop :=
  exists ws : jsstring,
    line = chr "[" :: g1 ++ chr "]" :: ws ++ g2
    /\ forallb (fun c => negb (is_line_terminator c)) g1 = true
    /\ forallb is_space ws = true
    /\ forallb (fun c => negb (is_line_terminator c)) g2 = true
    /\ match g2 with
       | [] => True
       | c :: _ => is_space c = false
       end.

(** Classification by the first rule that matches, in the order of the
    specification; [info] when none does. *)
Definition Rule : Type := ((jsstring -> bool) * value)%type.

Fixpoint firstMatch (rules : list Rule) (message : jsstring) : value :=
  match rules with
  | [] => ty "info"
  | (applies, kind) :: rest =>
      if applies message then kind else firstMatch rest message
  end.

Definition marker (m : string) : jsstring -> bool := fun message => includes message (js m).

Definition word (toLowerCase : jsstring -> jsstring) (w : string) : jsstring -> bool :=
  fun message => includes (toLowerCase message) (js w).

Definition either (p q : jsstring -> bool) : jsstring -> bool :=
  fun message => p message || q message.

Definition rules (toLowerCase : jsstring -> jsstring) : list Rule :=
  [ (either (marker "[ERROR]") (word toLowerCase "failed"), ty "error");
    (either (marker "[SUCCESS]") (word toLowerCase "completed"), ty "success");
    (marker "[GIT]", ty "git");
    (marker "[BRAIN]", ty "brain");
    (either (marker "[PLAN]") (marker "[STEP"), ty "plan");
    (either (marker "[SYSTEM]") (marker "[CMD]"), ty "process") ].

(** Newest first: every job is at least as recent as the jobs after it.
    A timestamp that does not parse is in no order with any other. *)
Definition notOlder (getTime : jsstring -> option Z) (a b : Job) : Prop :=
  match getTime (created_at a), getTime (created_at b) with
  | Some ta, Some tb => (tb <= ta)%Z
  | _, _ => False
  end.

Definition newestFirst (getTime : jsstring -> option Z) (l : list Job) : Prop :=
  StronglySorted (notOlder getTime) l.

(** The timestamp of the job parses. *)
Definition dated (getTime : jsstring -> option Z) (j : Job) : Prop :=
  getTime (created_at j) <> None.

(** A step as the schema of the request describes it: three strings. *)
Record Step : Type := mkStep {
  thought : jsstring;
  action : jsstring;
  kind : jsstring
}.

(** The value [v] is an object that holds the three strings of [s]. *)
Definition describes (v : value) (s : Step) : Prop :=
  exists props,
    v = VObj props
    /\ own props (js "thought") = Some (VStr (thought s))
    /\ own props (js "action") = Some (VStr (action s))
    /\ own props (js "type") = Some (VStr (kind s)).

Definition delayOf (s : Step) : geminiService.Delay :=
  if str_eqb (kind s) (js "search") || str_eqb (kind s) (js "map")
  then geminiService.Ms 3500 else geminiService.Jitter.

(** The entry of a step, stamped with the clock. *)
Definition stepLog (stamp : jsstring) (s : Step) : LogEntry :=
  mkLog stamp (thought s ++ js " -> " ++ action s) (VStr (kind s)).

(** One entry per step, in the order of the steps; the clock has been
    read [n] times before the first. *)
Fixpoint stepLogs (clock : nat -> jsstring) (n : nat) (steps : list Step) : list LogEntry :=
  match steps with
  | [] => []
  | s :: rest => stepLog (clock n) s :: stepLogs clock (S n) rest
  end.

(** The same with the pause that precedes each entry. *)
Fixpoint stepEvents (clock : nat -> jsstring) (n : nat) (steps : list Step)
    : list geminiService.Event :=
  match steps with
  | [] => []
  | s :: rest =>
      geminiService.SetTimeout (delayOf s)
        :: geminiService.OnLogUpdate (stepLog (clock n) s)
        :: stepEvents clock (S n) rest
  end.

(** What a callback of the engine does to the job it is bound to. *)
Definition applyEvent (e : geminiService.Event) (j : Job) : Job :=
  match e with
  | geminiService.OnLogUpdate log => App.appendLog log j
  | geminiService.OnCompletion produced => App.complete produced j
  | _ => j
  end.

Definition applyEvents (events : list geminiService.Event) (j : Job) : Job :=
  fold_left (fun job e => applyEvent e job) events j.

(** The lines that a list of entries adds to a log. *)
Definition linesOf (entries : list LogEntry) : jsstring :=
  flat_map (fun log => js "[" ++ timestamp log ++ js "] " ++ message log ++ [10%N]) entries.

(** A timestamp and a message that the pattern of the formatter gives
    back from the line [[timestamp] message]: neither holds a line
    terminator, the timestamp has no closing bracket and no [T], and the
    message does not begin with white space. *)
Definition plainStamp (s : jsstring) : bool :=
  forallb (fun c => negb (is_line_terminator c) && negb (N.eqb c (chr "]"))
                    && negb (N.eqb c (chr "T"))) s.

Definition plainMessage (s : jsstring) : bool :=
  forallb (fun c => negb (is_line_terminator c)) s
  && match s with
     | [] => true
     | c :: _ => negb (is_space c)
     end.

Definition plain (l : LogEntry) : bool :=
  plainStamp (timestamp l) && plainMessage (message l).

(** An entry with its type replaced by the one its message is given. *)
Definition asShown (toLowerCase : jsstring -> jsstring) (l : LogEntry) : LogEntry :=
  mkLog (timestamp l) (message l) (JobView.classify toLowerCase (message l)).

(** What a card shows of a file of the schema. *)
Definition shows (jobId : jsstring) (isSimulation : bool) (file : value)
    (c : FileBrowser.Card) : Prop :=
  exists (name : jsstring) (size : value),
    FileBrowser.field file "name" = Returned (VStr name)
    /\ FileBrowser.field file "size" = Returned size
    /\ FileBrowser.fileName c = VStr name
    /\ FileBrowser.fileSize c
       = (if FileBrowser.truthy_value size then size else VStr (js "Unknown size"))
    /\ FileBrowser.anchor c
       = if isSimulation then None else Some (apiService.getDownloadUrl jobId name).

(** A job is marked as a job of the server, or as a simulation with an
    id of the form that [handleCreateJob] gives. *)
Definition marked (j : Job) : bool :=
  match is_simulation j with
  | Some false => true
  | Some true => startsWith (id j) (js "sim-")
  | None => false
  end.

(** The pauses of a run, in order, and its requests to the model. *)
Definition pauses (events : list geminiService.Event) : list geminiService.Delay :=
  flat_map (fun e => match e with
                     | geminiService.SetTimeout d => [d]
                     | _ => []
                     end) events.

Definition prompts (events : list geminiService.Event) : list jsstring :=
  flat_map (fun e => match e with
                     | geminiService.GenerateContent contents => [contents]
                     | _ => []
                     end) events.

(** The events of the loop over the steps: pauses and entries. *)
Definition ofLoop (e : geminiService.Event) : bool :=
  match e with
  | geminiService.SetTimeout _ | geminiService.OnLogUpdate _ => true
  | _ => false
  end.

End Spec.

(* ================================================================== *)
(** * Proof automation for the handlers *)
(* ================================================================== *)

Unset Implicit Arguments.

(** Runs a handler as far as its text allows. *)
Ltac step_eff :=
  cbv beta iota zeta delta
    [run result bind try_catch throw ret modify gets await
     App.handleDeleteJob App.handleCreateJob App.fetchJobsList
     App.setJobs App.setActiveJobId App.setIsModalOpen App.setIsBackendOnline
     App.sent App.onLog App.onComplete App.deliver
     apiService.listJobs apiService.createJob
     App.jobs App.activeJobId App.isModalOpen App.isBackendOnline App.requests
     fst snd negb].

(* ================================================================== *)
(** * Facts about strings *)
(* ================================================================== *)

Lemma str_eqb_refl (a : jsstring) : str_eqb a a = true.
Proof.
  induction a as [|x a IH]; simpl; [reflexivity|].
  now rewrite N.eqb_refl, IH.
Qed.

Lemma str_eqb_eq (a b : jsstring) : str_eqb a b = true <-> a = b.
Proof.
  split.
  - revert b; induction a as [|x a IH]; intros [|y b] H; simpl in H;
      try discriminate; [reflexivity|].
    apply andb_true_iff in H as [Hx Hr].
    apply N.eqb_eq in Hx. apply IH in Hr. congruence.
  - intros ->. apply str_eqb_refl.
Qed.

Lemma str_eqb_neq (a b : jsstring) : str_eqb a b = false <-> a <> b.
Proof.
  split.
  - intros H E. apply str_eqb_eq in E. congruence.
  - intros H. destruct (str_eqb a b) eqn:E; [|reflexivity].
    apply str_eqb_eq in E. contradiction.
Qed.

(* ================================================================== *)
(** * The reconciliation merge *)
(* ================================================================== *)

Section ReconcileFacts.

Variable getTime : jsstring -> option Z.

Lemma insert_perm cmp (x : Job) (l : list Job) :
  Permutation (App.insert cmp x l) (x :: l).
Proof.
  induction l as [|y l IH]; simpl; [reflexivity|].
  destruct (cmp x y >? 0)%Z; [|reflexivity].
  rewrite IH. apply perm_swap.
Qed.

Lemma sort_perm cmp (l : list Job) : Permutation (App.sort cmp l) l.
Proof.
  induction l as [|x l IH]; simpl; [reflexivity|].
  unfold App.sort in *. simpl. rewrite insert_perm. now constructor.
Qed.

Lemma in_sort cmp (l : list Job) (x : Job) : In x (App.sort cmp l) <-> In x l.
Proof.
  split; apply Permutation_in; [|symmetry]; apply sort_perm.
Qed.

Lemma id_fromServer (j : Job) : id (App.fromServer j) = id j.
Proof. reflexivity. Qed.

Lemma ids_fromServer (data : list Job) : map id (map App.fromServer data) = map id data.
Proof. rewrite map_map. apply map_ext. intros; reflexivity. Qed.

Lemma find_id_none (l : list Job) (key : jsstring) :
  ~ In key (map id l) -> find (fun m => str_eqb (id m) key) l = None.
Proof.
  induction l as [|y l IH]; simpl; intros H; [reflexivity|].
  destruct (str_eqb (id y) key) eqn:E.
  - apply str_eqb_eq in E. exfalso. apply H. now left.
  - apply IH. intros Hin. apply H. now right.
Qed.

Lemma pushIfAbsent_keeps (merged : list Job) (sim x : Job) :
  In x merged -> In x (App.pushIfAbsent merged sim).
Proof.
  unfold App.pushIfAbsent. destruct (find _ merged); intros H; [assumption|].
  apply in_or_app. now left.
Qed.

Lemma pushIfAbsent_ids (merged : list Job) (sim : Job) (key : jsstring) :
  In key (map id (App.pushIfAbsent merged sim)) -> In key (map id merged) \/ key = id sim.
Proof.
  unfold App.pushIfAbsent. destruct (find _ merged); intros H; [now left|].
  rewrite map_app in H. apply in_app_or in H as [H|H]; [now left|].
  simpl in H. destruct H as [H|[]]. now right.
Qed.

Lemma pushIfAbsent_new (merged : list Job) (sim : Job) :
  ~ In (id sim) (map id merged) -> In sim (App.pushIfAbsent merged sim).
Proof.
  intros H. unfold App.pushIfAbsent. rewrite (find_id_none _ _ H).
  apply in_or_app. right. now left.
Qed.

Lemma fold_push_keeps (sims merged : list Job) (x : Job) :
  In x merged -> In x (fold_left App.pushIfAbsent sims merged).
Proof.
  revert merged. induction sims as [|s sims IH]; simpl; intros merged H; [assumption|].
  apply IH. now apply pushIfAbsent_keeps.
Qed.

(** Whatever the merge holds came from the server list or from the
    simulation jobs of the store. *)
Lemma fold_push_origin (sims merged : list Job) (x : Job) :
  In x (fold_left App.pushIfAbsent sims merged) -> In x merged \/ In x sims.
Proof.
  revert merged. induction sims as [|s sims IH]; simpl; intros merged H; [now left|].
  apply IH in H as [H|H]; [|now right; right].
  unfold App.pushIfAbsent in H. destruct (find _ merged); [now left|].
  apply in_app_or in H as [H|[H|[]]]; [now left|]. right. now left.
Qed.

(** A simulation job whose id the server list lacks leaves a job of that
    id in the merge. *)
Lemma fold_push_id (sims merged : list Job) (j : Job) :
  In j sims -> ~ In (id j) (map id merged) ->
  exists k, In k (fold_left App.pushIfAbsent sims merged) /\ In k sims /\ id k = id j.
Proof.
  revert merged. induction sims as [|s sims IH]; simpl; intros merged Hj Hid; [contradiction|].
  destruct (str_eqb (id s) (id j)) eqn:E.
  - apply str_eqb_eq in E. exists s. repeat split; [|now left|assumption].
    apply fold_push_keeps, pushIfAbsent_new. now rewrite E.
  - apply str_eqb_neq in E. destruct Hj as [->|Hj]; [congruence|].
    destruct (IH (App.pushIfAbsent merged s) Hj) as (k & Hk & Hks & Hkid).
    + intros Hin. apply pushIfAbsent_ids in Hin as [Hin|Hin]; [contradiction|congruence].
    + exists k. repeat split; [assumption|now right|assumption].
Qed.

(** With distinct ids among the simulation jobs, it is the job itself. *)
Lemma fold_push_self (sims merged : list Job) (j : Job) :
  NoDup (map id sims) -> In j sims -> ~ In (id j) (map id merged) ->
  In j (fold_left App.pushIfAbsent sims merged).
Proof.
  revert merged. induction sims as [|s sims IH]; simpl; intros merged Hnd Hj Hid; [contradiction|].
  inversion Hnd as [|? ? Hs Hnd']; subst.
  destruct Hj as [->|Hj].
  - apply fold_push_keeps, pushIfAbsent_new, Hid.
  - apply IH; [assumption|assumption|].
    intros Hin. apply pushIfAbsent_ids in Hin as [Hin|Hin]; [contradiction|].
    apply Hs. rewrite <- Hin. now apply in_map.
Qed.

End ReconcileFacts.

Lemma find_id_absent (l : list Job) (key : jsstring) :
  find (fun m => str_eqb (id m) key) l = None -> ~ In key (map id l).
Proof.
  intros H Hin. apply in_map_iff in Hin as (x & <- & Hx).
  pose proof (find_none _ _ H x Hx) as E. cbv beta in E.
  rewrite str_eqb_refl in E. discriminate.
Qed.

(** What the loop of the merge adds to the server jobs: simulation jobs
    of the store, with distinct ids that the list did not have. *)
Lemma fold_push_shape (sims merged : list Job) :
  exists pushed,
    fold_left App.pushIfAbsent sims merged = merged ++ pushed
    /\ incl pushed sims
    /\ NoDup (map id pushed)
    /\ (forall k, In k pushed -> ~ In (id k) (map id merged)).
Proof.
  revert merged. induction sims as [|s sims IH]; intros merged; cbn [fold_left].
  - exists []. rewrite app_nil_r. repeat split; [intros ? []|constructor|intros ? []].
  - unfold App.pushIfAbsent at 2.
    destruct (find (fun m => str_eqb (id m) (id s)) merged) eqn:E.
    + destruct (IH merged) as (P & Heq & Hincl & Hnd & Hfresh).
      exists P. repeat split; try assumption.
      intros k Hk. right. now apply Hincl.
    + apply find_id_absent in E.
      destruct (IH (merged ++ [s])) as (P & Heq & Hincl & Hnd & Hfresh).
      exists (s :: P). split; [|split; [|split]].
      * rewrite Heq, <- app_assoc. reflexivity.
      * intros k [<-|Hk]; [now left|right; now apply Hincl].
      * cbn [map]. constructor; [|assumption].
        intros Hin. apply in_map_iff in Hin as (k & Hkid & Hk).
        apply (Hfresh k Hk). rewrite map_app, Hkid. apply in_or_app. right. now left.
      * intros k [<-|Hk]; [assumption|].
        intros Hin. apply (Hfresh k Hk). rewrite map_app. apply in_or_app. now left.
Qed.

(** The first job of a list that passes a test is the first job of the
    filtered list. *)
Lemma find_filter (p q : Job -> bool) (l : list Job) :
  find q (filter p l) = find (fun x => p x && q x) l.
Proof.
  induction l as [|x l IH]; [reflexivity|]. cbn [filter find].
  destruct (p x); cbn [find andb]; [|exact IH].
  destruct (q x); [reflexivity|exact IH].
Qed.

(** The job that the loop of the merge keeps of an id that the server
    list lacks is the first simulation job of that id. *)
Lemma fold_push_first (sims merged : list Job) (key : jsstring) (k : Job) :
  ~ In key (map id merged) ->
  find (fun p => str_eqb (id p) key) sims = Some k ->
  In k (fold_left App.pushIfAbsent sims merged).
Proof.
  revert merged. induction sims as [|s sims IH]; cbn [find fold_left]; intros merged Hid Hk;
    [discriminate Hk|].
  destruct (str_eqb (id s) key) eqn:E.
  - injection Hk as <-. apply str_eqb_eq in E.
    apply fold_push_keeps, pushIfAbsent_new. now rewrite E.
  - apply str_eqb_neq in E. apply IH; [|exact Hk].
    intros Hin. apply pushIfAbsent_ids in Hin as [Hin|Hin]; [contradiction|congruence].
Qed.

(** The loop of the merge leaves at most one job of an id that the server
    list lacks. *)
Lemma fold_push_unique (sims merged : list Job) (key : jsstring) (a b : Job) :
  ~ In key (map id merged) ->
  In a (fold_left App.pushIfAbsent sims merged) ->
  In b (fold_left App.pushIfAbsent sims merged) ->
  id a = key -> id b = key -> a = b.
Proof.
  intros Hid Ha Hb Hka Hkb.
  destruct (fold_push_shape sims merged) as (pushed & Heq & _ & Hnd & _).
  rewrite Heq in Ha, Hb.
  assert (Hin : forall x, In x (merged ++ pushed) -> id x = key -> In x pushed).
  { intros x Hx Hxk. apply in_app_or in Hx as [Hx|Hx]; [|exact Hx].
    exfalso. apply Hid. rewrite <- Hxk. now apply in_map. }
  apply Hin in Ha; [|exact Hka]. apply Hin in Hb; [|exact Hkb].
  clear - Hnd Ha Hb Hka Hkb. subst key.
  induction pushed as [|x pushed IH]; [contradiction|].
  cbn [map] in Hnd. inversion Hnd as [|? ? Hx Hnd']; subst.
  destruct Ha as [->|Ha], Hb as [->|Hb].
  - reflexivity.
  - exfalso. apply Hx. rewrite <- Hkb. now apply in_map.
  - exfalso. apply Hx. rewrite Hkb. now apply in_map.
  - now apply IH.
Qed.

(** C1, as the code has it. The reconciliation merge keeps one job for
    every id of a simulation job of the store that the server list does
    not name, and holds every server job. For a simulation job [j] of the
    store whose id is not in the server list: the merged store contains
    the first simulation job of the store with that id, and no other job
    of that id; so it contains [j] itself whenever the simulation jobs of
    the store have distinct ids; and every job of the server list is in
    the merged store, marked as not simulated. *)
Theorem reconcile_preserves_simulations
    (getTime : jsstring -> option Z) (data prev : list Job) (j : Job) :
  In j prev ->
  App.truthy (is_simulation j) = true ->
  ~ In (id j) (map id data) ->
  (exists k,
      find (fun p => App.truthy (is_simulation p) && str_eqb (id p) (id j)) prev = Some k
      /\ In k (App.reconcile getTime data prev) /\ In k prev
      /\ id k = id j /\ App.truthy (is_simulation k) = true
      /\ (forall k', In k' (App.reconcile getTime data prev) -> id k' = id j -> k' = k))
  /\ (NoDup (map id (filter (fun p => App.truthy (is_simulation p)) prev)) ->
      In j (App.reconcile getTime data prev))
  /\ (forall s, In s data -> In (App.fromServer s) (App.reconcile getTime data prev)).
Proof.
  intros Hin Hsim Hid.
  assert (Hj : In j (filter (fun p => App.truthy (is_simulation p)) prev))
    by (apply filter_In; now split).
  assert (Hid' : ~ In (id j) (map id (map App.fromServer data)))
    by now rewrite ids_fromServer.
  unfold App.reconcile. split; [|split].
  - destruct (find (fun p => str_eqb (id p) (id j))
                   (filter (fun p => App.truthy (is_simulation p)) prev)) as [k|] eqn:Ek.
    + pose proof Ek as Hfirst. rewrite find_filter in Hfirst.
      pose proof (fold_push_first _ _ _ _ Hid' Ek) as Hk.
      apply find_some in Ek as [Hks Hkid].
      apply filter_In in Hks as [Hkp Hksim]. apply str_eqb_eq in Hkid.
      exists k. split; [exact Hfirst|]. split; [now apply in_sort|].
      split; [exact Hkp|]. split; [exact Hkid|]. split; [exact Hksim|].
      intros k' Hk' Hk'id. apply in_sort in Hk'.
      exact (fold_push_unique _ _ _ _ _ Hid' Hk' Hk Hk'id Hkid).
    + exfalso. pose proof (find_none _ _ Ek j Hj) as E. cbv beta in E.
      now rewrite str_eqb_refl in E.
  - intros Hnd. apply in_sort. now apply fold_push_self.
  - intros s Hs. apply in_sort, fold_push_keeps. now apply in_map.
Qed.

Lemma reconcile_preserves_simulations_witness :
  let prev := [Sample.simJob "sim-1" "2026-11-03T04:51:00.000Z";
               Sample.serverJob "a" "2026-11-03T04:00:00.000Z"] in
  let data := [Sample.serverJob "a" "2026-11-03T04:00:00.000Z";
               Sample.serverJob "b" "2026-11-03T05:00:00.000Z"] in
  let j := Sample.simJob "sim-1" "2026-11-03T04:51:00.000Z" in
  In j (App.reconcile Sample.isoTime data prev)
  /\ (forall s, In s data -> In (App.fromServer s) (App.reconcile Sample.isoTime data prev)).
Proof.
  intros prev data j.
  destruct (reconcile_preserves_simulations Sample.isoTime data prev j)
    as (_ & Hself & Hserver).
  - simpl. left. reflexivity.
  - reflexivity.
  - vm_compute. intros [H|[H|[]]]; discriminate H.
  - split; [|exact Hserver]. apply Hself.
    vm_compute. constructor; [intros []|constructor].
Defined.

(** C1 as the specification words it, for every store state, fails on a
    store that two creations with the same random suffix leave: both
    jobs are simulations with the id [sim-k3x9qa], which the empty server
    list does not name, and the merge keeps the newer one only. *)
Lemma reconcile_drops_duplicate_simulation :
  let env := Sample.env "k3x9qa" "2026-11-03T04:51:00.000Z" in
  let offline := run (App.fetchJobsList Sample.isoTime (Thrown (Error (js "Failed to fetch"))))
                     App.initial in
  let create (goal : string) := App.Create env (js goal) None None None
                                    (Returned (js "never sent")) (Returned []) in
  let w := run (App.perform Sample.isoTime (create "two"%string))
               (run (App.perform Sample.isoTime (create "one"%string)) offline) in
  App.reachable Sample.isoTime w
  /\ map task (App.jobs w) = [js "two"; js "one"]
  /\ map id (App.jobs w) = [js "sim-k3x9qa"; js "sim-k3x9qa"]
  /\ map is_simulation (App.jobs w) = [Some true; Some true]
  /\ map task (App.reconcile Sample.isoTime [] (App.jobs w)) = [js "two"].
Proof.
  intros env offline create w. split.
  - apply (@App.reach_step Sample.isoTime _ (create "two"%string)).
    apply (@App.reach_step Sample.isoTime _ (create "one"%string)).
    apply (@App.reach_step Sample.isoTime _
             (App.Poll (Thrown (Error (js "Failed to fetch"))))).
    apply (@App.reach_initial Sample.isoTime).
  - vm_compute. repeat split.
Qed.

(* ================================================================== *)
(** * Polling, deletion and late callbacks *)
(* ================================================================== *)

(** C7. A poll whose fetch fails sets the online flag to false and leaves
    the jobs (and the selection) as they were; a poll whose fetch
    succeeds sets the flag to true; in both cases [fetchJobsList] returns
    normally. *)
Theorem fetchJobsList_flag
    (getTime : jsstring -> option Z) (w : App.World) :
  (forall e : Exn,
      let w' := run (App.fetchJobsList getTime (Thrown e)) w in
      App.isBackendOnline w' = false
      /\ App.jobs w' = App.jobs w
      /\ App.activeJobId w' = App.activeJobId w
      /\ result (App.fetchJobsList getTime (Thrown e)) w = Returned tt)
  /\ (forall data : list Job,
      let w' := run (App.fetchJobsList getTime (Returned data)) w in
      App.isBackendOnline w' = true
      /\ App.jobs w' = App.reconcile getTime data (App.jobs w)
      /\ result (App.fetchJobsList getTime (Returned data)) w = Returned tt).
Proof.
  split; intros; repeat split; reflexivity.
Qed.

Lemma map_untouched (f : Job -> Job) (key : jsstring) (l : list Job) :
  ~ In key (map id l) ->
  map (fun j => if str_eqb (id j) key then f j else j) l = l.
Proof.
  induction l as [|y l IH]; simpl; intros H; [reflexivity|].
  destruct (str_eqb (id y) key) eqn:E.
  - apply str_eqb_eq in E. exfalso. apply H. now left.
  - f_equal. apply IH. intros Hin. apply H. now right.
Qed.

Lemma filter_drops_id (key : jsstring) (l : list Job) :
  ~ In key (map id (filter (fun j => negb (str_eqb (id j) key)) l)).
Proof.
  intros H. apply in_map_iff in H as (x & Hx & Hin).
  apply filter_In in Hin as [_ Hneq].
  rewrite <- Hx, str_eqb_refl in Hneq. discriminate.
Qed.

Lemma deliver_absent (mockId : jsstring) (e : geminiService.Event) (w : App.World) :
  ~ In mockId (map id (App.jobs w)) ->
  App.deliver mockId e w = (Returned tt, w).
Proof.
  intros H. destruct w as [js0 a m o r]; simpl in H.
  destruct e; try reflexivity;
    unfold App.deliver, App.onLog, App.onComplete, App.setJobs, modify;
    simpl App.jobs; rewrite (map_untouched _ _ _ H); reflexivity.
Qed.

Lemma deliver_all_absent (mockId : jsstring) (events : list geminiService.Event)
    (w : App.World) :
  ~ In mockId (map id (App.jobs w)) ->
  for_of events (App.deliver mockId) w = (Returned tt, w).
Proof.
  intros H. induction events as [|e events IH]; [reflexivity|].
  simpl. unfold bind. rewrite (deliver_absent _ e _ H). exact IH.
Qed.

Lemma handleDeleteJob_jobs (jobId : jsstring) (w : App.World) :
  App.jobs (run (App.handleDeleteJob jobId true) w)
  = filter (fun j => negb (str_eqb (id j) jobId)) (App.jobs w).
Proof.
  destruct w as [l [a|] m o r]; step_eff; [destruct (str_eqb a jobId)|]; reflexivity.
Qed.

Lemma handleDeleteJob_gone (jobId : jsstring) (w : App.World) :
  ~ In jobId (map id (App.jobs (run (App.handleDeleteJob jobId true) w))).
Proof. rewrite handleDeleteJob_jobs. apply filter_drops_id. Qed.

(** C8. A deletion that the user confirms removes every job of that id
    from the store, keeps the other jobs in their order, and clears the
    selection exactly when the deleted job was the selected one. Callbacks
    of the simulation engine that arrive for an id the store does not
    hold leave the whole state as it is; in particular those that arrive
    for the deleted id after the deletion do not bring the job back. *)
Theorem handleDeleteJob_final (jobId : jsstring) (w : App.World) :
  let w' := run (App.handleDeleteJob jobId true) w in
  App.jobs w' = filter (fun j => negb (str_eqb (id j) jobId)) (App.jobs w)
  /\ ~ In jobId (map id (App.jobs w'))
  /\ App.activeJobId w'
     = match App.activeJobId w with
       | Some a => if str_eqb a jobId then None else Some a
       | None => None
       end
  /\ (forall late : list geminiService.Event,
        run (for_of late (App.deliver jobId)) w' = w')
  /\ (forall (v : App.World) (mockId : jsstring) (late : list geminiService.Event),
        ~ In mockId (map id (App.jobs v)) ->
        run (for_of late (App.deliver mockId)) v = v).
Proof.
  pose proof (handleDeleteJob_jobs jobId w) as Hjobs.
  pose proof (handleDeleteJob_gone jobId w) as Hgone.
  cbv zeta. split; [exact Hjobs|]. split; [exact Hgone|]. split; [|split].
  - destruct w as [l [a|] m o r]; step_eff; [destruct (str_eqb a jobId)|]; reflexivity.
  - intros late. unfold run at 1. now rewrite deliver_all_absent.
  - intros v mockId late H. unfold run. now rewrite deliver_all_absent.
Qed.

Lemma handleDeleteJob_final_witness :
  let w := run (App.fetchJobsList Sample.isoTime
                  (Returned [Sample.serverJob "a" "2026-11-03T04:00:00.000Z"]))
               App.initial in
  let late := [geminiService.OnLogUpdate (mkLog (js "10:00:01") (js "late") (ty "info"));
               geminiService.OnCompletion (VArr [])] in
  ~ In (js "sim-1") (map id (App.jobs w))
  /\ run (for_of late (App.deliver (js "sim-1"))) w = w.
Proof.
  intros w late.
  assert (H : ~ In (js "sim-1") (map id (App.jobs w))).
  { vm_compute. intros [H|[]]. discriminate H. }
  split; [exact H|].
  apply (handleDeleteJob_final (js "a") App.initial). exact H.
Defined.

(** A deletion that the user declines changes nothing. *)
Remark handleDeleteJob_declined (jobId : jsstring) (w : App.World) :
  run (App.handleDeleteJob jobId false) w = w.
Proof. reflexivity. Qed.

(* ================================================================== *)
(** * Creating a job while the backend is offline *)
(* ================================================================== *)

Lemma id_appendLog (log : LogEntry) (j : Job) : id (App.appendLog log j) = id j.
Proof. reflexivity. Qed.

Lemma newSimulationJob_fields (env : App.Surroundings) (goal : jsstring)
    (repo persona : option jsstring) (useSearch : option bool) :
  let j := App.newSimulationJob env goal repo persona useSearch in
  id j = js "sim-" ++ App.randomSuffix env
  /\ task j = goal
  /\ is_simulation j = Some true
  /\ status j = running
  /\ files j = VArr []
  /\ logs j = js "[" ++ App.localeNow env ++ js "] " ++ App.fallbackNotice ++ [10%N].
Proof. repeat split. Qed.

Lemma appendLog_fields (log : LogEntry) (j : Job) :
  id (App.appendLog log j) = id j
  /\ task (App.appendLog log j) = task j
  /\ is_simulation (App.appendLog log j) = is_simulation j
  /\ status (App.appendLog log j) = status j
  /\ files (App.appendLog log j) = files j
  /\ created_at (App.appendLog log j) = created_at j
  /\ logs (App.appendLog log j)
     = logs j ++ js "[" ++ timestamp log ++ js "] " ++ message log ++ [10%N].
Proof. repeat split. Qed.

Lemma app_assoc5 (a b c d e more : jsstring) :
  (a ++ b ++ c ++ d ++ e) ++ more = a ++ b ++ c ++ d ++ e ++ more.
Proof. now rewrite <- !app_assoc. Qed.

Lemma announce_callbacks (clock : nat -> jsstring) :
  geminiService.callbacks (run (geminiService.announceFallback clock) geminiService.start)
  = [geminiService.OnLogUpdate (mkLog (clock 0) geminiService.systemNotice (ty "process"))].
Proof. reflexivity. Qed.

(** The fallback branch of [handleCreateJob], run from an offline state. *)
Lemma handleCreateJob_offline_run
    (getTime : jsstring -> option Z) (env : App.Surroundings) (goal : jsstring)
    (repo persona : option jsstring) (useSearch : option bool)
    (createReply : outcome jsstring) (listReply : outcome (list Job))
    (w : App.World) :
  App.isBackendOnline w = false ->
  App.handleCreateJob getTime env goal repo persona useSearch createReply listReply w
  = let new := App.newSimulationJob env goal repo persona useSearch in
    let first := mkLog (App.engineClock env 0) geminiService.systemNotice (ty "process") in
    (Returned tt,
     App.mkWorld
       (map (fun j => if str_eqb (id j) (id new) then App.appendLog first j else j)
            (new :: App.jobs w))
       (Some (id new)) false false (App.requests w)).
Proof.
  intros Hoff. destruct w as [l a m o r]. simpl in Hoff. subst o.
  unfold App.handleCreateJob. rewrite announce_callbacks.
  step_eff. reflexivity.
Qed.

(** C4. With the online flag false, [handleCreateJob] sends nothing to the
    backend and returns normally. The store then begins with a new job:
    its id is [sim-] and the random suffix, it is a simulation, its status
    is [running], its files are empty, and its log begins with the
    fallback line of the handler (the announcement of the engine, which
    starts at once, follows it). That job is the selected one, and the
    jobs that were there follow it in their order. *)
Theorem handleCreateJob_offline
    (getTime : jsstring -> option Z) (env : App.Surroundings) (goal : jsstring)
    (repo persona : option jsstring) (useSearch : option bool)
    (createReply : outcome jsstring) (listReply : outcome (list Job))
    (w : App.World) :
  App.isBackendOnline w = false ->
  let create := App.handleCreateJob getTime env goal repo persona useSearch
                                    createReply listReply in
  let w' := run create w in
  result create w = Returned tt
  /\ App.requests w' = App.requests w
  /\ exists (j : Job) (rest : list Job) (more : jsstring),
       App.jobs w' = j :: rest
       /\ map id rest = map id (App.jobs w)
       /\ id j = js "sim-" ++ App.randomSuffix env
       /\ task j = goal
       /\ is_simulation j = Some true
       /\ status j = running
       /\ files j = VArr []
       /\ logs j = js "[" ++ App.localeNow env ++ js "] " ++ App.fallbackNotice
                   ++ [10%N] ++ more
       /\ App.activeJobId w' = Some (id j)
       /\ App.activeJob w' = Some j.
Proof.
  intros Hoff create w'. subst w' create. unfold run, result.
  rewrite (handleCreateJob_offline_run getTime env goal repo persona useSearch
             createReply listReply w Hoff).
  cbv zeta. cbn [fst snd App.requests App.jobs App.activeJobId].
  split; [reflexivity|]. split; [reflexivity|].
  destruct (newSimulationJob_fields env goal repo persona useSearch)
    as (Hid & Htask & Hsim & Hstatus & Hfiles & Hlogs).
  set (new := App.newSimulationJob env goal repo persona useSearch) in *.
  clearbody new.
  set (first := mkLog (App.engineClock env 0) geminiService.systemNotice (ty "process")).
  destruct (appendLog_fields first new) as (Aid & Atask & Asim & Astatus & Afiles & _ & Alogs).
  exists (App.appendLog first new),
         (map (fun j => if str_eqb (id j) (id new) then App.appendLog first j else j)
              (App.jobs w)),
         (js "[" ++ timestamp first ++ js "] " ++ message first ++ [10%N]).
  cbn [map]. rewrite (str_eqb_refl (id new)).
  split; [reflexivity|].
  split.
  { rewrite map_map. apply map_ext. intros j.
    destruct (str_eqb (id j) (id new)); [apply id_appendLog|reflexivity]. }
  split; [now rewrite Aid|]. split; [now rewrite Atask|]. split; [now rewrite Asim|].
  split; [now rewrite Astatus|]. split; [now rewrite Afiles|].
  split; [rewrite Alogs, Hlogs; apply app_assoc5|].
  split; [now rewrite Aid|].
  unfold App.activeJob. cbn [App.activeJobId App.jobs find].
  rewrite Aid, (str_eqb_refl (id new)). reflexivity.
Qed.

Lemma handleCreateJob_offline_witness :
  let w := run (App.fetchJobsList Sample.isoTime (Thrown (Error (js "Failed to fetch"))))
               App.initial in
  let create := App.handleCreateJob Sample.isoTime
                  (Sample.env "k3x9qa" "2026-11-03T04:51:00.000Z") (js "write docs")
                  None None None (Returned (js "never sent")) (Returned []) in
  App.requests (run create w) = [apiService.GET_jobs]
  /\ map id (App.jobs (run create w)) = [js "sim-k3x9qa"].
Proof.
  intros w create.
  destruct (handleCreateJob_offline Sample.isoTime
              (Sample.env "k3x9qa" "2026-11-03T04:51:00.000Z") (js "write docs")
              None None None (Returned (js "never sent")) (Returned []) w)
    as (_ & Hreq & j & rest & more & Hjobs & Hrest & Hid & _).
  - reflexivity.
  - split; [exact Hreq|].
    fold create in Hjobs. rewrite Hjobs. simpl map. rewrite Hid, Hrest. reflexivity.
Defined.

(* ================================================================== *)
(** * What the console asks of the backend *)
(* ================================================================== *)

(** Whatever happens, the console only ever lists and creates. *)
Lemma perform_requests (getTime : jsstring -> option Z) (a : App.Action) (w : App.World) :
  exists sent,
    App.requests (run (App.perform getTime a) w) = App.requests w ++ sent
    /\ Forall (fun r => apiService.deletes r = false) sent.
Proof.
  destruct w as [l act m o r].
  destruct a as [reply|env goal repo persona useSearch createReply listReply
                 |jobId confirmed|jobId]; cbn [App.perform].
  - destruct reply; [exists [apiService.GET_jobs]|exists [apiService.GET_jobs]];
      (split; [reflexivity|repeat constructor]).
  - destruct o.
    + destruct createReply as [job_id|e].
      * destruct listReply;
          exists [apiService.POST_jobs goal repo; apiService.GET_jobs];
          (split; [step_eff; now rewrite <- app_assoc|repeat constructor]).
      * exists [apiService.POST_jobs goal repo].
        split; [|repeat constructor].
        unfold App.handleCreateJob. rewrite announce_callbacks. reflexivity.
    + exists []. split; [|constructor].
      unfold run.
      rewrite (handleCreateJob_offline_run getTime env goal repo persona useSearch
                 createReply listReply (App.mkWorld l act m false r) eq_refl).
      cbn [snd App.requests]. now rewrite app_nil_r.
  - exists []. split; [|constructor]. rewrite app_nil_r.
    destruct confirmed; [|reflexivity].
    destruct act as [a|]; step_eff; [destruct (str_eqb a jobId)|]; reflexivity.
  - exists []. split; [|constructor]. now rewrite app_nil_r.
Qed.

Lemma reachable_requests (getTime : jsstring -> option Z) (w : App.World) :
  App.reachable getTime w -> Forall (fun r => apiService.deletes r = false) (App.requests w).
Proof.
  induction 1 as [|w a Hw IH]; [constructor|].
  destruct (perform_requests getTime a w) as (sent & -> & Hsent).
  apply Forall_app. now split.
Qed.

(** C10. Deleting a job sends no request to the backend, whatever the
    answer to the dialog, and no state the console can reach has sent a
    request that deletes; so a job of the server that is deleted locally
    is gone from the store, and is in the store again, as the server
    reports it, after the next poll that succeeds with that job in its
    list. *)
Theorem handleDeleteJob_local_only
    (getTime : jsstring -> option Z) (w : App.World) (data : list Job) (s : Job) :
  In s data ->
  (forall confirmed : bool,
      App.requests (run (App.handleDeleteJob (id s) confirmed) w) = App.requests w)
  /\ (forall v : App.World,
        App.reachable getTime v ->
        Forall (fun r => apiService.deletes r = false) (App.requests v))
  /\ (let w' := run (App.handleDeleteJob (id s) true) w in
      ~ In (id s) (map id (App.jobs w'))
      /\ In (App.fromServer s)
            (App.jobs (run (App.fetchJobsList getTime (Returned data)) w'))).
Proof.
  intros Hs. split; [|split].
  - intros [|]; [|reflexivity].
    destruct w as [l [a|] m o r]; step_eff; [destruct (str_eqb a (id s))|]; reflexivity.
  - apply reachable_requests.
  - cbv zeta. split.
    + apply (handleDeleteJob_gone (id s) w).
    + change (In (App.fromServer s)
                 (App.reconcile getTime data
                    (App.jobs (run (App.handleDeleteJob (id s) true) w)))).
      unfold App.reconcile. apply in_sort, fold_push_keeps. now apply in_map.
Qed.

Lemma handleDeleteJob_local_only_witness :
  let s := Sample.serverJob "a" "2026-11-03T04:00:00.000Z" in
  let w := run (App.fetchJobsList Sample.isoTime (Returned [s])) App.initial in
  let w' := run (App.handleDeleteJob (id s) true) w in
  App.requests w' = App.requests w
  /\ App.jobs w' = []
  /\ In (App.fromServer s)
        (App.jobs (run (App.fetchJobsList Sample.isoTime (Returned [s])) w')).
Proof.
  intros s w w'.
  destruct (handleDeleteJob_local_only Sample.isoTime w [s] s) as [Hreq [_ [_ Hback]]].
  - simpl. left. reflexivity.
  - split; [exact (Hreq true)|]. split; [reflexivity|exact Hback].
Defined.

(* ================================================================== *)
(** * The log formatter *)
(* ================================================================== *)

(** C6. The type of an entry is the one of the first rule of the
    specification's list that its message matches, [info] if none does;
    this holds of [classify] on every message and of the entry made from
    every line. A message that contains [[ERROR]] is an error whatever
    else it contains, [[SUCCESS]] included. *)
Theorem classify_first_match (toLowerCase : jsstring -> jsstring) :
  (forall message : jsstring,
      JobView.classify toLowerCase message
      = Spec.firstMatch (Spec.rules toLowerCase) message)
  /\ (forall line : jsstring,
        type_ (JobView.formatLine toLowerCase line)
        = Spec.firstMatch (Spec.rules toLowerCase)
                          (message (JobView.formatLine toLowerCase line)))
  /\ (forall message : jsstring,
        includes message (js "[ERROR]") = true ->
        includes message (js "[SUCCESS]") = true ->
        JobView.classify toLowerCase message = ty "error").
Proof.
  assert (H : forall message,
             JobView.classify toLowerCase message
             = Spec.firstMatch (Spec.rules toLowerCase) message).
  { intros message.
    unfold JobView.classify, Spec.rules, Spec.firstMatch, Spec.either, Spec.marker, Spec.word.
    repeat match goal with
           | |- (if ?c then _ else _) = (if ?c then _ else _) => destruct c
           end; reflexivity. }
  split; [exact H|]. split.
  - intros line. unfold JobView.formatLine. cbn [type_ message]. apply H.
  - intros message He _. unfold JobView.classify. now rewrite He.
Qed.

Lemma classify_first_match_witness :
  JobView.classify Sample.asciiLower (js "[SUCCESS] build ok, [ERROR] upload") = ty "error".
Proof.
  apply (classify_first_match Sample.asciiLower); reflexivity.
Defined.

(** ** The two patterns *)

Lemma rep_least (cont : jsstring -> option (list jsstring)) (lz : bool) (k : cls)
    (rest : jsstring) :
  forall n, (1 <= n)%nat -> rep cont lz 0 k n rest = rep cont lz 1 k n rest.
Proof.
  induction rest as [|c rest IH]; intros n Hn.
  - cbn [rep]. destruct n as [|n]; [lia|]. reflexivity.
  - cbn [rep]. rewrite (IH (S n)) by lia.
    destruct n as [|n]; [lia|]. reflexivity.
Qed.

Lemma exec_rep (cap lz : bool) (least : nat) (k : cls) (p : list item) (s : jsstring) :
  exec (Rep cap lz least k :: p) s
  = option_map (fun r => if cap then fst r :: snd r else snd r)
               (rep (exec p) lz least k 0 s).
Proof. reflexivity. Qed.

Lemma exec_one (k : cls) (p : list item) (c : N) (s : jsstring) :
  exec (One k :: p) (c :: s) = if in_cls k c then exec p s else None.
Proof. reflexivity. Qed.

(** The pattern of the code and the one of the specification capture the
    same on every line that does not begin with an empty pair of
    brackets. *)
Lemma patterns_agree (line : jsstring) :
  startsWith line (js "[]") = false ->
  exec JobView.tsRegex line = exec Spec.tsPattern line.
Proof.
  intros H. destruct line as [|c s]; [reflexivity|].
  unfold JobView.tsRegex, Spec.tsPattern. rewrite !exec_one.
  destruct (in_cls (Chr (chr "[")) c) eqn:Ec; [|reflexivity].
  rewrite !exec_rep. f_equal.
  assert (Hc : c = 91%N) by (apply N.eqb_eq; exact Ec). subst c.
  destruct s as [|c2 s'].
  - reflexivity.
  - assert (Hc2 : N.eqb c2 93 = false).
    { change (js "[]") with [91%N; 93%N] in H. cbn [startsWith] in H.
      rewrite N.eqb_refl in H. cbn [andb] in H.
      rewrite N.eqb_sym. destruct (N.eqb 93 c2); [discriminate H|reflexivity]. }
    cbn [rep Nat.ltb Nat.leb]. rewrite exec_one. cbn [in_cls].
    change (chr "]") with 93%N. rewrite Hc2. cbn [option_map or_else].
    rewrite rep_least by lia. reflexivity.
Qed.

(** ** Blank lines *)

Lemma drop_spaces_nil (s : jsstring) :
  drop_spaces s = [] <-> forallb is_space s = true.
Proof.
  induction s as [|c s IH]; simpl; [tauto|].
  destruct (is_space c); simpl; [exact IH|]. split; discriminate.
Qed.

Lemma drop_spaces_head (s : jsstring) :
  match drop_spaces s with
  | [] => True
  | c :: _ => is_space c = false
  end.
Proof.
  induction s as [|c s IH]; simpl; [exact I|].
  destruct (is_space c) eqn:E; [exact IH|exact E].
Qed.

Lemma forallb_rev (f : N -> bool) (s : jsstring) : forallb f (rev s) = forallb f s.
Proof.
  induction s as [|c s IH]; simpl; [reflexivity|].
  rewrite forallb_app, IH. simpl. rewrite andb_true_r. apply andb_comm.
Qed.

(** [l.trim()] is the empty string exactly when [l] holds nothing but
    white space and line terminators. *)
Lemma trim_blank (l : jsstring) : truthy_str (trim l) = negb (forallb is_space l).
Proof.
  unfold trim. destruct (forallb is_space l) eqn:E.
  - apply drop_spaces_nil in E. rewrite E. reflexivity.
  - pose proof (drop_spaces_head l) as Hh.
    destruct (drop_spaces l) as [|c m] eqn:Em.
    + apply drop_spaces_nil in Em. congruence.
    + assert (Hr : forallb is_space (rev (c :: m)) = false).
      { rewrite forallb_rev. simpl. now rewrite Hh. }
      destruct (drop_spaces (rev (c :: m))) as [|d n] eqn:En.
      * apply drop_spaces_nil in En. congruence.
      * simpl. destruct (rev n); reflexivity.
Qed.

(** ** The short form of a bracketed value *)

Lemma split_nonempty (c : N) (s : jsstring) : split c s <> [].
Proof.
  destruct s as [|x s]; simpl; [discriminate|].
  destruct (N.eqb x c); [discriminate|]. destruct (split c s); discriminate.
Qed.

Lemma hd_split (c : N) (s : jsstring) : hd [] (split c s) = upto (N.eqb c) s.
Proof.
  induction s as [|x s IH]; simpl; [reflexivity|].
  rewrite (N.eqb_sym c x). destruct (N.eqb x c); [reflexivity|].
  destruct (split c s) as [|h t] eqn:E.
  - now apply split_nonempty in E.
  - simpl in *. now rewrite IH.
Qed.

Lemma split_after (c : N) (d u : jsstring) :
  ~ In c d -> split c (d ++ c :: u) = d :: split c u.
Proof.
  induction d as [|x d IH]; intros H; simpl.
  - now rewrite N.eqb_refl.
  - destruct (N.eqb x c) eqn:E.
    + apply N.eqb_eq in E. exfalso. apply H. now left.
    + rewrite IH by (intros Hin; apply H; now right). reflexivity.
Qed.

Lemma includes_char (c : N) (s : jsstring) : includes s [c] = true <-> In c s.
Proof.
  induction s as [|x s IH]; simpl.
  - split; [discriminate|tauto].
  - rewrite orb_true_iff, IH, andb_true_r, N.eqb_eq. split; intros [H|H]; auto.
Qed.

Lemma upto_prefix (stop : N -> bool) (t rest : jsstring) :
  forallb (fun c => negb (stop c)) t = true ->
  match rest with
  | [] => True
  | c :: _ => stop c = true
  end ->
  upto stop (t ++ rest) = t.
Proof.
  induction t as [|x t IH]; simpl; intros Ht Hr.
  - destruct rest as [|c r]; [reflexivity|]. simpl. now rewrite Hr.
  - apply andb_true_iff in Ht as [Hx Ht]. apply negb_true_iff in Hx.
    rewrite Hx. f_equal. now apply IH.
Qed.

Lemma upto_all (stop : N -> bool) (t : jsstring) :
  forallb (fun c => negb (stop c)) t = true -> upto stop t = t.
Proof.
  intros H. rewrite <- (app_nil_r t) at 1. now apply upto_prefix.
Qed.

Lemma upto_upto (p q : N -> bool) (s : jsstring) :
  upto p (upto q s) = upto (fun c => q c || p c) s.
Proof.
  induction s as [|x s IH]; cbn [upto]; [reflexivity|].
  destruct (q x); cbn [upto orb]; [reflexivity|].
  destruct (p x); [reflexivity|]. now rewrite IH.
Qed.

(** What [shortTimestamp] keeps: the bracketed value itself when it has
    no [T]; otherwise what stands between the first [T] and the next [T]
    or the first dot after it. *)
Lemma shortTimestamp_char (g : jsstring) :
  (~ In (chr "T") g -> JobView.shortTimestamp g = g)
  /\ (forall d u, ~ In (chr "T") d -> g = d ++ chr "T" :: u ->
      JobView.shortTimestamp g
      = upto (fun c => N.eqb (chr "T") c || N.eqb (chr ".") c) u).
Proof.
  unfold JobView.shortTimestamp. change (js "T") with [chr "T"]. split.
  - intros H. destruct (includes g [chr "T"]) eqn:E; [|reflexivity].
    apply includes_char in E. contradiction.
  - intros d u Hd ->.
    assert (E : includes (d ++ chr "T" :: u) [chr "T"] = true).
    { apply includes_char, in_or_app. right. now left. }
    rewrite E, split_after by assumption. cbn [nth].
    assert (Hn : forall l, nth 0 l [] = hd ([] : jsstring) l) by (intros [|? ?]; reflexivity).
    rewrite Hn, !hd_split. apply upto_upto.
Qed.

(** ** What the pattern of the code matches *)

Lemma ltb_0 (n : nat) : Nat.ltb n 0 = false.
Proof. apply Nat.ltb_ge. lia. Qed.

(** A greedy [.*] at the end of the pattern takes a rest that has no
    line terminator, whole. *)
Lemma rep_dot_end (g2 : jsstring) :
  forallb (fun c => negb (is_line_terminator c)) g2 = true ->
  forall n, rep (exec []) false 0 Dot n g2 = Some (g2, []).
Proof.
  induction g2 as [|c g2 IH]; intros H n; cbn [rep]; rewrite ltb_0.
  - reflexivity.
  - cbn [forallb] in H. apply andb_true_iff in H as [Hc H].
    cbn [in_cls]. rewrite Hc, (IH H). reflexivity.
Qed.

(** A greedy [\s*] takes the white space in front, all of it, when what
    follows does not start with white space. *)
Lemma rep_space (ws g2 : jsstring) :
  forallb is_space ws = true ->
  forallb (fun c => negb (is_line_terminator c)) g2 = true ->
  match g2 with [] => True | c :: _ => is_space c = false end ->
  forall n, rep (exec [Rep true false 0 Dot]) false 0 WhiteSp n (ws ++ g2)
            = Some (ws, [g2]).
Proof.
  intros Hws Hg2 Hhd.
  assert (Hend : exec [Rep true false 0 Dot] g2 = Some [g2]).
  { rewrite exec_rep, (rep_dot_end _ Hg2). reflexivity. }
  induction ws as [|c ws IH]; intros n.
  - cbn [app]. destruct g2 as [|c g2'].
    + cbn [rep]. rewrite ltb_0. reflexivity.
    + cbn [rep]. rewrite ltb_0. cbn [in_cls]. rewrite Hhd, Hend. reflexivity.
  - cbn [forallb] in Hws. apply andb_true_iff in Hws as [Hc Hws].
    cbn [app rep]. cbn [in_cls]. rewrite Hc, (IH Hws). reflexivity.
Qed.

(** The lazy group stops at the first closing bracket after which the
    rest of the pattern matches. *)
Lemma rep_lazy_bracket (g1 ws g2 : jsstring) :
  forallb (fun c => negb (is_line_terminator c) && negb (N.eqb c (chr "]"))) g1 = true ->
  forallb is_space ws = true ->
  forallb (fun c => negb (is_line_terminator c)) g2 = true ->
  match g2 with [] => True | c :: _ => is_space c = false end ->
  forall n,
    rep (exec [One (Chr (chr "]")); Rep false false 0 WhiteSp; Rep true false 0 Dot])
        true 0 Dot n (g1 ++ chr "]" :: ws ++ g2)
    = Some (g1, [g2]).
Proof.
  intros Hg1 Hws Hg2 Hhd.
  assert (Htail : exec [Rep false false 0 WhiteSp; Rep true false 0 Dot] (ws ++ g2)
                  = Some [g2]).
  { rewrite exec_rep, (rep_space _ _ Hws Hg2 Hhd). reflexivity. }
  induction g1 as [|c g1 IH]; intros n.
  - cbn [app rep]. rewrite ltb_0, exec_one. cbn [in_cls].
    rewrite N.eqb_refl, Htail. reflexivity.
  - cbn [forallb] in Hg1. apply andb_true_iff in Hg1 as [Hc Hg1].
    apply andb_true_iff in Hc as [Hterm Hbr].
    apply negb_true_iff in Hbr.
    cbn [app rep]. rewrite ltb_0, exec_one. cbn [in_cls].
    rewrite Hbr, Hterm, (IH Hg1). reflexivity.
Qed.

(** A line made of a bracketed value without closing bracket or line
    terminator, white space, and a rest without line terminator that
    does not start with white space, is split into that value and that
    rest. The value may be empty. *)
Lemma tsMatch_bracketed (g1 ws g2 : jsstring) :
  forallb (fun c => negb (is_line_terminator c) && negb (N.eqb c (chr "]"))) g1 = true ->
  forallb is_space ws = true ->
  forallb (fun c => negb (is_line_terminator c)) g2 = true ->
  match g2 with [] => True | c :: _ => is_space c = false end ->
  JobView.tsMatch (chr "[" :: g1 ++ chr "]" :: ws ++ g2) = Some (g1, g2).
Proof.
  intros Hg1 Hws Hg2 Hhd. unfold JobView.tsMatch, JobView.tsRegex.
  rewrite exec_one. cbn [in_cls]. rewrite N.eqb_refl.
  rewrite exec_rep, (rep_lazy_bracket _ _ _ Hg1 Hws Hg2 Hhd). reflexivity.
Qed.

(** A line that does not start with an opening bracket is not split. *)
Lemma tsMatch_unbracketed (line : jsstring) :
  startsWith line (js "[") = false -> JobView.tsMatch line = None.
Proof.
  intros H. unfold JobView.tsMatch, JobView.tsRegex.
  destruct line as [|c s]; [reflexivity|].
  rewrite exec_one. cbn [in_cls].
  change (js "[") with [chr "["] in H. cbn [startsWith] in H.
  rewrite andb_true_r, N.eqb_sym in H. now rewrite H.
Qed.

(** ** Every line *)

Lemma rep_dot_all (s : jsstring) :
  forall n, rep (exec []) false 0 Dot n s
            = if forallb (fun c => negb (is_line_terminator c)) s then Some (s, []) else None.
Proof.
  induction s as [|c s IH]; intros n; cbn [rep forallb]; rewrite ltb_0; [reflexivity|].
  cbn [in_cls]. destruct (negb (is_line_terminator c)); cbn [andb]; [|reflexivity].
  rewrite IH. now destruct (forallb (fun c => negb (is_line_terminator c)) s).
Qed.

Lemma exec_dot_all (s : jsstring) :
  exec [Rep true false 0 Dot] s
  = if forallb (fun c => negb (is_line_terminator c)) s then Some [s] else None.
Proof.
  rewrite exec_rep, rep_dot_all.
  now destruct (forallb (fun c => negb (is_line_terminator c)) s).
Qed.

Lemma drop_spaces_keeps (s : jsstring) :
  forallb (fun c => negb (is_line_terminator c)) s = true ->
  forallb (fun c => negb (is_line_terminator c)) (drop_spaces s) = true.
Proof.
  induction s as [|c s IH]; intros H; [reflexivity|]. cbn [drop_spaces].
  destruct (is_space c); [|exact H].
  cbn [forallb] in H. apply andb_true_iff in H as [_ H]. now apply IH.
Qed.

Lemma spaces_split (r : jsstring) :
  exists ws, r = ws ++ drop_spaces r /\ forallb is_space ws = true.
Proof.
  induction r as [|c r (ws & Hr & Hws)]; [now exists []|]. cbn [drop_spaces].
  destruct (is_space c) eqn:E; [|now exists []].
  exists (c :: ws). cbn [app forallb]. rewrite E, Hws. split; [now f_equal|reflexivity].
Qed.

(** The greedy [\s*] followed by the greedy [.*] and the end of the line:
    the white space in front is skipped, and what follows must be free of
    line terminators. *)
Lemma rep_space_all (r : jsstring) :
  forall n,
    option_map snd (rep (exec [Rep true false 0 Dot]) false 0 WhiteSp n r)
    = if forallb (fun c => negb (is_line_terminator c)) (drop_spaces r)
      then Some [drop_spaces r] else None.
Proof.
  induction r as [|c r IH]; intros n.
  - cbn [rep]. rewrite ltb_0. reflexivity.
  - cbn [rep drop_spaces]. rewrite ltb_0. cbn [in_cls].
    destruct (is_space c) eqn:E.
    + specialize (IH (S n)).
      destruct (rep (exec [Rep true false 0 Dot]) false 0 WhiteSp (S n) r) as [[w gs]|].
      * exact IH.
      * cbn [option_map or_else] in IH |- *.
        destruct (forallb (fun c => negb (is_line_terminator c)) (drop_spaces r)) eqn:Ed;
          [discriminate IH|].
        rewrite exec_dot_all.
        destruct (forallb (fun c => negb (is_line_terminator c)) (c :: r)) eqn:Ec;
          [|reflexivity].
        cbn [forallb] in Ec. apply andb_true_iff in Ec as [_ Ec].
        apply drop_spaces_keeps in Ec. congruence.
    + cbn [or_else]. rewrite exec_dot_all.
      now destruct (forallb (fun c => negb (is_line_terminator c)) (c :: r)).
Qed.

(** What follows the bracketed value when the rest of the pattern
    matches. *)
Lemma after_value (q : jsstring) (gs : list jsstring) :
  exec [One (Chr (chr "]")); Rep false false 0 WhiteSp; Rep true false 0 Dot] q = Some gs ->
  exists ws g2,
    gs = [g2] /\ q = chr "]" :: ws ++ g2
    /\ forallb is_space ws = true
    /\ forallb (fun c => negb (is_line_terminator c)) g2 = true
    /\ match g2 with [] => True | c :: _ => is_space c = false end.
Proof.
  destruct q as [|c r]; [discriminate|]. rewrite exec_one. cbn [in_cls].
  destruct (N.eqb c (chr "]")) eqn:Ec; [|discriminate]. apply N.eqb_eq in Ec. subst c.
  rewrite exec_rep. cbv beta iota.
  change (option_map (fun r0 : jsstring * list jsstring => snd r0))
    with (@option_map (jsstring * list jsstring) _ snd).
  rewrite rep_space_all.
  destruct (forallb (fun c => negb (is_line_terminator c)) (drop_spaces r)) eqn:Ed;
    [|discriminate].
  intros H. injection H as <-.
  destruct (spaces_split r) as (ws & Hr & Hws).
  exists ws, (drop_spaces r). repeat split; try assumption.
  - now rewrite <- Hr.
  - apply drop_spaces_head.
Qed.

Lemma before_value (ws g2 : jsstring) :
  forallb is_space ws = true ->
  forallb (fun c => negb (is_line_terminator c)) g2 = true ->
  match g2 with [] => True | c :: _ => is_space c = false end ->
  exec [One (Chr (chr "]")); Rep false false 0 WhiteSp; Rep true false 0 Dot]
       (chr "]" :: ws ++ g2) = Some [g2].
Proof.
  intros Hws Hg2 Hhd. rewrite exec_one. cbn [in_cls]. rewrite N.eqb_refl.
  rewrite exec_rep, (rep_space _ _ Hws Hg2 Hhd). reflexivity.
Qed.

Section Lazy.

Variable cont : jsstring -> option (list jsstring).

(** A lazy [.*?] stops at the first place where the rest of the pattern
    matches. *)
Lemma rep_lazy_first (s : jsstring) :
  forall n g1 gs,
    rep cont true 0 Dot n s = Some (g1, gs) ->
    exists r,
      s = g1 ++ r
      /\ forallb (fun c => negb (is_line_terminator c)) g1 = true
      /\ cont r = Some gs
      /\ (forall p q, s = p ++ q -> (List.length p < List.length g1)%nat -> cont q = None).
Proof.
  induction s as [|c s IH]; intros n g1 gs H; cbn [rep] in H; rewrite ltb_0 in H.
  - destruct (cont []) as [l|] eqn:E; [|discriminate H].
    injection H as <- <-. exists []. repeat split; [exact E|].
    intros p q _ Hp. cbn [List.length] in Hp. lia.
  - destruct (cont (c :: s)) as [l|] eqn:E.
    + injection H as <- <-. exists (c :: s). repeat split; [exact E|].
      intros p q _ Hp. cbn [List.length] in Hp. lia.
    + cbn [option_map or_else in_cls] in H.
      destruct (negb (is_line_terminator c)) eqn:Ec; [|discriminate H].
      destruct (rep cont true 0 Dot (S n) s) as [[w l]|] eqn:Er; [|discriminate H].
      injection H as <- <-.
      destruct (IH _ _ _ Er) as (r & Hs & Hw & Hr & Hmin).
      exists r. cbn [app forallb fst snd]. rewrite Ec, Hw.
      split; [now f_equal|]. split; [reflexivity|]. split; [exact Hr|].
      intros p q Hpq Hp. destruct p as [|x p].
      * cbn [app] in Hpq. now subst q.
      * cbn [app] in Hpq. injection Hpq as _ Hpq.
        apply (Hmin p q Hpq). cbn [List.length] in Hp. lia.
Qed.

Lemma rep_lazy_nowhere (s : jsstring) :
  forall n,
    rep cont true 0 Dot n s = None ->
    forall p q, s = p ++ q ->
                forallb (fun c => negb (is_line_terminator c)) p = true -> cont q = None.
Proof.
  induction s as [|c s IH]; intros n H p q Hpq Hp; cbn [rep] in H; rewrite ltb_0 in H.
  - destruct p; [|discriminate Hpq]. cbn [app] in Hpq. subst q.
    destruct (cont []); [discriminate H|reflexivity].
  - destruct (cont (c :: s)) as [l|] eqn:E; [discriminate H|].
    destruct p as [|x p]; [cbn [app] in Hpq; now subst q|].
    cbn [app] in Hpq. injection Hpq as <- Hpq.
    cbn [forallb] in Hp. apply andb_true_iff in Hp as [Hx Hp].
    cbn [option_map or_else in_cls] in H. rewrite Hx in H.
    destruct (rep cont true 0 Dot (S n) s) as [[w l]|] eqn:Er; [discriminate H|].
    exact (IH _ Er p q Hpq Hp).
Qed.

End Lazy.

(** The pattern of the code, read on any line: it splits the line at the
    first closing bracket after which only white space and a rest without
    line terminator follow, and fails when there is no such bracket. *)
Lemma tsMatch_some (line g1 g2 : jsstring) :
  JobView.tsMatch line = Some (g1, g2) ->
  exec JobView.tsRegex line = Some [g1; g2]
  /\ Spec.bracketed line g1 g2
  /\ (forall h1 h2, Spec.bracketed line h1 h2 -> (List.length g1 <= List.length h1)%nat).
Proof.
  unfold JobView.tsMatch, JobView.tsRegex.
  destruct line as [|c s]; [discriminate|]. rewrite exec_one. cbn [in_cls].
  destruct (N.eqb c (chr "[")) eqn:Ec; [|discriminate]. apply N.eqb_eq in Ec. subst c.
  rewrite exec_rep.
  destruct (rep (exec [One (Chr (chr "]")); Rep false false 0 WhiteSp; Rep true false 0 Dot])
                true 0 Dot 0 s) as [[w gs]|] eqn:Er; [|discriminate].
  destruct (rep_lazy_first _ _ _ _ _ Er) as (r & Hs & Hw & Hr & Hmin).
  destruct (after_value _ _ Hr) as (ws & g & -> & -> & Hws & Hg & Hhd).
  cbn [option_map fst snd]. intros H. injection H as <- <-.
  split; [reflexivity|]. split.
  - exists ws. rewrite Hs. repeat split; assumption.
  - intros h1 h2 (ws' & Hline & Hh1 & Hws' & Hh2 & Hhd').
    destruct (Nat.le_gt_cases (List.length w) (List.length h1)) as [Hle|Hlt]; [exact Hle|].
    injection Hline as Hline.
    pose proof (before_value ws' h2 Hws' Hh2 Hhd') as Hb.
    rewrite (Hmin h1 (chr "]" :: ws' ++ h2) Hline Hlt) in Hb. discriminate Hb.
Qed.

Lemma tsMatch_none (line : jsstring) :
  JobView.tsMatch line = None ->
  exec JobView.tsRegex line = None
  /\ forall g1 g2, ~ Spec.bracketed line g1 g2.
Proof.
  unfold JobView.tsMatch, JobView.tsRegex.
  destruct line as [|c s].
  - intros _. split; [reflexivity|]. intros g1 g2 (ws & Hline & _). discriminate Hline.
  - rewrite exec_one. cbn [in_cls].
    destruct (N.eqb c (chr "[")) eqn:Ec.
    + apply N.eqb_eq in Ec. subst c. rewrite exec_rep.
      destruct (rep (exec [One (Chr (chr "]")); Rep false false 0 WhiteSp;
                           Rep true false 0 Dot]) true 0 Dot 0 s) as [[w gs]|] eqn:Er.
      * destruct (rep_lazy_first _ _ _ _ _ Er) as (r & _ & _ & Hr & _).
        destruct (after_value _ _ Hr) as (ws & g & -> & _). discriminate.
      * intros _. split; [reflexivity|].
        intros g1 g2 (ws & Hline & Hg1 & Hws & Hg2 & Hhd). injection Hline as Hline.
        pose proof (rep_lazy_nowhere _ _ _ Er g1 _ Hline Hg1) as Hn.
        rewrite (before_value ws g2 Hws Hg2 Hhd) in Hn. discriminate Hn.
    + intros _. split; [reflexivity|].
      intros g1 g2 (ws & Hline & _). injection Hline as Hc _.
      subst c. now rewrite N.eqb_refl in Ec.
Qed.

(** C5, as the code has it. The entries are the images, in order, of the
    lines that hold more than white space. Every line is decided by the
    pattern of the code, which lets the bracketed value be empty. Either
    the pattern matches: the line is an opening bracket, a value without
    line terminator, a closing bracket, white space and a rest without
    line terminator, the value being the shortest for which the line
    reads so; then the timestamp is the short form of the value and the
    message is the rest. Or the pattern does not match, the line does not
    read so for any value, the timestamp is empty and the message is the
    line. On every line that does not begin with an empty pair of
    brackets the pattern of the specification decides the same. The short
    form of a value without [T] is the value; the short form of a date, a
    [T], a time, and a rest that is empty or starts with a dot or a [T],
    is the time. A line that begins with an empty pair of brackets
    followed by white space and a rest without line terminator has an
    empty timestamp and that rest as message. *)
Theorem formattedLogs_entries (toLowerCase : jsstring -> jsstring) :
  (forall logs : jsstring,
      JobView.formattedLogs toLowerCase logs
      = map (JobView.formatLine toLowerCase)
            (filter (fun l => negb (forallb is_space l)) (split 10 logs)))
  /\ (forall line : jsstring,
        startsWith line (js "[]") = false ->
        (forall g1 g2, exec Spec.tsPattern line = Some [g1; g2] ->
            timestamp (JobView.formatLine toLowerCase line) = JobView.shortTimestamp g1
            /\ message (JobView.formatLine toLowerCase line) = g2)
        /\ (exec Spec.tsPattern line = None ->
            timestamp (JobView.formatLine toLowerCase line) = []
            /\ message (JobView.formatLine toLowerCase line) = line))
  /\ (forall g : jsstring, ~ In (chr "T") g -> JobView.shortTimestamp g = g)
  /\ (forall date time rest : jsstring,
        ~ In (chr "T") date ->
        forallb (fun c => negb (N.eqb (chr "T") c || N.eqb (chr ".") c)) time = true ->
        match rest with
        | [] => True
        | c :: _ => N.eqb (chr "T") c || N.eqb (chr ".") c = true
        end ->
        JobView.shortTimestamp (date ++ chr "T" :: time ++ rest) = time)
  /\ (forall ws g2 : jsstring,
        forallb is_space ws = true ->
        forallb (fun c => negb (is_line_terminator c)) g2 = true ->
        match g2 with [] => True | c :: _ => is_space c = false end ->
        timestamp (JobView.formatLine toLowerCase (js "[]" ++ ws ++ g2)) = []
        /\ message (JobView.formatLine toLowerCase (js "[]" ++ ws ++ g2)) = g2)
  /\ (forall line : jsstring,
        (exists g1 g2,
            exec JobView.tsRegex line = Some [g1; g2]
            /\ Spec.bracketed line g1 g2
            /\ (forall h1 h2, Spec.bracketed line h1 h2 ->
                              (List.length g1 <= List.length h1)%nat)
            /\ timestamp (JobView.formatLine toLowerCase line) = JobView.shortTimestamp g1
            /\ message (JobView.formatLine toLowerCase line) = g2)
        \/ (exec JobView.tsRegex line = None
            /\ (forall g1 g2, ~ Spec.bracketed line g1 g2)
            /\ timestamp (JobView.formatLine toLowerCase line) = []
            /\ message (JobView.formatLine toLowerCase line) = line)).
Proof.
  split; [|split; [|split; [|split; [|split]]]].
  - intros logs. unfold JobView.formattedLogs. f_equal.
    apply filter_ext. intros l. apply trim_blank.
  - intros line Hline. split.
    + intros g1 g2 H. rewrite <- (patterns_agree _ Hline) in H.
      unfold JobView.formatLine, JobView.tsMatch. rewrite H. now split.
    + intros H. rewrite <- (patterns_agree _ Hline) in H.
      unfold JobView.formatLine, JobView.tsMatch. rewrite H. now split.
  - intros g. apply shortTimestamp_char.
  - intros date time rest Hd Ht Hr.
    destruct (shortTimestamp_char (date ++ chr "T" :: time ++ rest)) as [_ H].
    rewrite (H date (time ++ rest) Hd eq_refl).
    now apply upto_prefix.
  - intros ws g2 Hws Hg2 Hhd.
    pose proof (tsMatch_bracketed [] ws g2 eq_refl Hws Hg2 Hhd) as H.
    change (chr "[" :: [] ++ chr "]" :: ws ++ g2) with (js "[]" ++ ws ++ g2) in H.
    unfold JobView.formatLine. rewrite H. now split.
  - intros line. unfold JobView.formatLine.
    destruct (JobView.tsMatch line) as [[g1 g2]|] eqn:E.
    + left. destruct (tsMatch_some _ _ _ E) as (Hexec & Hread & Hmin).
      exists g1, g2. repeat split; assumption.
    + right. destruct (tsMatch_none _ E) as (Hexec & Hnone).
      repeat split; assumption.
Qed.

Lemma formattedLogs_entries_witness :
  timestamp (JobView.formatLine Sample.asciiLower
               (js "[2024-01-01T12:34:56.789Z] [GIT] push")) = js "12:34:56"
  /\ message (JobView.formatLine Sample.asciiLower
                (js "[2024-01-01T12:34:56.789Z] [GIT] push")) = js "[GIT] push".
Proof.
  destruct (formattedLogs_entries Sample.asciiLower) as (_ & Hline & _ & Htime & _).
  destruct (Hline (js "[2024-01-01T12:34:56.789Z] [GIT] push") eq_refl) as [Hmatch _].
  destruct (Hmatch (js "2024-01-01T12:34:56.789Z") (js "[GIT] push") eq_refl) as [Hts Hmsg].
  split; [|exact Hmsg].
  rewrite Hts.
  apply (Htime (js "2024-01-01") (js "12:34:56") (js ".789Z")).
  - vm_compute. intros H. repeat (destruct H as [H|H]; [discriminate H|]). exact H.
  - reflexivity.
  - reflexivity.
Defined.

(** C5 as the specification words it fails on a line that begins with an
    empty pair of brackets: its pattern does not match the line, so the
    message would be the whole line, and the code drops the brackets; and
    where its pattern matches by taking a closing bracket into the group,
    the code has an empty timestamp. *)
Lemma formatLine_empty_brackets :
  truthy_str (trim (js "[] foo")) = true
  /\ exec Spec.tsPattern (js "[] foo") = None
  /\ message (JobView.formatLine Sample.asciiLower (js "[] foo")) <> js "[] foo"
  /\ exec Spec.tsPattern (js "[]] x") = Some [js "]"; js "x"]
  /\ timestamp (JobView.formatLine Sample.asciiLower (js "[]] x")) <> js "]".
Proof.
  split; [reflexivity|]. split; [reflexivity|]. split; [|split; [reflexivity|]].
  - vm_compute. discriminate.
  - vm_compute. discriminate.
Qed.

(** Lines that begin with an empty pair of brackets and that the pattern
    of the code does not match, or matches by taking a closing bracket
    into the value: a carriage return at the end of the line leaves the
    line whole, and one after a later closing bracket is skipped as white
    space. *)
Example empty_brackets_and_carriage_return :
  JobView.tsMatch (js "[] done" ++ [13%N]) = None
  /\ message (JobView.formatLine Sample.asciiLower (js "[] done" ++ [13%N]))
     = js "[] done" ++ [13%N]
  /\ JobView.tsMatch (js "[]a]" ++ [13%N] ++ js "b") = Some (js "]a", js "b").
Proof. vm_compute. repeat split. Qed.

(* ================================================================== *)
(** * The simulation engine *)
(* ================================================================== *)

Ltac step_engine :=
  cbv beta iota zeta delta
    [run result bind try_catch throw ret modify gets await
     geminiService.simulateAgentExecution geminiService.announceFallback
     geminiService.replayStep geminiService.getprop geminiService.iterate
     geminiService.now geminiService.emit
     geminiService.reads geminiService.trace geminiService.start fst snd].

Section EngineFacts.

Variable clock : nat -> jsstring.
Variable JSON_parse : jsstring -> outcome value.
Variable faultMessage : Fault -> jsstring.

(** One turn of the loop on a step of the schema: the pause, then the
    entry, stamped with the next reading of the clock. *)
Lemma replayStep_described (v : value) (s : Spec.Step) (w : geminiService.World) :
  Spec.describes v s ->
  geminiService.replayStep clock v w
  = (Returned tt,
     geminiService.mkWorld
       (S (geminiService.reads w))
       (geminiService.trace w
        ++ [geminiService.SetTimeout (Spec.delayOf s);
            geminiService.OnLogUpdate (Spec.stepLog (clock (geminiService.reads w)) s)])).
Proof.
  intros (props & -> & Hth & Hac & Hty).
  step_engine. rewrite Hty, Hth, Hac.
  cbv beta iota delta [geminiService.toString is_str].
  rewrite <- app_assoc. reflexivity.
Qed.

Lemma for_of_described (items : list value) (steps : list Spec.Step) :
  Forall2 Spec.describes items steps ->
  forall w : geminiService.World,
    for_of items (geminiService.replayStep clock) w
    = (Returned tt,
       geminiService.mkWorld
         (geminiService.reads w + List.length steps)
         (geminiService.trace w ++ Spec.stepEvents clock (geminiService.reads w) steps)).
Proof.
  induction 1 as [|v s items steps Hv _ IH]; intros w.
  - destruct w as [n t]. cbn [for_of ret List.length Spec.stepEvents geminiService.reads
      geminiService.trace]. now rewrite Nat.add_0_r, app_nil_r.
  - cbn [for_of]. unfold bind at 1. rewrite (replayStep_described _ _ w Hv), IH.
    cbn [geminiService.reads geminiService.trace List.length Spec.stepEvents].
    rewrite <- app_assoc. cbn [app]. now rewrite Nat.add_succ_r.
Qed.

Lemma callbacks_app (t u : list geminiService.Event) (n m : nat) :
  geminiService.callbacks (geminiService.mkWorld n (t ++ u))
  = geminiService.callbacks (geminiService.mkWorld m t)
    ++ geminiService.callbacks (geminiService.mkWorld m u).
Proof. unfold geminiService.callbacks. cbn [geminiService.trace]. apply filter_app. Qed.

Lemma callbacks_stepEvents (n m : nat) (steps : list Spec.Step) :
  geminiService.callbacks (geminiService.mkWorld m (Spec.stepEvents clock n steps))
  = map geminiService.OnLogUpdate (Spec.stepLogs clock n steps).
Proof.
  unfold geminiService.callbacks. cbn [geminiService.trace].
  revert n. induction steps as [|s steps IH]; intros n; [reflexivity|].
  cbn [Spec.stepEvents Spec.stepLogs filter map]. now rewrite IH.
Qed.

Lemma stepLogs_length (n : nat) (steps : list Spec.Step) :
  List.length (Spec.stepLogs clock n steps) = List.length steps.
Proof.
  revert n. induction steps as [|s steps IH]; intros n; [reflexivity|].
  cbn [Spec.stepLogs List.length]. now rewrite IH.
Qed.

Lemma logs_of_stepEvents (n : nat) (steps : list Spec.Step) :
  flat_map (fun e => match e with
                     | geminiService.OnLogUpdate log => [log]
                     | _ => []
                     end) (Spec.stepEvents clock n steps)
  = Spec.stepLogs clock n steps.
Proof.
  revert n. induction steps as [|s l IH]; intros n; [reflexivity|].
  cbn [Spec.stepEvents Spec.stepLogs flat_map app]. now rewrite IH.
Qed.

Lemma completions_of_stepEvents (n : nat) (steps : list Spec.Step) :
  flat_map (fun e => match e with
                     | geminiService.OnCompletion produced => [produced]
                     | _ => []
                     end) (Spec.stepEvents clock n steps)
  = [].
Proof.
  revert n. induction steps as [|s l IH]; intros n; [reflexivity|].
  cbn [Spec.stepEvents flat_map app]. apply IH.
Qed.

(** A run on a reply that parses to an object with steps of the schema
    and a [files] property. *)
Lemma simulate_success (goal : jsstring) (repo persona : option jsstring)
    (useSearch : option bool) (text : option jsstring)
    (props : list (jsstring * value)) (items : list value) (produced : value)
    (steps : list Spec.Step) :
  geminiService.parsed JSON_parse text = Returned (VObj props) ->
  own props (js "steps") = Some (VArr items) ->
  own props (js "files") = Some produced ->
  Forall2 Spec.describes items steps ->
  geminiService.simulateAgentExecution clock JSON_parse faultMessage goal repo persona
    useSearch (geminiService.Responds text) geminiService.start
  = (Returned tt,
     geminiService.mkWorld
       (2 + List.length steps)
       ([geminiService.OnLogUpdate (mkLog (clock 0) geminiService.systemNotice (ty "process"));
         geminiService.GenerateContent (geminiService.contentsPrefix ++ goal);
         geminiService.OnLogUpdate (mkLog (clock 1) geminiService.brainNotice (ty "brain"))]
        ++ Spec.stepEvents clock 2 steps
        ++ [geminiService.OnCompletion produced])).
Proof.
  intros Hparsed Hsteps Hfiles Hitems.
  step_engine. rewrite Hparsed, Hsteps.
  rewrite (for_of_described _ _ Hitems). rewrite Hfiles.
  cbn [geminiService.reads geminiService.trace].
  rewrite <- app_assoc. reflexivity.
Qed.

End EngineFacts.

(** C2, as the code has it. On a reply that parses to an object with [n]
    steps of the schema and a [files] property, the run returns normally
    and its calls are: [onLogUpdate] with the notice of the fallback,
    [onLogUpdate] with the notice that the analysis starts, then
    [onLogUpdate] once per step, in the order of the steps, with the
    thought, an arrow and the action as message and the type of the step
    as type, then [onCompletion] once, with the [files] of the reply, and
    nothing after it. That is [n + 2] calls of [onLogUpdate]. *)
Theorem simulateAgentExecution_success
    (clock : nat -> jsstring) (JSON_parse : jsstring -> outcome value)
    (faultMessage : Fault -> jsstring)
    (goal : jsstring) (repo persona : option jsstring) (useSearch : option bool)
    (text : option jsstring) (props : list (jsstring * value))
    (items : list value) (produced : value) (steps : list Spec.Step) :
  geminiService.parsed JSON_parse text = Returned (VObj props) ->
  own props (js "steps") = Some (VArr items) ->
  own props (js "files") = Some produced ->
  Forall2 Spec.describes items steps ->
  let call := geminiService.simulateAgentExecution clock JSON_parse faultMessage goal
                repo persona useSearch (geminiService.Responds text) in
  let w := run call geminiService.start in
  result call geminiService.start = Returned tt
  /\ geminiService.callbacks w
     = [geminiService.OnLogUpdate (mkLog (clock 0) geminiService.systemNotice (ty "process"));
        geminiService.OnLogUpdate (mkLog (clock 1) geminiService.brainNotice (ty "brain"))]
       ++ map geminiService.OnLogUpdate (Spec.stepLogs clock 2 steps)
       ++ [geminiService.OnCompletion produced]
  /\ List.length (Spec.stepLogs clock 2 steps) = List.length steps
  /\ List.length (geminiService.onLogCalls w) = 2 + List.length steps
  /\ geminiService.completions w = [produced].
Proof.
  intros Hparsed Hsteps Hfiles Hitems call w.
  subst w call. unfold run, result.
  rewrite (simulate_success clock JSON_parse faultMessage goal repo persona useSearch
             text props items produced steps Hparsed Hsteps Hfiles Hitems).
  cbn [fst snd].
  split; [reflexivity|]. split; [|split; [apply stepLogs_length|split]].
  - rewrite (callbacks_app _ _ _ 0), (callbacks_app _ _ _ 0), callbacks_stepEvents.
    reflexivity.
  - unfold geminiService.onLogCalls. cbn [geminiService.trace].
    rewrite !flat_map_app, !length_app. cbn [flat_map app List.length].
    rewrite logs_of_stepEvents, stepLogs_length. lia.
  - unfold geminiService.completions. cbn [geminiService.trace].
    rewrite !flat_map_app. cbn [flat_map app].
    rewrite completions_of_stepEvents. reflexivity.
Qed.

Lemma simulateAgentExecution_success_witness :
  List.length (geminiService.onLogCalls
                 (Sample.simulate (geminiService.Responds (Some (Sample.stringify Sample.threeSteps))))) = 5%nat
  /\ geminiService.completions
       (Sample.simulate (geminiService.Responds (Some (Sample.stringify Sample.threeSteps))))
     = [Sample.twoFiles].
Proof.
  destruct (simulateAgentExecution_success Sample.tick (Sample.parseByTable Sample.table)
              Sample.v8Message (js "task") None None None (Some (Sample.stringify Sample.threeSteps))
              [(js "steps", VArr Sample.threeItems); (js "files", Sample.twoFiles)]
              Sample.threeItems Sample.twoFiles
              [Spec.mkStep (js "read") (js "open repo") (js "info");
               Spec.mkStep (js "look up") (js "query") (js "search");
               Spec.mkStep (js "write") (js "emit report") (js "success")])
    as (_ & _ & _ & Hlogs & Hdone).
  - reflexivity.
  - reflexivity.
  - reflexivity.
  - repeat constructor; eexists; repeat split; reflexivity.
  - split; [exact Hlogs|exact Hdone].
Defined.

(** C2 as the specification words it, with [onLogUpdate] called exactly
    once per step, fails on a reply of three steps and two files: the
    run calls [onLogUpdate] five times. *)
Lemma simulate_three_steps_five_logs :
  List.length Sample.threeItems = 3%nat
  /\ List.length (geminiService.onLogCalls
                    (Sample.simulate (geminiService.Responds (Some (Sample.stringify Sample.threeSteps)))))
     <> List.length Sample.threeItems.
Proof.
  split; [reflexivity|]. vm_compute. discriminate.
Qed.

Section EngineFailures.

Variable clock : nat -> jsstring.
Variable JSON_parse : jsstring -> outcome value.
Variable faultMessage : Fault -> jsstring.


Lemma simulate_unparsed (goal : jsstring) (repo persona : option jsstring)
    (useSearch : option bool) (text : option jsstring) (e : Exn) :
  geminiService.parsed JSON_parse text = Thrown e ->
  geminiService.simulateAgentExecution clock JSON_parse faultMessage goal repo persona
    useSearch (geminiService.Responds text) geminiService.start
  = (Returned tt,
     geminiService.mkWorld 2
       [geminiService.OnLogUpdate (mkLog (clock 0) geminiService.systemNotice (ty "process"));
        geminiService.GenerateContent (geminiService.contentsPrefix ++ goal);
        geminiService.OnLogUpdate (geminiService.failureLog clock faultMessage 1 e)]).
Proof. intros H. step_engine. rewrite H. reflexivity. Qed.

Lemma simulate_steps_fault (goal : jsstring) (repo persona : option jsstring)
    (useSearch : option bool) (text : option jsstring) (parsed : value) (e : Exn) :
  geminiService.parsed JSON_parse text = Returned parsed ->
  geminiService.stepsFault parsed = Some e ->
  geminiService.simulateAgentExecution clock JSON_parse faultMessage goal repo persona
    useSearch (geminiService.Responds text) geminiService.start
  = (Returned tt,
     geminiService.mkWorld 3
       [geminiService.OnLogUpdate (mkLog (clock 0) geminiService.systemNotice (ty "process"));
        geminiService.GenerateContent (geminiService.contentsPrefix ++ goal);
        geminiService.OnLogUpdate (mkLog (clock 1) geminiService.brainNotice (ty "brain"));
        geminiService.OnLogUpdate (geminiService.failureLog clock faultMessage 2 e)]).
Proof.
  intros Hparsed Hfault. unfold geminiService.stepsFault in Hfault.
  step_engine. rewrite Hparsed.
  destruct parsed as [| | | | | |props];
    try (injection Hfault as <-; reflexivity).
  revert Hfault. step_engine.
  destruct (own props (js "steps")) as [[| | | | | |]|];
    intros Hfault; try discriminate Hfault; injection Hfault as <-; reflexivity.
Qed.

End EngineFailures.





(* ================================================================== *)
(** * The order of the store *)
(* ================================================================== *)

Section Order.

Variable getTime : jsstring -> option Z.

Lemma notOlder_trans (a b c : Job) :
  Spec.notOlder getTime a b -> Spec.notOlder getTime b c -> Spec.notOlder getTime a c.
Proof.
  unfold Spec.notOlder.
  destruct (getTime (created_at a)), (getTime (created_at b)), (getTime (created_at c));
    try tauto. lia.
Qed.

Lemma insert_forall (P : Job -> Prop) cmp (x : Job) (l : list Job) :
  P x -> Forall P l -> Forall P (App.insert cmp x l).
Proof.
  intros Hx Hl. apply Forall_forall. intros z Hz.
  apply (Permutation_in _ (insert_perm cmp x l)) in Hz.
  destruct Hz as [<-|Hz]; [assumption|].
  rewrite Forall_forall in Hl. now apply Hl.
Qed.

Lemma insert_newestFirst (x : Job) (l : list Job) :
  Spec.dated getTime x -> Forall (Spec.dated getTime) l ->
  Spec.newestFirst getTime l ->
  Spec.newestFirst getTime (App.insert (App.byNewest getTime) x l).
Proof.
  intros Hx Hl Hs. induction Hs as [|y l Hs IH Hy]; cbn [App.insert].
  - constructor; constructor.
  - inversion Hl as [|? ? Hdy Hdl]; subst.
    unfold Spec.dated in Hx, Hdy.
    destruct (App.byNewest getTime x y >? 0)%Z eqn:E.
    + constructor; [now apply IH|].
      apply insert_forall; [|assumption].
      unfold App.byNewest in E. unfold Spec.notOlder.
      destruct (getTime (created_at y)), (getTime (created_at x)); try congruence. lia.
    + assert (Hxy : Spec.notOlder getTime x y).
      { unfold App.byNewest in E. unfold Spec.notOlder.
        destruct (getTime (created_at y)), (getTime (created_at x)); try congruence. lia. }
      constructor; [now constructor|].
      constructor; [assumption|].
      eapply Forall_impl; [|exact Hy]. intros z Hz. now apply (notOlder_trans x y z).
Qed.

(** The sort of the merge puts jobs whose timestamps parse in order. *)
Lemma sort_newestFirst (l : list Job) :
  Forall (Spec.dated getTime) l -> Spec.newestFirst getTime (App.sort (App.byNewest getTime) l).
Proof.
  induction 1 as [|x l Hx Hl IH]; [constructor|].
  change (App.sort (App.byNewest getTime) (x :: l))
    with (App.insert (App.byNewest getTime) x (App.sort (App.byNewest getTime) l)).
  apply insert_newestFirst; [assumption| |assumption].
  apply Forall_forall. intros z Hz. apply in_sort in Hz.
  rewrite Forall_forall in Hl. now apply Hl.
Qed.

(** After a poll that succeeds the store is in order, provided the
    timestamps of the server list and of the simulation jobs parse. *)
Lemma reconcile_newestFirst (data prev : list Job) :
  Forall (Spec.dated getTime) data -> Forall (Spec.dated getTime) prev ->
  Spec.newestFirst getTime (App.reconcile getTime data prev).
Proof.
  intros Hd Hp. unfold App.reconcile. apply sort_newestFirst.
  apply Forall_forall. intros x Hx. apply fold_push_origin in Hx as [Hx|Hx].
  - apply in_map_iff in Hx as (s & <- & Hs).
    rewrite Forall_forall in Hd. exact (Hd s Hs).
  - apply filter_In in Hx as [Hx _]. rewrite Forall_forall in Hp. exact (Hp x Hx).
Qed.

(** Deleting a job keeps the order of the others. *)
Lemma filter_newestFirst (keep : Job -> bool) (l : list Job) :
  Spec.newestFirst getTime l -> Spec.newestFirst getTime (filter keep l).
Proof.
  induction 1 as [|y l Hs IH Hy]; cbn [filter]; [constructor|].
  destruct (keep y); [|assumption].
  constructor; [assumption|].
  apply Forall_forall. intros z Hz. apply filter_In in Hz as [Hz _].
  rewrite Forall_forall in Hy. now apply Hy.
Qed.

(** The callbacks of the engine change no timestamp, so no order. *)
Lemma map_newestFirst (f : Job -> Job) (l : list Job) :
  (forall j, created_at (f j) = created_at j) ->
  Spec.newestFirst getTime l -> Spec.newestFirst getTime (map f l).
Proof.
  intros Hf. induction 1 as [|y l Hs IH Hy]; cbn [map]; [constructor|].
  constructor; [assumption|].
  apply Forall_forall. intros z Hz. apply in_map_iff in Hz as (z0 & <- & Hz0).
  rewrite Forall_forall in Hy. specialize (Hy z0 Hz0).
  unfold Spec.notOlder in *. now rewrite !Hf.
Qed.

End Order.

(** C9 on the code. A poll returns a job that the server stamped two
    seconds ahead of the clock of the browser; the next creation fails
    over to a simulation, whose job is put in front of the store with an
    older timestamp. The state is reachable and its jobs are not ordered
    newest first. *)
Theorem create_breaks_order :
  let polled := run (App.fetchJobsList Sample.isoTime
                       (Returned [Sample.serverJob "a" "2026-11-03T05:00:05.000Z"]))
                    App.initial in
  let created := run (App.handleCreateJob Sample.isoTime
                        (Sample.env "k3x9qa" "2026-11-03T05:00:03.000Z")
                        (js "write docs") None None None
                        (Thrown (Error (js "Failed to create job"))) (Returned []))
                     polled in
  App.reachable Sample.isoTime created
  /\ map created_at (App.jobs created)
     = [js "2026-11-03T05:00:03.000Z"; js "2026-11-03T05:00:05.000Z"]
  /\ ~ Spec.newestFirst Sample.isoTime (App.jobs created).
Proof.
  cbv zeta. split; [|split].
  - apply (@App.reach_step Sample.isoTime _
             (App.Create (Sample.env "k3x9qa" "2026-11-03T05:00:03.000Z")
                (js "write docs") None None None
                (Thrown (Error (js "Failed to create job"))) (Returned []))).
    apply (@App.reach_step Sample.isoTime _
             (App.Poll (Returned [Sample.serverJob "a" "2026-11-03T05:00:05.000Z"]))).
    apply (@App.reach_initial Sample.isoTime).
  - vm_compute. reflexivity.
  - intros H. unfold Spec.newestFirst in H.
    remember (App.jobs _) as l eqn:El. vm_compute in El. subst l.
    inversion H as [|? ? _ Hall]; subst.
    inversion Hall as [|? ? Hfirst _]; subst.
    vm_compute in Hfirst. apply Hfirst. reflexivity.
Qed.

(* ================================================================== *)
(** * The parts together, on examples *)
(* ================================================================== *)

(** The log of a job that was just created offline reads as two entries
    of type [process]: the line of the handler and the notice of the
    engine. *)
Example offline_job_log_reads_as_process :
  let created := run (App.handleCreateJob Sample.isoTime
                        (Sample.env "k3x9qa" "2026-11-03T05:00:03.000Z")
                        (js "write docs") None None None
                        (Returned (js "unused")) (Returned []))
                     (run (App.fetchJobsList Sample.isoTime (Thrown (Error [])))
                          App.initial) in
  map (fun e => (timestamp e, type_ e))
      (flat_map (fun j => JobView.formattedLogs Sample.asciiLower (logs j))
                (App.jobs created))
  = [(js "10:00:00", ty "process"); (js "0", ty "process")].
Proof. vm_compute. reflexivity. Qed.

(** A bracketed tag at the start of a line is taken for the timestamp:
    the line loses its tag, and with it its classification. *)
(** The text of the reply that has steps and no files. *)
Example text_without_files :
  Sample.stringify Sample.noFiles = js "{" ++ Sample.quoted (js "steps") ++ js ":[]}".
Proof. reflexivity. Qed.

Example leading_tag_is_taken_for_timestamp :
  JobView.formatLine Sample.asciiLower (js "[STEP 2] run the tests")
  = mkLog (js "EP 2") (js "run the tests") (ty "info").
Proof. vm_compute. reflexivity. Qed.

(** A line that ends in a carriage return is not matched: [.] stops at
    line terminators and [$] wants the end of the line. *)
Example carriage_return_defeats_the_pattern :
  JobView.tsMatch (js "[10:00:00] done" ++ [13%N]) = None.
Proof. vm_compute. reflexivity. Qed.

(** Delivering the callbacks of a run of three steps to the store ends
    with the job completed and its files set. *)
Example delivered_run_completes_the_job :
  let created := run (App.handleCreateJob Sample.isoTime
                        (Sample.env "k3x9qa" "2026-11-03T05:00:03.000Z")
                        (js "write docs") None None None
                        (Thrown (Error (js "Failed to create job"))) (Returned []))
                     App.initial in
  let events := geminiService.callbacks
                  (Sample.simulate (geminiService.Responds (Some (Sample.stringify Sample.threeSteps)))) in
  let final := run (for_of (tl events) (App.deliver (js "sim-k3x9qa"))) created in
  map (fun j => (status j, files j)) (App.jobs final) = [(completed, Sample.twoFiles)]
  /\ List.length (flat_map (fun j => JobView.formattedLogs Sample.asciiLower (logs j))
                           (App.jobs final)) = 6%nat.
Proof. vm_compute. split; reflexivity. Qed.

(* ================================================================== *)
(** * More on the reconciliation merge *)
(* ================================================================== *)

(** Jobs with distinct ids that the list does not have are all added, in
    their order. *)
Lemma fold_push_all (fresh merged : list Job) :
  NoDup (map id fresh) ->
  (forall k, In k fresh -> ~ In (id k) (map id merged)) ->
  fold_left App.pushIfAbsent fresh merged = merged ++ fresh.
Proof.
  revert merged. induction fresh as [|s fresh IH]; intros merged Hnd Hfresh; cbn [fold_left].
  - now rewrite app_nil_r.
  - inversion Hnd as [|? ? Hs Hnd']; subst.
    unfold App.pushIfAbsent at 2.
    rewrite (find_id_none _ _ (Hfresh s (or_introl eq_refl))).
    rewrite IH; [now rewrite <- app_assoc|assumption|].
    intros k Hk Hin. rewrite map_app in Hin. apply in_app_or in Hin as [Hin|[Hin|[]]].
    + exact (Hfresh k (or_intror Hk) Hin).
    + apply Hs. rewrite Hin. now apply in_map.
Qed.

(** X1. Where a job of the merge comes from: it is a job of the server list,
    marked as not simulated, or it is a simulation job of the store whose
    id the server list does not have. So a job of the server that the
    server lists no more is dropped, and a simulation job loses to a
    server job of its id. *)
Theorem reconcile_origin
    (getTime : jsstring -> option Z) (data prev : list Job) (k : Job) :
  In k (App.reconcile getTime data prev) ->
  (exists s, In s data /\ k = App.fromServer s)
  \/ (In k prev /\ App.truthy (is_simulation k) = true /\ ~ In (id k) (map id data)).
Proof.
  intros Hk. unfold App.reconcile in Hk. apply in_sort in Hk.
  destruct (fold_push_shape (filter (fun j => App.truthy (is_simulation j)) prev)
              (map App.fromServer data)) as (P & Heq & Hincl & _ & Hfresh).
  rewrite Heq in Hk. apply in_app_or in Hk as [Hk|Hk].
  - left. apply in_map_iff in Hk as (s & <- & Hs). now exists s.
  - right. pose proof (Hincl k Hk) as Hf. apply filter_In in Hf as [Hp Hsim].
    repeat split; try assumption.
    rewrite <- ids_fromServer. now apply Hfresh.
Qed.

Lemma reconcile_origin_witness :
  (exists s, In s [Sample.serverJob "a" "2026-11-03T04:00:00.000Z"]
             /\ App.fromServer (Sample.serverJob "a" "2026-11-03T04:00:00.000Z")
                = App.fromServer s)
  \/ (In (App.fromServer (Sample.serverJob "a" "2026-11-03T04:00:00.000Z"))
         [Sample.simJob "a" "2026-11-03T04:51:00.000Z"]
      /\ App.truthy (is_simulation
                       (App.fromServer (Sample.serverJob "a" "2026-11-03T04:00:00.000Z")))
         = true
      /\ ~ In (id (App.fromServer (Sample.serverJob "a" "2026-11-03T04:00:00.000Z")))
              (map id [Sample.serverJob "a" "2026-11-03T04:00:00.000Z"])).
Proof.
  apply (reconcile_origin Sample.isoTime
           [Sample.serverJob "a" "2026-11-03T04:00:00.000Z"]
           [Sample.simJob "a" "2026-11-03T04:51:00.000Z"]).
  vm_compute. left. reflexivity.
Defined.

(** X2. A server list with distinct ids gives a store with distinct ids,
    whatever the store held before. *)
Theorem reconcile_distinct_ids
    (getTime : jsstring -> option Z) (data prev : list Job) :
  NoDup (map id data) -> NoDup (map id (App.reconcile getTime data prev)).
Proof.
  intros Hnd. unfold App.reconcile.
  destruct (fold_push_shape (filter (fun j => App.truthy (is_simulation j)) prev)
              (map App.fromServer data)) as (P & Heq & _ & HndP & Hfresh).
  rewrite Heq.
  apply (Permutation_NoDup (l := map id (map App.fromServer data ++ P))).
  - apply Permutation_map. symmetry. apply sort_perm.
  - rewrite map_app. apply NoDup_app; [now rewrite ids_fromServer|assumption|].
    intros a Ha Hin. apply in_map_iff in Hin as (k & <- & Hk). exact (Hfresh k Hk Ha).
Qed.

Lemma reconcile_distinct_ids_witness :
  NoDup (map id (App.reconcile Sample.isoTime
                   [Sample.serverJob "a" "2026-11-03T04:00:00.000Z";
                    Sample.serverJob "b" "2026-11-03T05:00:00.000Z"]
                   [Sample.simJob "sim-1" "2026-11-03T04:51:00.000Z";
                    Sample.simJob "sim-1" "2026-11-03T04:52:00.000Z";
                    Sample.simJob "a" "2026-11-03T04:53:00.000Z"])).
Proof.
  apply reconcile_distinct_ids.
  vm_compute. constructor; [|constructor; [|constructor]].
  - intros [H|[]]. discriminate H.
  - intros [].
Defined.

Section Repoll.

Variable getTime : jsstring -> option Z.

Lemma byNewest_notOlder (x z : Job) :
  Spec.notOlder getTime x z -> (App.byNewest getTime x z <= 0)%Z.
Proof.
  unfold Spec.notOlder, App.byNewest.
  destruct (getTime (created_at x)), (getTime (created_at z)); try tauto. lia.
Qed.

Lemma insert_front (x : Job) (l : list Job) :
  Forall (Spec.notOlder getTime x) l ->
  App.insert (App.byNewest getTime) x l = x :: l.
Proof.
  intros H. destruct l as [|y l]; [reflexivity|]. cbn [App.insert].
  inversion H as [|? ? Hy _]; subst. apply byNewest_notOlder in Hy.
  destruct (App.byNewest getTime x y >? 0)%Z eqn:E; [lia|reflexivity].
Qed.

(** Sorting a list that is in order changes nothing. *)
Lemma sort_fixed (l : list Job) :
  Spec.newestFirst getTime l -> App.sort (App.byNewest getTime) l = l.
Proof.
  induction 1 as [|y l Hs IH Hy]; [reflexivity|].
  change (App.sort (App.byNewest getTime) (y :: l))
    with (App.insert (App.byNewest getTime) y (App.sort (App.byNewest getTime) l)).
  rewrite IH. now apply insert_front.
Qed.

Lemma filter_insert (keep : Job -> bool) (x : Job) (l : list Job) :
  Spec.dated getTime x -> Forall (Spec.dated getTime) l -> Spec.newestFirst getTime l ->
  filter keep (App.insert (App.byNewest getTime) x l)
  = if keep x then App.insert (App.byNewest getTime) x (filter keep l)
    else filter keep l.
Proof.
  intros Hx Hl Hs. induction Hs as [|y l Hs IH Hy].
  - cbn [App.insert filter]. destruct (keep x); reflexivity.
  - inversion Hl as [|? ? Hdy Hdl]; subst. specialize (IH Hdl).
    cbn [App.insert].
    destruct (App.byNewest getTime x y >? 0)%Z eqn:E.
    + cbn [filter]. rewrite IH.
      destruct (keep y), (keep x); try reflexivity.
      cbn [App.insert]. now rewrite E.
    + assert (Hxy : Spec.notOlder getTime x y).
      { unfold Spec.dated in Hx, Hdy. unfold App.byNewest in E. unfold Spec.notOlder.
        destruct (getTime (created_at y)), (getTime (created_at x)); try congruence. lia. }
      cbn [filter]. destruct (keep x); [|reflexivity].
      symmetry. apply insert_front.
      apply Forall_forall. intros z Hz.
      assert (Hzin : In z (y :: l)).
      { destruct (keep y); [|apply filter_In in Hz as [Hz _]; now right].
        destruct Hz as [<-|Hz]; [now left|]. apply filter_In in Hz as [Hz _]. now right. }
      destruct Hzin as [<-|Hzl]; [assumption|].
      rewrite Forall_forall in Hy. exact (notOlder_trans getTime x y z Hxy (Hy z Hzl)).
Qed.

(** Filtering the sorted list is sorting the filtered list. *)
Lemma filter_sort (keep : Job -> bool) (l : list Job) :
  Forall (Spec.dated getTime) l ->
  filter keep (App.sort (App.byNewest getTime) l)
  = App.sort (App.byNewest getTime) (filter keep l).
Proof.
  induction 1 as [|x l Hx Hl IH]; [reflexivity|].
  change (App.sort (App.byNewest getTime) (x :: l))
    with (App.insert (App.byNewest getTime) x (App.sort (App.byNewest getTime) l)).
  rewrite filter_insert; [|assumption| |now apply sort_newestFirst].
  - cbn [filter]. rewrite IH. destruct (keep x); reflexivity.
  - apply Forall_forall. intros z Hz. apply in_sort in Hz.
    rewrite Forall_forall in Hl. now apply Hl.
Qed.

Lemma sort_app_sorted (l1 l2 : list Job) :
  Forall (Spec.dated getTime) l2 ->
  App.sort (App.byNewest getTime) (l1 ++ App.sort (App.byNewest getTime) l2)
  = App.sort (App.byNewest getTime) (l1 ++ l2).
Proof.
  intros H. unfold App.sort at 1 3. rewrite !fold_right_app.
  change (fold_right (App.insert (App.byNewest getTime)) []
            (App.sort (App.byNewest getTime) l2))
    with (App.sort (App.byNewest getTime) (App.sort (App.byNewest getTime) l2)).
  rewrite (sort_fixed _ (sort_newestFirst getTime l2 H)). reflexivity.
Qed.

Lemma filter_none (keep : Job -> bool) (l : list Job) :
  (forall x, In x l -> keep x = false) -> filter keep l = [].
Proof.
  induction l as [|x l IH]; intros H; [reflexivity|]. cbn [filter].
  rewrite (H x (or_introl eq_refl)). apply IH. intros z Hz. apply H. now right.
Qed.

Lemma filter_all (keep : Job -> bool) (l : list Job) :
  (forall x, In x l -> keep x = true) -> filter keep l = l.
Proof.
  induction l as [|x l IH]; intros H; [reflexivity|]. cbn [filter].
  rewrite (H x (or_introl eq_refl)). f_equal. apply IH. intros z Hz. apply H. now right.
Qed.

(** X3. A poll that succeeds twice with the same list leaves the store as
    the first poll left it, provided the timestamps of the list and of
    the store parse. *)
Theorem reconcile_idempotent (data prev : list Job) :
  Forall (Spec.dated getTime) data -> Forall (Spec.dated getTime) prev ->
  App.reconcile getTime data (App.reconcile getTime data prev)
  = App.reconcile getTime data prev.
Proof.
  intros Hd Hp. unfold App.reconcile at 2 3.
  set (sims := filter (fun j => App.truthy (is_simulation j)) prev).
  set (api := map App.fromServer data).
  destruct (fold_push_shape sims api) as (P & Heq & Hincl & HndP & Hfresh).
  rewrite Heq.
  assert (HdA : Forall (Spec.dated getTime) api).
  { apply Forall_forall. intros x Hx. apply in_map_iff in Hx as (s & <- & Hs).
    rewrite Forall_forall in Hd. exact (Hd s Hs). }
  assert (HsimP : forall x, In x P -> App.truthy (is_simulation x) = true).
  { intros x Hx. apply Hincl in Hx. now apply filter_In in Hx as [_ Hx]. }
  assert (HdP : Forall (Spec.dated getTime) P).
  { apply Forall_forall. intros x Hx. apply Hincl in Hx. apply filter_In in Hx as [Hx _].
    rewrite Forall_forall in Hp. now apply Hp. }
  unfold App.reconcile. fold api.
  rewrite filter_sort by (apply Forall_app; now split).
  rewrite filter_app, (filter_all _ P HsimP), filter_none.
  2:{ intros x Hx. apply in_map_iff in Hx as (s & <- & _). reflexivity. }
  cbn [app].
  rewrite fold_push_all.
  - now apply sort_app_sorted.
  - apply (Permutation_NoDup (l := map id P)); [|assumption].
    apply Permutation_map. symmetry. apply sort_perm.
  - intros k Hk. apply in_sort in Hk. now apply Hfresh.
Qed.

End Repoll.

Lemma reconcile_idempotent_witness :
  let data := [Sample.serverJob "a" "2026-11-03T04:00:00.000Z";
               Sample.serverJob "b" "2026-11-03T05:00:00.000Z"] in
  let prev := [Sample.simJob "sim-1" "2026-11-03T04:51:00.000Z";
               Sample.serverJob "c" "2026-11-03T03:00:00.000Z"] in
  App.reconcile Sample.isoTime data (App.reconcile Sample.isoTime data prev)
  = App.reconcile Sample.isoTime data prev.
Proof.
  intros data prev. apply reconcile_idempotent.
  - repeat constructor; vm_compute; discriminate.
  - repeat constructor; vm_compute; discriminate.
Defined.

(** X4. After a poll that succeeds, the store is ordered newest first,
    provided the timestamps of the server list and of the store parse. *)
Theorem fetchJobsList_sorts
    (getTime : jsstring -> option Z) (data : list Job) (w : App.World) :
  Forall (Spec.dated getTime) data ->
  Forall (Spec.dated getTime) (App.jobs w) ->
  Spec.newestFirst getTime (App.jobs (run (App.fetchJobsList getTime (Returned data)) w)).
Proof.
  intros Hd Hp.
  change (App.jobs (run (App.fetchJobsList getTime (Returned data)) w))
    with (App.reconcile getTime data (App.jobs w)).
  unfold App.reconcile. apply sort_newestFirst.
  apply Forall_forall. intros x Hx. apply fold_push_origin in Hx as [Hx|Hx].
  - apply in_map_iff in Hx as (s & <- & Hs).
    rewrite Forall_forall in Hd. exact (Hd s Hs).
  - apply filter_In in Hx as [Hx _]. rewrite Forall_forall in Hp. exact (Hp x Hx).
Qed.

Lemma fetchJobsList_sorts_witness :
  Spec.newestFirst Sample.isoTime
    (App.jobs (run (App.fetchJobsList Sample.isoTime
                      (Returned [Sample.serverJob "a" "2026-11-03T04:00:00.000Z";
                                 Sample.serverJob "b" "2026-11-03T05:00:00.000Z"]))
                   App.initial)).
Proof.
  apply fetchJobsList_sorts.
  - repeat constructor; vm_compute; discriminate.
  - constructor.
Defined.

(* ================================================================== *)
(** * Creating a job while the backend is taken to be online *)
(* ================================================================== *)

Lemma handleCreateJob_rejected_run
    (getTime : jsstring -> option Z) (env : App.Surroundings) (goal : jsstring)
    (repo persona : option jsstring) (useSearch : option bool)
    (e : Exn) (listReply : outcome (list Job)) (w : App.World) :
  App.isBackendOnline w = true ->
  App.handleCreateJob getTime env goal repo persona useSearch (Thrown e) listReply w
  = let new := App.newSimulationJob env goal repo persona useSearch in
    let first := mkLog (App.engineClock env 0) geminiService.systemNotice (ty "process") in
    (Returned tt,
     App.mkWorld
       (map (fun j => if str_eqb (id j) (id new) then App.appendLog first j else j)
            (new :: App.jobs w))
       (Some (id new)) false true
       (App.requests w ++ [apiService.POST_jobs goal repo])).
Proof.
  intros Hon. destruct w as [l a m o r]. simpl in Hon. subst o.
  unfold App.handleCreateJob. rewrite announce_callbacks.
  step_eff. reflexivity.
Qed.

Lemma handleCreateJob_accepted_run
    (getTime : jsstring -> option Z) (env : App.Surroundings) (goal : jsstring)
    (repo persona : option jsstring) (useSearch : option bool)
    (job_id : jsstring) (listReply : outcome (list Job)) (w : App.World) :
  App.isBackendOnline w = true ->
  App.handleCreateJob getTime env goal repo persona useSearch (Returned job_id) listReply w
  = (Returned tt,
     App.mkWorld
       (match listReply with
        | Returned data => App.reconcile getTime data (App.jobs w)
        | Thrown _ => App.jobs w
        end)
       (Some job_id) false
       (match listReply with Returned _ => true | Thrown _ => false end)
       (App.requests w ++ [apiService.POST_jobs goal repo; apiService.GET_jobs])).
Proof.
  intros Hon. destruct w as [l a m o r]. simpl in Hon. subst o.
  destruct listReply; step_eff; rewrite <- app_assoc; reflexivity.
Qed.

(** X5. With the backend taken to be online and the creation accepted, one
    creation and one listing are sent and no simulation starts: the
    store is the reconciled one, or the old one if the listing fails, in
    which case the backend is taken to be offline from then on. The id
    that the server gave is selected whether or not the store holds a
    job of that id; if it holds none, no job is shown. *)
Theorem handleCreateJob_accepted
    (getTime : jsstring -> option Z) (env : App.Surroundings) (goal : jsstring)
    (repo persona : option jsstring) (useSearch : option bool)
    (job_id : jsstring) (listReply : outcome (list Job)) (w : App.World) :
  App.isBackendOnline w = true ->
  let create := App.handleCreateJob getTime env goal repo persona useSearch
                  (Returned job_id) listReply in
  let w' := run create w in
  result create w = Returned tt
  /\ App.requests w'
     = App.requests w ++ [apiService.POST_jobs goal repo; apiService.GET_jobs]
  /\ App.jobs w' = match listReply with
                   | Returned data => App.reconcile getTime data (App.jobs w)
                   | Thrown _ => App.jobs w
                   end
  /\ App.isBackendOnline w' = match listReply with
                              | Returned _ => true
                              | Thrown _ => false
                              end
  /\ App.isModalOpen w' = false
  /\ App.activeJobId w' = Some job_id
  /\ (~ In job_id (map id (App.jobs w')) -> App.activeJob w' = None).
Proof.
  intros Hon create w'. subst w' create. unfold run, result.
  rewrite (handleCreateJob_accepted_run getTime env goal repo persona useSearch
             job_id listReply w Hon).
  cbn [fst snd App.requests App.jobs App.isBackendOnline App.isModalOpen App.activeJobId].
  repeat (split; [reflexivity|]).
  intros Habsent. unfold App.activeJob.
  cbn [App.activeJobId App.jobs]. now apply find_id_none.
Qed.

Lemma handleCreateJob_accepted_witness :
  let create := App.handleCreateJob Sample.isoTime
                  (Sample.env "k3x9qa" "2026-11-03T05:00:03.000Z") (js "write docs")
                  None None None (Returned (js "job-7"))
                  (Returned [Sample.serverJob "job-6" "2026-11-03T04:00:00.000Z"]) in
  App.requests (run create App.initial)
  = [apiService.POST_jobs (js "write docs") None; apiService.GET_jobs]
  /\ App.activeJobId (run create App.initial) = Some (js "job-7")
  /\ App.activeJob (run create App.initial) = None.
Proof.
  intros create.
  destruct (handleCreateJob_accepted Sample.isoTime
              (Sample.env "k3x9qa" "2026-11-03T05:00:03.000Z") (js "write docs")
              None None None (js "job-7")
              (Returned [Sample.serverJob "job-6" "2026-11-03T04:00:00.000Z"])
              App.initial eq_refl)
    as (_ & Hreq & _ & _ & _ & Hact & Hnone).
  split; [exact Hreq|]. split; [exact Hact|].
  apply Hnone. vm_compute. intros [H|[]]. discriminate H.
Defined.

(** X6. With the backend taken to be online and the creation rejected, the
    handler falls back exactly as it does offline: the same simulation
    job is put in front and selected. The rejected creation is the only
    request sent, and the backend is still taken to be online, so the
    next creation asks the backend again. *)
Theorem handleCreateJob_rejected
    (getTime : jsstring -> option Z) (env : App.Surroundings) (goal : jsstring)
    (repo persona : option jsstring) (useSearch : option bool)
    (e : Exn) (listReply : outcome (list Job)) (w : App.World) :
  App.isBackendOnline w = true ->
  let create := App.handleCreateJob getTime env goal repo persona useSearch
                  (Thrown e) listReply in
  let offline := App.mkWorld (App.jobs w) (App.activeJobId w) (App.isModalOpen w)
                             false (App.requests w) in
  let w' := run create w in
  result create w = Returned tt
  /\ App.jobs w' = App.jobs (run create offline)
  /\ App.activeJobId w' = App.activeJobId (run create offline)
  /\ App.isModalOpen w' = false
  /\ App.isBackendOnline w' = true
  /\ App.requests w' = App.requests w ++ [apiService.POST_jobs goal repo].
Proof.
  intros Hon create offline w'. subst w' create. unfold run, result.
  rewrite (handleCreateJob_rejected_run getTime env goal repo persona useSearch
             e listReply w Hon).
  rewrite (handleCreateJob_offline_run getTime env goal repo persona useSearch
             (Thrown e) listReply offline eq_refl).
  repeat split.
Qed.

Lemma handleCreateJob_rejected_witness :
  let create := App.handleCreateJob Sample.isoTime
                  (Sample.env "k3x9qa" "2026-11-03T05:00:03.000Z") (js "write docs")
                  None None None (Thrown (Error (js "Failed to create job")))
                  (Returned []) in
  map id (App.jobs (run create App.initial)) = [js "sim-k3x9qa"]
  /\ App.isBackendOnline (run create App.initial) = true
  /\ App.requests (run create App.initial)
     = [apiService.POST_jobs (js "write docs") None].
Proof.
  intros create.
  destruct (handleCreateJob_rejected Sample.isoTime
              (Sample.env "k3x9qa" "2026-11-03T05:00:03.000Z") (js "write docs")
              None None None (Error (js "Failed to create job")) (Returned [])
              App.initial eq_refl)
    as (_ & _ & _ & _ & Hon & Hreq).
  split; [reflexivity|]. split; [exact Hon|exact Hreq].
Defined.

(** X7. No handler of the console throws: whatever the backend replies and
    whatever the state, polling, creating, deleting and selecting return
    normally. *)
Theorem perform_returns
    (getTime : jsstring -> option Z) (a : App.Action) (w : App.World) :
  result (App.perform getTime a) w = Returned tt.
Proof.
  destruct a as [reply|env goal repo persona useSearch createReply listReply
                 |jobId confirmed|jobId]; cbn [App.perform].
  - destruct reply; reflexivity.
  - unfold result. destruct (App.isBackendOnline w) eqn:Hon.
    + destruct createReply as [job_id|e].
      * now rewrite handleCreateJob_accepted_run.
      * now rewrite handleCreateJob_rejected_run.
    + now rewrite handleCreateJob_offline_run.
  - destruct confirmed; [|reflexivity].
    destruct w as [l [a|] m o r]; step_eff; [destruct (str_eqb a jobId)|]; reflexivity.
  - reflexivity.
Qed.

(* ================================================================== *)
(** * Clearing the whole list *)
(* ================================================================== *)

Lemma filter_twice (p q : Job -> bool) (l : list Job) :
  filter p (filter q l) = filter (fun x => q x && p x) l.
Proof.
  induction l as [|x l IH]; [reflexivity|]. cbn [filter].
  destruct (q x); cbn [filter andb]; [destruct (p x)|]; now rewrite IH.
Qed.

Lemma handleDeleteJob_run (jobId : jsstring) (confirmed : bool) (w : App.World) :
  App.handleDeleteJob jobId confirmed w
  = (Returned tt,
     if confirmed then
       App.mkWorld (filter (fun j => negb (str_eqb (id j) jobId)) (App.jobs w))
                   (match App.activeJobId w with
                    | Some a => if str_eqb a jobId then None else Some a
                    | None => None
                    end)
                   (App.isModalOpen w) (App.isBackendOnline w) (App.requests w)
     else w).
Proof.
  destruct confirmed; [|reflexivity].
  destruct w as [l [a|] m o r]; step_eff; [destruct (str_eqb a jobId)|]; reflexivity.
Qed.

(** The deletions of a list of dialogs, one after the other. *)
Lemma delete_each (confirmedEach : nat -> bool) (items : list (nat * Job)) :
  forall w : App.World,
    for_of items (fun ij => App.handleDeleteJob (id (snd ij)) (confirmedEach (fst ij))) w
    = (Returned tt,
       App.mkWorld
         (filter (fun j => negb (JobSidebar.accepted confirmedEach items (id j)))
                 (App.jobs w))
         (match App.activeJobId w with
          | Some a => if JobSidebar.accepted confirmedEach items a then None else Some a
          | None => None
          end)
         (App.isModalOpen w) (App.isBackendOnline w) (App.requests w)).
Proof.
  induction items as [|[i j] items IH]; intros w.
  - destruct w as [l [a|] m o r]; cbn [for_of ret JobSidebar.accepted existsb negb
      App.jobs App.activeJobId App.isModalOpen App.isBackendOnline App.requests];
      (rewrite filter_all by reflexivity); reflexivity.
  - cbn [for_of fst snd]. unfold bind. rewrite handleDeleteJob_run, IH.
    f_equal. unfold JobSidebar.accepted. cbn [existsb fst snd].
    destruct (confirmedEach i); cbn [andb orb].
    + cbn [App.jobs App.activeJobId App.isModalOpen App.isBackendOnline App.requests].
      f_equal.
      * rewrite filter_twice. apply filter_ext. intros x.
        destruct (str_eqb (id x) (id j)); reflexivity.
      * destruct (App.activeJobId w) as [a|]; [|reflexivity].
        destruct (str_eqb a (id j)); reflexivity.
    + destruct w as [l [a|] m o r]; reflexivity.
Qed.

Lemma in_combine_seq (l : list Job) (j : Job) :
  In j l -> forall start, exists i, In (i, j) (combine (seq start (List.length l)) l)
                                     /\ (start <= i < start + List.length l)%nat.
Proof.
  induction l as [|x l IH]; intros Hj start; [contradiction|].
  cbn [List.length seq combine]. destruct Hj as [->|Hj].
  - exists start. split; [now left|lia].
  - destruct (IH Hj (S start)) as (i & Hi & Hb). exists i. split; [now right|lia].
Qed.

(** X8. Clearing the list asks once for all and then once for each job.
    Declining the first dialog changes nothing. Accepting it deletes the
    jobs whose id is the id of a job whose own dialog is accepted, keeps
    the others in their order, unselects the selected job if it is among
    the deleted ones, and sends nothing to the backend; if every dialog
    is accepted the store is empty. *)
Theorem handleClearAll_effect (confirmedEach : nat -> bool) (w : App.World) :
  let items := combine (seq 0 (List.length (App.jobs w))) (App.jobs w) in
  let w' := run (JobSidebar.handleClearAll true confirmedEach) w in
  run (JobSidebar.handleClearAll false confirmedEach) w = w
  /\ App.jobs w'
     = filter (fun j => negb (JobSidebar.accepted confirmedEach items (id j))) (App.jobs w)
  /\ App.activeJobId w'
     = match App.activeJobId w with
       | Some a => if JobSidebar.accepted confirmedEach items a then None else Some a
       | None => None
       end
  /\ App.requests w' = App.requests w
  /\ App.isBackendOnline w' = App.isBackendOnline w
  /\ ((forall i, (i < List.length (App.jobs w))%nat -> confirmedEach i = true) ->
      App.jobs w' = []).
Proof.
  intros items w'.
  assert (Hrun : JobSidebar.handleClearAll true confirmedEach w
                 = (Returned tt,
                    App.mkWorld
                      (filter (fun j => negb (JobSidebar.accepted confirmedEach items (id j)))
                              (App.jobs w))
                      (match App.activeJobId w with
                       | Some a => if JobSidebar.accepted confirmedEach items a
                                   then None else Some a
                       | None => None
                       end)
                      (App.isModalOpen w) (App.isBackendOnline w) (App.requests w))).
  { unfold JobSidebar.handleClearAll, bind, gets. apply delete_each. }
  subst w'. unfold run. rewrite Hrun. cbn [snd App.jobs App.activeJobId App.requests
    App.isBackendOnline].
  split; [reflexivity|]. repeat (split; [reflexivity|]).
  intros Hall. apply filter_none. intros j Hj.
  destruct (in_combine_seq _ _ Hj 0) as (i & Hi & Hb).
  apply negb_false_iff. unfold JobSidebar.accepted. apply existsb_exists.
  exists (i, j). split; [exact Hi|]. cbn [fst snd].
  rewrite (Hall i) by lia. now rewrite str_eqb_refl.
Qed.

Lemma handleClearAll_effect_witness :
  App.jobs (run (JobSidebar.handleClearAll true (fun _ => true))
                (run (App.fetchJobsList Sample.isoTime
                        (Returned [Sample.serverJob "a" "2026-11-03T04:00:00.000Z";
                                   Sample.serverJob "b" "2026-11-03T05:00:00.000Z"]))
                     App.initial))
  = [].
Proof.
  apply (handleClearAll_effect (fun _ => true)). intros i _. reflexivity.
Defined.

(* ================================================================== *)
(** * Any run of the engine *)
(* ================================================================== *)

Section AnyRun.

Variable clock : nat -> jsstring.
Variable JSON_parse : jsstring -> outcome value.
Variable faultMessage : Fault -> jsstring.

(** One turn of the loop, on any value: it adds a pause and an entry, or
    less if it throws, and nothing else. *)
Lemma replayStep_any (v : value) (w : geminiService.World) :
  exists evs,
    geminiService.trace (snd (geminiService.replayStep clock v w))
    = geminiService.trace w ++ evs
    /\ forallb Spec.ofLoop evs = true.
Proof.
  destruct v as [| | b | n | s | items | props].
  1,2: exists []; split; [symmetry; apply app_nil_r|reflexivity].
  1,2,3,4:
    exists [geminiService.SetTimeout geminiService.Jitter;
            geminiService.OnLogUpdate
              (mkLog (clock (geminiService.reads w))
                     (js "undefined" ++ js " -> " ++ js "undefined") VUndefined)];
    (split; [|reflexivity]);
    unfold geminiService.replayStep; step_engine;
    cbv beta iota delta [geminiService.toString]; cbn [snd geminiService.trace];
    now rewrite <- app_assoc.
  unfold geminiService.replayStep. step_engine.
  set (kind := match own props (js "type") with Some x => x | None => VUndefined end).
  set (delay := if is_str kind (js "search") || is_str kind (js "map")
                then geminiService.Ms 3500 else geminiService.Jitter).
  destruct (geminiService.toString
              match own props (js "thought") with Some x => x | None => VUndefined end)
    as [thoughtText|e].
  - destruct (geminiService.toString
                match own props (js "action") with Some x => x | None => VUndefined end)
      as [actionText|e].
    + eexists [geminiService.SetTimeout delay; geminiService.OnLogUpdate _].
      split; [cbn [snd geminiService.trace]; now rewrite <- app_assoc|reflexivity].
    + exists [geminiService.SetTimeout delay]. split; reflexivity.
  - exists [geminiService.SetTimeout delay]. split; reflexivity.
Qed.

Lemma for_of_any (items : list value) :
  forall w : geminiService.World,
  exists evs,
    geminiService.trace (snd (for_of items (geminiService.replayStep clock) w))
    = geminiService.trace w ++ evs
    /\ forallb Spec.ofLoop evs = true.
Proof.
  induction items as [|v items IH]; intros w.
  - exists []. split; [symmetry; apply app_nil_r|reflexivity].
  - cbn [for_of]. unfold bind.
    destruct (replayStep_any v w) as (evs1 & H1 & Hq1).
    destruct (geminiService.replayStep clock v w) as [[[]|e] w1]; cbn [snd] in H1.
    + destruct (IH w1) as (evs2 & H2 & Hq2).
      exists (evs1 ++ evs2). split.
      * rewrite H2, H1. now rewrite app_assoc.
      * rewrite forallb_app. now rewrite Hq1, Hq2.
    + exists evs1. split; assumption.
Qed.

End AnyRun.

Lemma simulate_shape
    (clock : nat -> jsstring) (JSON_parse : jsstring -> outcome value)
    (faultMessage : Fault -> jsstring)
    (goal : jsstring) (repo persona : option jsstring) (useSearch : option bool)
    (reply : geminiService.Reply) :
  let call := geminiService.simulateAgentExecution clock JSON_parse faultMessage goal
                repo persona useSearch reply in
  result call geminiService.start = Returned tt
  /\ exists (body : list geminiService.Event) (final : geminiService.Event),
       geminiService.trace (run call geminiService.start)
       = geminiService.OnLogUpdate (mkLog (clock 0) geminiService.systemNotice (ty "process"))
           :: geminiService.GenerateContent (geminiService.contentsPrefix ++ goal)
           :: body ++ [final]
       /\ forallb Spec.ofLoop body = true
       /\ ((exists produced, final = geminiService.OnCompletion produced)
           \/ (exists n e, final = geminiService.OnLogUpdate
                                     (geminiService.failureLog clock faultMessage n e))).
Proof.
  cbv zeta.
  assert (Hthrow : forall (before : list geminiService.Event) n e,
             forallb Spec.ofLoop before = true ->
             exists body final,
               geminiService.OnLogUpdate
                 (mkLog (clock 0) geminiService.systemNotice (ty "process"))
               :: geminiService.GenerateContent (geminiService.contentsPrefix ++ goal)
               :: before
                  ++ [geminiService.OnLogUpdate
                        (geminiService.failureLog clock faultMessage n e)]
               = geminiService.OnLogUpdate
                   (mkLog (clock 0) geminiService.systemNotice (ty "process"))
                 :: geminiService.GenerateContent (geminiService.contentsPrefix ++ goal)
                 :: body ++ [final]
               /\ forallb Spec.ofLoop body = true
               /\ ((exists produced, final = geminiService.OnCompletion produced)
                   \/ (exists n e, final = geminiService.OnLogUpdate
                                             (geminiService.failureLog clock faultMessage n e)))).
  { intros before n e Hb. exists before, (geminiService.OnLogUpdate
      (geminiService.failureLog clock faultMessage n e)).
    split; [reflexivity|]. split; [assumption|]. right. now exists n, e. }
  set (brain := geminiService.OnLogUpdate
                  (mkLog (clock 1) geminiService.brainNotice (ty "brain"))).
  destruct reply as [e|text].
  { split; [reflexivity|]. apply (Hthrow [] 1%nat e eq_refl). }
  destruct (geminiService.parsed JSON_parse text) as [res|e] eqn:Hparsed.
  2:{ unfold run, result.
      rewrite (simulate_unparsed clock JSON_parse faultMessage goal repo persona useSearch
                 text e Hparsed).
      split; [reflexivity|]. apply (Hthrow [] 1%nat e eq_refl). }
  destruct (geminiService.stepsFault res) as [e|] eqn:Hfault.
  { unfold run, result.
    rewrite (simulate_steps_fault clock JSON_parse faultMessage goal repo persona useSearch
               text res e Hparsed Hfault).
    split; [reflexivity|]. apply (Hthrow [brain] 2%nat e eq_refl). }
  assert (Hitems : exists props items,
             res = VObj props
             /\ geminiService.iterate
                  (match own props (js "steps") with Some x => x | None => VUndefined end)
                = ret items).
  { unfold geminiService.stepsFault in Hfault. revert Hfault.
    destruct res as [| | | | | |props]; step_engine; try discriminate.
    intros Hfault. exists props.
    destruct (own props (js "steps")) as [[| | | | s | items |]|];
      try discriminate Hfault; eexists; (split; [reflexivity|]); reflexivity. }
  destruct Hitems as (props & items & -> & Hiter).
  unfold run, result, geminiService.simulateAgentExecution.
  cbv beta iota zeta delta
    [bind try_catch throw ret modify await geminiService.announceFallback
     geminiService.now geminiService.emit geminiService.reads geminiService.trace
     geminiService.start geminiService.getprop].
  rewrite Hparsed, Hiter. cbv beta iota delta [ret].
  set (w3 := geminiService.mkWorld 2 _).
  destruct (for_of_any clock items w3) as (evs & Htr & Hq).
  destruct (for_of items (geminiService.replayStep clock) w3) as [[[]|e] w4];
    cbn [snd] in Htr; cbn [fst snd geminiService.trace].
  - split; [reflexivity|].
    exists (brain :: evs), (geminiService.OnCompletion
                              match own props (js "files") with
                              | Some x => x
                              | None => VUndefined
                              end).
    split; [|split].
    + destruct w4 as [n4 t4]. cbn [geminiService.trace] in *. rewrite Htr.
      subst w3. cbn [geminiService.trace app]. reflexivity.
    + cbn [forallb Spec.ofLoop andb]. exact Hq.
    + left. eexists. reflexivity.
  - split; [reflexivity|].
    destruct w4 as [n4 t4]. cbn [geminiService.trace geminiService.reads] in *. rewrite Htr.
    subst w3. cbn [geminiService.trace app].
    apply (Hthrow (brain :: evs) n4 e). cbn [forallb Spec.ofLoop andb]. exact Hq.
Qed.

(* ================================================================== *)
(** * Callbacks of the engine in the store *)
(* ================================================================== *)

Lemma applyEvent_id (e : geminiService.Event) (j : Job) : id (Spec.applyEvent e j) = id j.
Proof. destruct e; reflexivity. Qed.

Lemma map_same (test : Job -> bool) (l : list Job) :
  map (fun j => if test j then j else j) l = l.
Proof.
  induction l as [|j l IH]; [reflexivity|]. cbn [map]. rewrite IH.
  destruct (test j); reflexivity.
Qed.

Lemma deliver_run (mockId : jsstring) (e : geminiService.Event) (w : App.World) :
  App.deliver mockId e w
  = (Returned tt,
     App.mkWorld
       (map (fun j => if str_eqb (id j) mockId then Spec.applyEvent e j else j) (App.jobs w))
       (App.activeJobId w) (App.isModalOpen w) (App.isBackendOnline w) (App.requests w)).
Proof.
  destruct w as [l a m o r]. destruct e; try reflexivity;
    cbn [App.deliver Spec.applyEvent App.jobs App.activeJobId App.isModalOpen
         App.isBackendOnline App.requests];
    rewrite (map_same (fun j => str_eqb (id j) mockId)); reflexivity.
Qed.

(** A sequence of callbacks does to the store what its events do, one
    after the other, to the jobs of that id. *)
Lemma deliver_all (mockId : jsstring) (events : list geminiService.Event) :
  forall w : App.World,
    for_of events (App.deliver mockId) w
    = (Returned tt,
       App.mkWorld
         (map (fun j => if str_eqb (id j) mockId then Spec.applyEvents events j else j)
              (App.jobs w))
         (App.activeJobId w) (App.isModalOpen w) (App.isBackendOnline w) (App.requests w)).
Proof.
  induction events as [|e events IH]; intros w.
  - destruct w as [l a m o r]. unfold Spec.applyEvents.
    cbn [for_of fold_left App.jobs App.activeJobId App.isModalOpen
         App.isBackendOnline App.requests].
    rewrite (map_same (fun j => str_eqb (id j) mockId)). reflexivity.
  - cbn [for_of]. unfold bind. rewrite deliver_run, IH.
    cbn [App.jobs App.activeJobId App.isModalOpen App.isBackendOnline App.requests].
    f_equal. f_equal. rewrite map_map. apply map_ext. intros j.
    destruct (str_eqb (id j) mockId) eqn:E.
    + rewrite applyEvent_id, E. reflexivity.
    + rewrite E. reflexivity.
Qed.

Lemma last_any (l : list value) (a d d' : value) : last (a :: l) d = last (a :: l) d'.
Proof.
  revert a. induction l as [|b l IH]; intros a; [reflexivity|].
  change (last (b :: l) d = last (b :: l) d'). apply IH.
Qed.

(** What a sequence of events leaves of a job: its identity; its log,
    longer by one line per entry; its status and files, those of the
    last completion if there is one. *)
Lemma applyEvents_fields (events : list geminiService.Event) :
  forall j : Job,
    let after := Spec.applyEvents events j in
    let w := geminiService.mkWorld 0 events in
    id after = id j
    /\ task after = task j
    /\ created_at after = created_at j
    /\ is_simulation after = is_simulation j
    /\ logs after = logs j ++ Spec.linesOf (geminiService.onLogCalls w)
    /\ status after = match geminiService.completions w with
                      | [] => status j
                      | _ :: _ => completed
                      end
    /\ files after = last (geminiService.completions w) (files j).
Proof.
  assert (Hlogs : forall e rest,
             geminiService.onLogCalls (geminiService.mkWorld 0 (e :: rest))
             = match e with
               | geminiService.OnLogUpdate log => [log]
               | _ => []
               end ++ geminiService.onLogCalls (geminiService.mkWorld 0 rest))
    by reflexivity.
  assert (Hdone : forall e rest,
             geminiService.completions (geminiService.mkWorld 0 (e :: rest))
             = match e with
               | geminiService.OnCompletion produced => [produced]
               | _ => []
               end ++ geminiService.completions (geminiService.mkWorld 0 rest))
    by reflexivity.
  induction events as [|e events IH]; intros j.
  - cbn. rewrite app_nil_r. repeat split.
  - cbv zeta in *. unfold Spec.applyEvents in *. cbn [fold_left].
    destruct (IH (Spec.applyEvent e j)) as (Hid & Htask & Hat & Hsim & Hl & Hst & Hf).
    rewrite Hid, Htask, Hat, Hsim, Hl, Hst, Hf, Hlogs, Hdone.
    set (entries := geminiService.onLogCalls (geminiService.mkWorld 0 events)).
    set (done := geminiService.completions (geminiService.mkWorld 0 events)).
    destruct e as [c|d|log|produced]; cbn [Spec.applyEvent app]; try (repeat split; fail).
    + cbn [App.appendLog id task created_at is_simulation logs status files].
      unfold Spec.linesOf. cbn [flat_map]. rewrite <- !app_assoc. repeat split.
    + cbn [App.complete id task created_at is_simulation logs status files].
      repeat split.
      * destruct done; reflexivity.
      * destruct done as [|p ps]; [reflexivity|].
        cbn [app]. change (last (produced :: p :: ps) (files j)) with (last (p :: ps) (files j)).
        apply last_any.
Qed.

(** X10. The callbacks of the engine never touch the selection, the flags or
    the backend; they keep the number, the order, the ids and the
    creation dates of the jobs; a log only grows at its end; and a status
    is left as it is or set to [completed], never to [failed]. *)
Theorem deliver_frame (mockId : jsstring) (events : list geminiService.Event)
    (w : App.World) :
  let w' := run (for_of events (App.deliver mockId)) w in
  result (for_of events (App.deliver mockId)) w = Returned tt
  /\ App.activeJobId w' = App.activeJobId w
  /\ App.isBackendOnline w' = App.isBackendOnline w
  /\ App.requests w' = App.requests w
  /\ map id (App.jobs w') = map id (App.jobs w)
  /\ map created_at (App.jobs w') = map created_at (App.jobs w)
  /\ Forall2 (fun before after =>
                (exists more, logs after = logs before ++ more)
                /\ (status after = status before \/ status after = completed)
                /\ (id before <> mockId -> after = before))
             (App.jobs w) (App.jobs w').
Proof.
  cbv zeta. unfold run, result. rewrite deliver_all.
  cbn [fst snd App.jobs App.activeJobId App.isBackendOnline App.requests].
  repeat (split; [reflexivity|]).
  assert (H : forall j, let after := if str_eqb (id j) mockId
                                     then Spec.applyEvents events j else j in
                        id after = id j /\ created_at after = created_at j
                        /\ (exists more, logs after = logs j ++ more)
                        /\ (status after = status j \/ status after = completed)
                        /\ (id j <> mockId -> after = j)).
  { intros j. cbv zeta. destruct (str_eqb (id j) mockId) eqn:E.
    - destruct (applyEvents_fields events j) as (Hid & _ & Hat & _ & Hlogs & Hst & _).
      split; [exact Hid|]. split; [exact Hat|]. split; [eexists; exact Hlogs|].
      split.
      + rewrite Hst. destruct (geminiService.completions _); [now left|now right].
      + intros Hne. apply str_eqb_eq in E. contradiction.
    - repeat split; try (now left). exists []. now rewrite app_nil_r. }
  split; [|split].
  - rewrite map_map. apply map_ext. intros j. apply H.
  - rewrite map_map. apply map_ext. intros j. apply H.
  - induction (App.jobs w) as [|j l IH]; cbn [map]; constructor; [|exact IH].
    destruct (H j) as (_ & _ & Hl & Hs & Hk). repeat split; assumption.
Qed.

(** X9. Whatever the model replies, a run returns normally and does, in
    order: the notice of the fallback, one request to the model, pauses
    and entries, and one last event, which is either the only call of
    [onCompletion] or the entry of the [catch] clause. So the model is
    asked once, [onCompletion] is called at most once and nothing follows
    it, and a run that does not complete ends with its failure entry. *)
Theorem simulateAgentExecution_shape
    (clock : nat -> jsstring) (JSON_parse : jsstring -> outcome value)
    (faultMessage : Fault -> jsstring)
    (goal : jsstring) (repo persona : option jsstring) (useSearch : option bool)
    (reply : geminiService.Reply) :
  let call := geminiService.simulateAgentExecution clock JSON_parse faultMessage goal
                repo persona useSearch reply in
  result call geminiService.start = Returned tt
  /\ exists (body : list geminiService.Event) (final : geminiService.Event),
       geminiService.trace (run call geminiService.start)
       = geminiService.OnLogUpdate (mkLog (clock 0) geminiService.systemNotice (ty "process"))
           :: geminiService.GenerateContent (geminiService.contentsPrefix ++ goal)
           :: body ++ [final]
       /\ forallb Spec.ofLoop body = true
       /\ ((exists produced, final = geminiService.OnCompletion produced)
           \/ (exists n e, final = geminiService.OnLogUpdate
                                     (geminiService.failureLog clock faultMessage n e))).
Proof. apply simulate_shape. Qed.

Lemma onLogCalls_callbacks (w : geminiService.World) (n : nat) :
  geminiService.onLogCalls (geminiService.mkWorld n (geminiService.callbacks w))
  = geminiService.onLogCalls w.
Proof.
  unfold geminiService.onLogCalls, geminiService.callbacks. cbn [geminiService.trace].
  induction (geminiService.trace w) as [|e t IH]; [reflexivity|].
  destruct e; cbn [filter flat_map app]; now rewrite IH.
Qed.

Lemma completions_callbacks (w : geminiService.World) (n : nat) :
  geminiService.completions (geminiService.mkWorld n (geminiService.callbacks w))
  = geminiService.completions w.
Proof.
  unfold geminiService.completions, geminiService.callbacks. cbn [geminiService.trace].
  induction (geminiService.trace w) as [|e t IH]; [reflexivity|].
  destruct e; cbn [filter flat_map app]; now rewrite IH.
Qed.

Lemma applyEvents_cons (e : geminiService.Event) (events : list geminiService.Event)
    (j : Job) :
  Spec.applyEvents (e :: events) j = Spec.applyEvents events (Spec.applyEvent e j).
Proof. reflexivity. Qed.

Lemma applyEvent_log (log : LogEntry) (j : Job) :
  Spec.applyEvent (geminiService.OnLogUpdate log) j = App.appendLog log j.
Proof. reflexivity. Qed.

Lemma callbacks_head
    (clock : nat -> jsstring) (JSON_parse : jsstring -> outcome value)
    (faultMessage : Fault -> jsstring)
    (goal : jsstring) (repo persona : option jsstring) (useSearch : option bool)
    (reply : geminiService.Reply) :
  let sim := run (geminiService.simulateAgentExecution clock JSON_parse faultMessage goal
                    repo persona useSearch reply) geminiService.start in
  geminiService.callbacks sim
  = geminiService.OnLogUpdate (mkLog (clock 0) geminiService.systemNotice (ty "process"))
      :: tl (geminiService.callbacks sim).
Proof.
  intros sim.
  destruct (simulate_shape clock JSON_parse faultMessage goal repo
              persona useSearch reply) as (_ & body & fin & Htr & _).
  unfold geminiService.callbacks. subst sim. rewrite Htr.
  cbn [filter]. reflexivity.
Qed.

(** The job of a simulation from its creation to the last callback of
    its run, when nothing else touches the store. *)
Lemma lifecycle
    (getTime : jsstring -> option Z) (JSON_parse : jsstring -> outcome value)
    (faultMessage : Fault -> jsstring) (env : App.Surroundings) (goal : jsstring)
    (repo persona : option jsstring) (useSearch : option bool)
    (createReply : outcome jsstring) (listReply : outcome (list Job))
    (reply : geminiService.Reply) (w : App.World) :
  App.isBackendOnline w = false ->
  ~ In (js "sim-" ++ App.randomSuffix env) (map id (App.jobs w)) ->
  let new := App.newSimulationJob env goal repo persona useSearch in
  let created := run (App.handleCreateJob getTime env goal repo persona useSearch
                        createReply listReply) w in
  let sim := run (geminiService.simulateAgentExecution (App.engineClock env) JSON_parse
                    faultMessage goal repo persona useSearch reply)
                 geminiService.start in
  let final := run (for_of (tl (geminiService.callbacks sim)) (App.deliver (id new)))
                   created in
  App.jobs final = Spec.applyEvents (geminiService.callbacks sim) new :: App.jobs w
  /\ App.activeJobId final = Some (id new)
  /\ App.requests final = App.requests w.
Proof.
  intros Hoff Hfresh new created sim final.
  pose proof (callbacks_head (App.engineClock env) JSON_parse faultMessage goal repo
                persona useSearch reply) as Hhead.
  cbv zeta in Hhead. fold sim in Hhead.
  clearbody sim.
  subst final created new. unfold run.
  rewrite deliver_all.
  rewrite (handleCreateJob_offline_run getTime env goal repo persona useSearch
             createReply listReply w Hoff).
  cbv zeta.
  destruct (newSimulationJob_fields env goal repo persona useSearch) as (Hid & _).
  set (new := App.newSimulationJob env goal repo persona useSearch) in *.
  clearbody new. rewrite <- Hid in Hfresh.
  cbn [snd App.jobs App.activeJobId App.requests map].
  rewrite (str_eqb_refl (id new)), id_appendLog, (str_eqb_refl (id new)).
  rewrite map_map.
  split; [|split; reflexivity].
  set (rest := tl (geminiService.callbacks sim)) in *. clearbody rest.
  rewrite Hhead, applyEvents_cons, applyEvent_log.
  apply (f_equal (cons _)).
  rewrite <- (map_id (App.jobs w)) at 2. apply map_ext_in. intros j Hj.
  assert (E : str_eqb (id j) (id new) = false).
  { apply str_eqb_neq. intros Heq. apply Hfresh. rewrite <- Heq. now apply in_map. }
  rewrite E. now rewrite E.
Qed.

Lemma lifecycle_fields
    (getTime : jsstring -> option Z) (JSON_parse : jsstring -> outcome value)
    (faultMessage : Fault -> jsstring) (env : App.Surroundings) (goal : jsstring)
    (repo persona : option jsstring) (useSearch : option bool)
    (createReply : outcome jsstring) (listReply : outcome (list Job))
    (reply : geminiService.Reply) (w : App.World) :
  App.isBackendOnline w = false ->
  ~ In (js "sim-" ++ App.randomSuffix env) (map id (App.jobs w)) ->
  let new := App.newSimulationJob env goal repo persona useSearch in
  let created := run (App.handleCreateJob getTime env goal repo persona useSearch
                        createReply listReply) w in
  let sim := run (geminiService.simulateAgentExecution (App.engineClock env) JSON_parse
                    faultMessage goal repo persona useSearch reply)
                 geminiService.start in
  let final := run (for_of (tl (geminiService.callbacks sim)) (App.deliver (id new)))
                   created in
  exists finished : Job,
    App.jobs final = finished :: App.jobs w
    /\ App.activeJob final = Some finished
    /\ App.requests final = App.requests w
    /\ id finished = js "sim-" ++ App.randomSuffix env
    /\ task finished = goal
    /\ is_simulation finished = Some true
    /\ logs finished = js "[" ++ App.localeNow env ++ js "] " ++ App.fallbackNotice
                       ++ [10%N] ++ Spec.linesOf (geminiService.onLogCalls sim)
    /\ status finished = match geminiService.completions sim with
                         | [] => running
                         | _ :: _ => completed
                         end
    /\ files finished = last (geminiService.completions sim) (VArr []).
Proof.
  intros Hoff Hfresh new created sim final.
  destruct (lifecycle getTime JSON_parse faultMessage env goal repo persona useSearch
              createReply listReply reply w Hoff Hfresh) as (Hjobs & Hactive & Hreq).
  fold new created sim final in Hjobs, Hactive, Hreq.
  clearbody final.
  destruct (applyEvents_fields (geminiService.callbacks sim) new)
    as (Fid & Ftask & _ & Fsim & Flogs & Fstatus & Ffiles).
  rewrite onLogCalls_callbacks in Flogs.
  rewrite completions_callbacks in Fstatus, Ffiles.
  clearbody sim.
  destruct (newSimulationJob_fields env goal repo persona useSearch)
    as (Hid & Htask & Hsim & Hstatus & Hfiles & Hlogs).
  fold new in Hid, Htask, Hsim, Hstatus, Hfiles, Hlogs.
  clearbody new.
  exists (Spec.applyEvents (geminiService.callbacks sim) new).
  split; [exact Hjobs|].
  split.
  { unfold App.activeJob. rewrite Hactive, Hjobs. cbn [find].
    rewrite Fid, str_eqb_refl. reflexivity. }
  split; [exact Hreq|].
  split; [now rewrite Fid|]. split; [now rewrite Ftask|]. split; [now rewrite Fsim|].
  split; [rewrite Flogs, Hlogs; rewrite <- !app_assoc; reflexivity|].
  split; [now rewrite Fstatus, Hstatus|].
  now rewrite Ffiles, Hfiles.
Qed.

(** X11. A simulation that succeeds, seen from the store. The backend is taken
    to be offline and the id of the new job is not in use. Once the
    callbacks of the run have been delivered, the new job is still the
    first and the selected one, it is [completed], its files are the
    [files] of the reply, and its log is the fallback line of the handler
    followed by one line per entry of the run: the two notices and then
    one line per step. Nothing was sent to the backend and the other jobs
    are as they were. *)
Theorem simulated_job_completes
    (getTime : jsstring -> option Z) (JSON_parse : jsstring -> outcome value)
    (faultMessage : Fault -> jsstring) (env : App.Surroundings) (goal : jsstring)
    (repo persona : option jsstring) (useSearch : option bool)
    (createReply : outcome jsstring) (listReply : outcome (list Job))
    (text : option jsstring) (props : list (jsstring * value)) (items : list value)
    (produced : value) (steps : list Spec.Step) (w : App.World) :
  App.isBackendOnline w = false ->
  ~ In (js "sim-" ++ App.randomSuffix env) (map id (App.jobs w)) ->
  geminiService.parsed JSON_parse text = Returned (VObj props) ->
  own props (js "steps") = Some (VArr items) ->
  own props (js "files") = Some produced ->
  Forall2 Spec.describes items steps ->
  let new := App.newSimulationJob env goal repo persona useSearch in
  let created := run (App.handleCreateJob getTime env goal repo persona useSearch
                        createReply listReply) w in
  let sim := run (geminiService.simulateAgentExecution (App.engineClock env) JSON_parse
                    faultMessage goal repo persona useSearch
                    (geminiService.Responds text))
                 geminiService.start in
  let final := run (for_of (tl (geminiService.callbacks sim)) (App.deliver (id new)))
                   created in
  exists finished : Job,
    App.jobs final = finished :: App.jobs w
    /\ App.activeJob final = Some finished
    /\ App.requests final = App.requests w
    /\ id finished = js "sim-" ++ App.randomSuffix env
    /\ is_simulation finished = Some true
    /\ status finished = completed
    /\ files finished = produced
    /\ logs finished
       = js "[" ++ App.localeNow env ++ js "] " ++ App.fallbackNotice ++ [10%N]
         ++ Spec.linesOf
              (mkLog (App.engineClock env 0) geminiService.systemNotice (ty "process")
               :: mkLog (App.engineClock env 1) geminiService.brainNotice (ty "brain")
               :: Spec.stepLogs (App.engineClock env) 2 steps).
Proof.
  intros Hoff Hfresh Hparsed Hsteps Hfiles Hitems new created sim final.
  destruct (lifecycle_fields getTime JSON_parse faultMessage env goal repo persona
              useSearch createReply listReply (geminiService.Responds text) w Hoff Hfresh)
    as (finished & Hjobs & Hactive & Hreq & Hid & _ & Hsim & Hlogs & Hstatus & Hdone).
  fold new created sim final in Hjobs, Hactive, Hreq.
  fold sim in Hlogs, Hstatus, Hdone.
  clearbody final.
  assert (Hrun : sim
                 = geminiService.mkWorld
                     (2 + List.length steps)
                     ([geminiService.OnLogUpdate
                         (mkLog (App.engineClock env 0) geminiService.systemNotice
                                (ty "process"));
                       geminiService.GenerateContent (geminiService.contentsPrefix ++ goal);
                       geminiService.OnLogUpdate
                         (mkLog (App.engineClock env 1) geminiService.brainNotice
                                (ty "brain"))]
                      ++ Spec.stepEvents (App.engineClock env) 2 steps
                      ++ [geminiService.OnCompletion produced])).
  { subst sim. unfold run.
    now rewrite (simulate_success (App.engineClock env) JSON_parse faultMessage goal repo
                   persona useSearch text props items produced steps
                   Hparsed Hsteps Hfiles Hitems). }
  clearbody sim. subst sim.
  assert (Hcalls : geminiService.onLogCalls
                     (geminiService.mkWorld
                        (2 + List.length steps)
                        ([geminiService.OnLogUpdate
                            (mkLog (App.engineClock env 0) geminiService.systemNotice
                                   (ty "process"));
                          geminiService.GenerateContent
                            (geminiService.contentsPrefix ++ goal);
                          geminiService.OnLogUpdate
                            (mkLog (App.engineClock env 1) geminiService.brainNotice
                                   (ty "brain"))]
                         ++ Spec.stepEvents (App.engineClock env) 2 steps
                         ++ [geminiService.OnCompletion produced]))
                   = mkLog (App.engineClock env 0) geminiService.systemNotice (ty "process")
                     :: mkLog (App.engineClock env 1) geminiService.brainNotice (ty "brain")
                     :: Spec.stepLogs (App.engineClock env) 2 steps).
  { unfold geminiService.onLogCalls. cbn [geminiService.trace].
    rewrite !flat_map_app, logs_of_stepEvents. cbn [flat_map app].
    now rewrite app_nil_r. }
  rewrite Hcalls in Hlogs.
  unfold geminiService.completions in Hstatus, Hdone.
  cbn [geminiService.trace] in Hstatus, Hdone.
  rewrite !flat_map_app, completions_of_stepEvents in Hstatus, Hdone.
  cbn [flat_map app last] in Hstatus, Hdone.
  exists finished.
  repeat (split; [assumption|]). exact Hlogs.
Qed.

Lemma simulated_job_completes_witness :
  let w := App.mkWorld [] None false false [apiService.GET_jobs] in
  let env := Sample.env "k3x9qa" "2026-11-03T04:51:00.000Z" in
  let created := run (App.handleCreateJob Sample.isoTime env (js "task") None None None
                        (Returned (js "never sent")) (Returned [])) w in
  let sim := Sample.simulate
               (geminiService.Responds (Some (Sample.stringify Sample.threeSteps))) in
  let final := run (for_of (tl (geminiService.callbacks sim))
                           (App.deliver (js "sim-k3x9qa"))) created in
  map status (App.jobs final) = [completed]
  /\ map files (App.jobs final) = [Sample.twoFiles].
Proof.
  intros w env created sim final.
  destruct (simulated_job_completes Sample.isoTime (Sample.parseByTable Sample.table)
              Sample.v8Message env (js "task") None None None
              (Returned (js "never sent")) (Returned [])
              (Some (Sample.stringify Sample.threeSteps))
              [(js "steps", VArr Sample.threeItems); (js "files", Sample.twoFiles)]
              Sample.threeItems Sample.twoFiles
              [Spec.mkStep (js "read") (js "open repo") (js "info");
               Spec.mkStep (js "look up") (js "query") (js "search");
               Spec.mkStep (js "write") (js "emit report") (js "success")] w)
    as (finished & Hjobs & _ & _ & _ & _ & Hstatus & Hfiles & _).
  - reflexivity.
  - intros [].
  - reflexivity.
  - reflexivity.
  - reflexivity.
  - repeat constructor; eexists; repeat split; reflexivity.
  - cbn [App.jobs] in Hjobs.
    change (App.jobs final = [finished]) in Hjobs.
    rewrite Hjobs. cbn [map].
    exact (conj (f_equal (fun x => [x]) Hstatus) (f_equal (fun x => [x]) Hfiles)).
Defined.



(* ================================================================== *)
(** * Edges of the engine *)
(* ================================================================== *)

(** X13. A response without text, or with the empty text, is replaced by the
    literal of two empty arrays: whatever [JSON.parse] would do, the run
    announces itself, asks the model once, logs the second notice, logs
    no step, and completes with no files. *)
Theorem simulateAgentExecution_no_text
    (clock : nat -> jsstring) (JSON_parse : jsstring -> outcome value)
    (faultMessage : Fault -> jsstring)
    (goal : jsstring) (repo persona : option jsstring) (useSearch : option bool) :
  let outcome_of text :=
    geminiService.simulateAgentExecution clock JSON_parse faultMessage goal repo persona
      useSearch (geminiService.Responds text) geminiService.start in
  let expected :=
    (Returned tt,
     geminiService.mkWorld 2
       [geminiService.OnLogUpdate (mkLog (clock 0) geminiService.systemNotice (ty "process"));
        geminiService.GenerateContent (geminiService.contentsPrefix ++ goal);
        geminiService.OnLogUpdate (mkLog (clock 1) geminiService.brainNotice (ty "brain"));
        geminiService.OnCompletion (VArr [])]) in
  outcome_of None = expected /\ outcome_of (Some []) = expected.
Proof. split; reflexivity. Qed.

Section EngineEdges.

Variable clock : nat -> jsstring.
Variable JSON_parse : jsstring -> outcome value.
Variable faultMessage : Fault -> jsstring.

Lemma for_of_app {W A : Type} (a b : list A) (body : A -> M W unit) (w : W) :
  for_of (a ++ b) body w
  = match for_of a body w with
    | (Returned _, w') => for_of b body w'
    | (Thrown e, w') => (Thrown e, w')
    end.
Proof.
  revert w. induction a as [|x a IH]; intros w; [reflexivity|].
  cbn [app for_of]. unfold bind.
  destruct (body x w) as [[u|e] w']; [apply IH|reflexivity].
Qed.

(** The loop stops at the first step that is [null]: reading its [type]
    throws. *)
Lemma for_of_interrupted (items rest : list value) (steps : list Spec.Step)
    (w : geminiService.World) :
  Forall2 Spec.describes items steps ->
  for_of (items ++ VNull :: rest) (geminiService.replayStep clock) w
  = (Thrown (TypeError (ReadOfNullish (js "type"))),
     geminiService.mkWorld
       (geminiService.reads w + List.length steps)
       (geminiService.trace w ++ Spec.stepEvents clock (geminiService.reads w) steps)).
Proof.
  intros Hitems. rewrite for_of_app, (for_of_described clock _ _ Hitems).
  reflexivity.
Qed.

(** A run on a reply that parses to an object with steps of the
    schema, with or without [files]. *)
Lemma simulate_replayed (goal : jsstring) (repo persona : option jsstring)
    (useSearch : option bool) (text : option jsstring)
    (props : list (jsstring * value)) (items : list value) (steps : list Spec.Step) :
  geminiService.parsed JSON_parse text = Returned (VObj props) ->
  own props (js "steps") = Some (VArr items) ->
  Forall2 Spec.describes items steps ->
  geminiService.simulateAgentExecution clock JSON_parse faultMessage goal repo persona
    useSearch (geminiService.Responds text) geminiService.start
  = (Returned tt,
     geminiService.mkWorld
       (2 + List.length steps)
       ([geminiService.OnLogUpdate (mkLog (clock 0) geminiService.systemNotice (ty "process"));
         geminiService.GenerateContent (geminiService.contentsPrefix ++ goal);
         geminiService.OnLogUpdate (mkLog (clock 1) geminiService.brainNotice (ty "brain"))]
        ++ Spec.stepEvents clock 2 steps
        ++ [geminiService.OnCompletion
              match own props (js "files") with
              | Some produced => produced
              | None => VUndefined
              end])).
Proof.
  intros Hparsed Hsteps Hitems.
  step_engine. rewrite Hparsed, Hsteps.
  rewrite (for_of_described clock _ _ Hitems).
  cbn [geminiService.reads geminiService.trace].
  rewrite <- app_assoc. reflexivity.
Qed.

Lemma simulate_interrupted (goal : jsstring) (repo persona : option jsstring)
    (useSearch : option bool) (text : option jsstring)
    (props : list (jsstring * value)) (items rest : list value)
    (steps : list Spec.Step) :
  geminiService.parsed JSON_parse text = Returned (VObj props) ->
  own props (js "steps") = Some (VArr (items ++ VNull :: rest)) ->
  Forall2 Spec.describes items steps ->
  geminiService.simulateAgentExecution clock JSON_parse faultMessage goal repo persona
    useSearch (geminiService.Responds text) geminiService.start
  = (Returned tt,
     geminiService.mkWorld
       (3 + List.length steps)
       ([geminiService.OnLogUpdate (mkLog (clock 0) geminiService.systemNotice (ty "process"));
         geminiService.GenerateContent (geminiService.contentsPrefix ++ goal);
         geminiService.OnLogUpdate (mkLog (clock 1) geminiService.brainNotice (ty "brain"))]
        ++ Spec.stepEvents clock 2 steps
        ++ [geminiService.OnLogUpdate
              (geminiService.failureLog clock faultMessage (2 + List.length steps)
                 (TypeError (ReadOfNullish (js "type"))))])).
Proof.
  intros Hparsed Hsteps Hitems.
  step_engine. rewrite Hparsed, Hsteps.
  rewrite (for_of_interrupted _ _ _ _ Hitems).
  cbn [geminiService.reads geminiService.trace].
  rewrite <- app_assoc. reflexivity.
Qed.

End EngineEdges.

Lemma pauses_of_stepEvents (clock : nat -> jsstring) (n : nat) (steps : list Spec.Step) :
  flat_map (fun e => match e with
                     | geminiService.SetTimeout d => [d]
                     | _ => []
                     end) (Spec.stepEvents clock n steps)
  = map Spec.delayOf steps.
Proof.
  revert n. induction steps as [|s l IH]; intros n; [reflexivity|].
  cbn [Spec.stepEvents flat_map app map]. now rewrite IH.
Qed.

(** X14. A reply whose steps hold a [null]. The steps before it are replayed
    as usual, each after its pause; reading the [type] of the [null]
    throws, so the run logs the failure entry with the message of that
    [TypeError] and stops: the steps after it are never logged and
    [onCompletion] is never called, although the reply has [files]. *)
Theorem simulateAgentExecution_interrupted
    (clock : nat -> jsstring) (JSON_parse : jsstring -> outcome value)
    (faultMessage : Fault -> jsstring)
    (goal : jsstring) (repo persona : option jsstring) (useSearch : option bool)
    (text : option jsstring) (props : list (jsstring * value))
    (items rest : list value) (steps : list Spec.Step) :
  geminiService.parsed JSON_parse text = Returned (VObj props) ->
  own props (js "steps") = Some (VArr (items ++ VNull :: rest)) ->
  Forall2 Spec.describes items steps ->
  let call := geminiService.simulateAgentExecution clock JSON_parse faultMessage goal
                repo persona useSearch (geminiService.Responds text) in
  let w := run call geminiService.start in
  result call geminiService.start = Returned tt
  /\ geminiService.onLogCalls w
     = mkLog (clock 0) geminiService.systemNotice (ty "process")
       :: mkLog (clock 1) geminiService.brainNotice (ty "brain")
       :: Spec.stepLogs clock 2 steps
       ++ [mkLog (clock (2 + List.length steps))
                 (geminiService.failurePrefix
                  ++ faultMessage (ReadOfNullish (js "type")))
                 (ty "error")]
  /\ geminiService.completions w = []
  /\ Spec.pauses (geminiService.trace w) = map Spec.delayOf steps.
Proof.
  intros Hparsed Hsteps Hitems call w. subst w call. unfold run, result.
  rewrite (simulate_interrupted clock JSON_parse faultMessage goal repo persona useSearch
             text props items rest steps Hparsed Hsteps Hitems).
  cbn [fst snd]. split; [reflexivity|].
  unfold geminiService.onLogCalls, geminiService.completions, Spec.pauses.
  cbn [geminiService.trace].
  rewrite !flat_map_app, logs_of_stepEvents, completions_of_stepEvents, pauses_of_stepEvents.
  cbn [flat_map app]. rewrite !app_nil_r.
  split; [reflexivity|]. split; reflexivity.
Qed.

Lemma simulateAgentExecution_interrupted_witness :
  let w := run (geminiService.simulateAgentExecution Sample.tick
                  (Sample.parseByTable [Sample.brokenSteps]) Sample.v8Message
                  (js "task") None None None
                  (geminiService.Responds (Some (Sample.stringify Sample.brokenSteps))))
               geminiService.start in
  List.length (geminiService.onLogCalls w) = 4%nat
  /\ geminiService.completions w = [].
Proof.
  intros w.
  destruct (simulateAgentExecution_interrupted Sample.tick
              (Sample.parseByTable [Sample.brokenSteps]) Sample.v8Message
              (js "task") None None None
              (Some (Sample.stringify Sample.brokenSteps))
              [(js "steps", VArr ([Sample.step "read" "open repo" "info"]
                                  ++ VNull :: [Sample.step "write" "emit report" "success"]));
               (js "files", Sample.twoFiles)]
              [Sample.step "read" "open repo" "info"]
              [Sample.step "write" "emit report" "success"]
              [Spec.mkStep (js "read") (js "open repo") (js "info")])
    as (_ & Hlogs & Hdone & _).
  - reflexivity.
  - reflexivity.
  - repeat constructor; eexists; repeat split; reflexivity.
  - split; [|exact Hdone].
    exact (f_equal (@List.length LogEntry) Hlogs).
Defined.

(** X15. The pacing of a run on a reply of the schema: the model is asked
    once, with the task after the fixed prefix, and there is exactly one
    pause per step, in the order of the steps: 3500 ms before a step of
    type [search] or [map], the random pause before any other. *)
Theorem simulateAgentExecution_pacing
    (clock : nat -> jsstring) (JSON_parse : jsstring -> outcome value)
    (faultMessage : Fault -> jsstring)
    (goal : jsstring) (repo persona : option jsstring) (useSearch : option bool)
    (text : option jsstring) (props : list (jsstring * value)) (items : list value)
    (produced : value) (steps : list Spec.Step) :
  geminiService.parsed JSON_parse text = Returned (VObj props) ->
  own props (js "steps") = Some (VArr items) ->
  own props (js "files") = Some produced ->
  Forall2 Spec.describes items steps ->
  let w := run (geminiService.simulateAgentExecution clock JSON_parse faultMessage goal
                  repo persona useSearch (geminiService.Responds text))
               geminiService.start in
  Spec.prompts (geminiService.trace w) = [geminiService.contentsPrefix ++ goal]
  /\ Spec.pauses (geminiService.trace w) = map Spec.delayOf steps
  /\ geminiService.reads w = (2 + List.length steps)%nat.
Proof.
  intros Hparsed Hsteps Hfiles Hitems w. subst w. unfold run.
  rewrite (simulate_success clock JSON_parse faultMessage goal repo persona useSearch
             text props items produced steps Hparsed Hsteps Hfiles Hitems).
  cbn [snd geminiService.trace geminiService.reads].
  unfold Spec.prompts, Spec.pauses.
  rewrite !flat_map_app, pauses_of_stepEvents.
  assert (Hnone : forall n,
             flat_map (fun e => match e with
                                | geminiService.GenerateContent contents => [contents]
                                | _ => []
                                end) (Spec.stepEvents clock n steps) = []).
  { induction steps as [|s l IH] in |- *; intros n; [reflexivity|].
    cbn [Spec.stepEvents flat_map app]. apply IH. }
  rewrite Hnone. cbn [flat_map app]. rewrite !app_nil_r.
  split; [reflexivity|]. split; reflexivity.
Qed.

Lemma simulateAgentExecution_pacing_witness :
  Spec.pauses
    (geminiService.trace
       (Sample.simulate (geminiService.Responds (Some (Sample.stringify Sample.threeSteps)))))
  = [geminiService.Jitter; geminiService.Ms 3500; geminiService.Jitter].
Proof.
  destruct (simulateAgentExecution_pacing Sample.tick (Sample.parseByTable Sample.table)
              Sample.v8Message (js "task") None None None
              (Some (Sample.stringify Sample.threeSteps))
              [(js "steps", VArr Sample.threeItems); (js "files", Sample.twoFiles)]
              Sample.threeItems Sample.twoFiles
              [Spec.mkStep (js "read") (js "open repo") (js "info");
               Spec.mkStep (js "look up") (js "query") (js "search");
               Spec.mkStep (js "write") (js "emit report") (js "success")])
    as (_ & Hpauses & _).
  - reflexivity.
  - reflexivity.
  - reflexivity.
  - repeat constructor; eexists; repeat split; reflexivity.
  - exact Hpauses.
Defined.

(* ================================================================== *)
(** * Lines written and lines read *)
(* ================================================================== *)

Lemma split_app (c : N) (a b : jsstring) :
  split c (a ++ c :: b) = split c a ++ split c b.
Proof.
  induction a as [|x a IH]; cbn [app split].
  - now rewrite N.eqb_refl.
  - destruct (N.eqb x c); [now rewrite IH|].
    rewrite IH. destruct (split c a) as [|h t] eqn:E; [|reflexivity].
    now apply split_nonempty in E.
Qed.

Lemma split_line (c : N) (l : jsstring) : ~ In c l -> split c l = [l].
Proof.
  induction l as [|x l IH]; intros H; cbn [split]; [reflexivity|].
  destruct (N.eqb x c) eqn:E.
  - apply N.eqb_eq in E. exfalso. apply H. now left.
  - rewrite IH by (intros Hin; apply H; now right). reflexivity.
Qed.

Section Lines.

Variable toLowerCase : jsstring -> jsstring.

(** The entries of a log are those of its parts between line feeds. *)
Lemma formattedLogs_app (a b : jsstring) :
  JobView.formattedLogs toLowerCase (a ++ 10%N :: b)
  = JobView.formattedLogs toLowerCase a ++ JobView.formattedLogs toLowerCase b.
Proof.
  unfold JobView.formattedLogs. now rewrite split_app, filter_app, map_app.
Qed.

Lemma plain_no_feed (l : LogEntry) :
  Spec.plain l = true -> ~ In 10%N (LogViewer.copiedLine l).
Proof.
  unfold Spec.plain, Spec.plainStamp, Spec.plainMessage, LogViewer.copiedLine.
  intros H. apply andb_true_iff in H as [Hts Hm]. apply andb_true_iff in Hm as [Hm _].
  rewrite forallb_forall in Hts, Hm.
  change (js "[") with [chr "["]. change (js "] ") with [chr "]"; 32%N].
  intros Hin. cbn [app] in Hin.
  destruct Hin as [Hin|Hin]; [discriminate Hin|].
  apply in_app_or in Hin as [Hin|Hin].
  - apply Hts in Hin. now rewrite !andb_true_iff in Hin.
  - destruct Hin as [Hin|[Hin|Hin]]; [discriminate Hin|discriminate Hin|].
    apply Hm in Hin. discriminate Hin.
Qed.

(** The line of a plain entry is read back as the entry, but for the
    type, which is decided by the message again. *)
Lemma formatLine_copied (l : LogEntry) :
  Spec.plain l = true ->
  JobView.formatLine toLowerCase (LogViewer.copiedLine l) = Spec.asShown toLowerCase l.
Proof.
  unfold Spec.plain, Spec.plainStamp, Spec.plainMessage, LogViewer.copiedLine.
  intros H. apply andb_true_iff in H as [Hts Hm]. apply andb_true_iff in Hm as [Hm Hhd].
  change (js "[") with [chr "["]. change (js "] ") with [chr "]"; 32%N].
  cbn [app].
  assert (Hbr : forallb (fun c => negb (is_line_terminator c) && negb (N.eqb c (chr "]")))
                        (timestamp l) = true).
  { rewrite forallb_forall in Hts |- *. intros c Hc. apply Hts in Hc.
    now apply andb_true_iff in Hc as [Hc _]. }
  assert (HT : ~ In (chr "T") (timestamp l)).
  { rewrite forallb_forall in Hts. intros Hin. apply Hts in Hin.
    rewrite N.eqb_refl in Hin. now rewrite andb_false_r in Hin. }
  assert (Hlead : match message l with [] => True | c :: _ => is_space c = false end).
  { destruct (message l) as [|c m]; [exact I|]. now apply negb_true_iff. }
  pose proof (tsMatch_bracketed (timestamp l) [32%N] (message l) Hbr eq_refl Hm Hlead)
    as Hmatch.
  cbn [app] in Hmatch.
  unfold JobView.formatLine. rewrite Hmatch.
  destruct (shortTimestamp_char (timestamp l)) as [Hshort _].
  now rewrite (Hshort HT).
Qed.

Lemma formattedLogs_copied (l : LogEntry) :
  Spec.plain l = true ->
  JobView.formattedLogs toLowerCase (LogViewer.copiedLine l) = [Spec.asShown toLowerCase l].
Proof.
  intros H. unfold JobView.formattedLogs.
  rewrite (split_line _ _ (plain_no_feed l H)). cbn [filter].
  rewrite trim_blank.
  assert (E : forallb is_space (LogViewer.copiedLine l) = false) by reflexivity.
  rewrite E. cbn [negb map]. now rewrite formatLine_copied.
Qed.

Lemma formattedLogs_linesOf (entries : list LogEntry) :
  forallb Spec.plain entries = true ->
  JobView.formattedLogs toLowerCase (Spec.linesOf entries)
  = map (Spec.asShown toLowerCase) entries.
Proof.
  induction entries as [|l entries IH]; intros H; [reflexivity|].
  cbn [forallb] in H. apply andb_true_iff in H as [Hl H].
  unfold Spec.linesOf. cbn [flat_map]. fold (Spec.linesOf entries).
  replace ((js "[" ++ timestamp l ++ js "] " ++ message l ++ [10%N]) ++ Spec.linesOf entries)
    with (LogViewer.copiedLine l ++ 10%N :: Spec.linesOf entries).
  - rewrite formattedLogs_app, (formattedLogs_copied l Hl), (IH H). reflexivity.
  - unfold LogViewer.copiedLine. rewrite <- !app_assoc. reflexivity.
Qed.

Lemma formattedLogs_copyToClipboard (entries : list LogEntry) :
  forallb Spec.plain entries = true ->
  JobView.formattedLogs toLowerCase (LogViewer.copyToClipboard entries)
  = map (Spec.asShown toLowerCase) entries.
Proof.
  unfold LogViewer.copyToClipboard.
  induction entries as [|l entries IH]; intros H; [reflexivity|].
  cbn [forallb] in H. apply andb_true_iff in H as [Hl H].
  destruct entries as [|l' entries].
  - cbn [map LogViewer.join]. apply (formattedLogs_copied l Hl).
  - change (LogViewer.join 10 (map LogViewer.copiedLine (l :: l' :: entries)))
      with (LogViewer.copiedLine l
            ++ 10%N :: LogViewer.join 10 (map LogViewer.copiedLine (l' :: entries))).
    rewrite formattedLogs_app, (formattedLogs_copied l Hl), (IH H). reflexivity.
Qed.

End Lines.

(** X16. The entries of a log are the entries of what stands before a line
    feed followed by the entries of what stands after it: no entry spans
    a line feed and none depends on the lines around it, so a log that
    grows by whole lines only gains entries at its end. *)
Theorem formattedLogs_concat (toLowerCase : jsstring -> jsstring) (a b : jsstring) :
  JobView.formattedLogs toLowerCase (a ++ [10%N] ++ b)
  = JobView.formattedLogs toLowerCase a ++ JobView.formattedLogs toLowerCase b.
Proof. apply formattedLogs_app. Qed.

(** X17. The text that the log viewer copies is read back by the formatter as
    the entries that were copied: as many, in their order, each with its
    timestamp and its message, when these are plain. The type is not in
    the text: it is decided by the message again, so the entries come
    back exactly when each had the type of its message. *)
Theorem copyToClipboard_read_back
    (toLowerCase : jsstring -> jsstring) (entries : list LogEntry) :
  forallb Spec.plain entries = true ->
  JobView.formattedLogs toLowerCase (LogViewer.copyToClipboard entries)
  = map (Spec.asShown toLowerCase) entries
  /\ (Forall (fun l => type_ l = JobView.classify toLowerCase (message l)) entries ->
      JobView.formattedLogs toLowerCase (LogViewer.copyToClipboard entries) = entries).
Proof.
  intros H. rewrite (formattedLogs_copyToClipboard toLowerCase entries H).
  split; [reflexivity|]. intros Hty.
  rewrite <- (map_id entries) at 2. apply map_ext_in. intros l Hl.
  rewrite Forall_forall in Hty. specialize (Hty l Hl).
  unfold Spec.asShown. rewrite <- Hty. now destruct l.
Qed.

Lemma copyToClipboard_read_back_witness :
  JobView.formattedLogs Sample.asciiLower
    (LogViewer.copyToClipboard
       [mkLog (js "10:00:01") (js "[GIT] clone") (ty "git");
        mkLog (js "10:00:02") (js "build failed") (ty "success")])
  = [mkLog (js "10:00:01") (js "[GIT] clone") (ty "git");
     mkLog (js "10:00:02") (js "build failed") (ty "error")].
Proof.
  destruct (copyToClipboard_read_back Sample.asciiLower
              [mkLog (js "10:00:01") (js "[GIT] clone") (ty "git");
               mkLog (js "10:00:02") (js "build failed") (ty "success")])
    as [Hshown _].
  - reflexivity.
  - exact Hshown.
Defined.

(** X18. What [onLogUpdate] writes, the formatter reads. When the log of a job
    is empty or ends with a line feed, appending a plain entry adds
    exactly one entry to what the console shows, after the others, with
    the timestamp and the message of the entry. Its type is not the one
    that was passed: it is the type of its message. *)
Theorem appendLog_shown
    (toLowerCase : jsstring -> jsstring) (log : LogEntry) (j : Job) :
  Spec.plain log = true ->
  (logs j = [] \/ exists before, logs j = before ++ [10%N]) ->
  JobView.formattedLogs toLowerCase (logs (App.appendLog log j))
  = JobView.formattedLogs toLowerCase (logs j) ++ [Spec.asShown toLowerCase log].
Proof.
  intros Hplain Hlogs.
  destruct (appendLog_fields log j) as (_ & _ & _ & _ & _ & _ & Alogs).
  rewrite Alogs. clear Alogs.
  replace (js "[" ++ timestamp log ++ js "] " ++ message log ++ [10%N])
    with (LogViewer.copiedLine log ++ [10%N])
    by (unfold LogViewer.copiedLine; now rewrite <- !app_assoc).
  assert (Hline : JobView.formattedLogs toLowerCase (LogViewer.copiedLine log ++ [10%N])
                  = [Spec.asShown toLowerCase log]).
  { change (LogViewer.copiedLine log ++ [10%N])
      with (LogViewer.copiedLine log ++ 10%N :: []).
    rewrite formattedLogs_app, (formattedLogs_copied toLowerCase log Hplain).
    reflexivity. }
  destruct Hlogs as [-> | (before & ->)].
  - cbn [app]. rewrite Hline. reflexivity.
  - rewrite <- app_assoc. cbn [app].
    rewrite (formattedLogs_app toLowerCase before (LogViewer.copiedLine log ++ [10%N])).
    rewrite Hline.
    rewrite (formattedLogs_app toLowerCase before []).
    change (JobView.formattedLogs toLowerCase []) with (@nil LogEntry).
    now rewrite app_nil_r.
Qed.

Lemma appendLog_shown_witness :
  let j := mkJob (js "sim-a") (js "draft") None None None running
                 (js "2026-11-03T04:00:00.000Z") (js "[t] x" ++ [10%N]) (VArr []) None
                 (Some true) in
  JobView.formattedLogs Sample.asciiLower
    (logs (App.appendLog (mkLog (js "10:00:02") (js "fetch failed") (ty "search")) j))
  = [mkLog (js "t") (js "x") (ty "info");
     mkLog (js "10:00:02") (js "fetch failed") (ty "error")].
Proof.
  intros j.
  exact (appendLog_shown Sample.asciiLower
           (mkLog (js "10:00:02") (js "fetch failed") (ty "search")) j
           eq_refl (or_intror (ex_intro _ (js "[t] x") eq_refl))).
Defined.

(** X19. What the console shows of a simulation, whatever the model replied.
    The backend is taken to be offline and the id of the new job is not
    in use; the fallback line and the entries of the run are plain. Once
    the callbacks of the run have been delivered, the log of the new job
    reads as the fallback line of the handler followed by the entries of
    the run, one entry each, in their order and with their timestamps and
    messages; each is shown with the type of its message, not with the
    type that the engine passed. *)
Theorem simulated_job_console
    (toLowerCase : jsstring -> jsstring)
    (getTime : jsstring -> option Z) (JSON_parse : jsstring -> outcome value)
    (faultMessage : Fault -> jsstring) (env : App.Surroundings) (goal : jsstring)
    (repo persona : option jsstring) (useSearch : option bool)
    (createReply : outcome jsstring) (listReply : outcome (list Job))
    (reply : geminiService.Reply) (w : App.World) :
  App.isBackendOnline w = false ->
  ~ In (js "sim-" ++ App.randomSuffix env) (map id (App.jobs w)) ->
  Spec.plainStamp (App.localeNow env) = true ->
  forallb Spec.plain
    (geminiService.onLogCalls
       (run (geminiService.simulateAgentExecution (App.engineClock env) JSON_parse
               faultMessage goal repo persona useSearch reply)
            geminiService.start)) = true ->
  let new := App.newSimulationJob env goal repo persona useSearch in
  let created := run (App.handleCreateJob getTime env goal repo persona useSearch
                        createReply listReply) w in
  let sim := run (geminiService.simulateAgentExecution (App.engineClock env) JSON_parse
                    faultMessage goal repo persona useSearch reply)
                 geminiService.start in
  let final := run (for_of (tl (geminiService.callbacks sim)) (App.deliver (id new)))
                   created in
  exists finished : Job,
    App.activeJob final = Some finished
    /\ JobView.formattedLogs toLowerCase (logs finished)
       = mkLog (App.localeNow env) App.fallbackNotice
               (JobView.classify toLowerCase App.fallbackNotice)
         :: map (Spec.asShown toLowerCase) (geminiService.onLogCalls sim).
Proof.
  intros Hoff Hfresh Hstamp Hplain new created sim final.
  fold sim in Hplain.
  destruct (lifecycle_fields getTime JSON_parse faultMessage env goal repo persona
              useSearch createReply listReply reply w Hoff Hfresh)
    as (finished & _ & Hactive & _ & _ & _ & _ & Hlogs & _).
  fold new created sim final in Hactive. fold sim in Hlogs.
  clearbody final sim.
  exists finished. split; [exact Hactive|].
  rewrite Hlogs.
  set (first := mkLog (App.localeNow env) App.fallbackNotice (ty "process")).
  replace (js "[" ++ App.localeNow env ++ js "] " ++ App.fallbackNotice ++ [10%N]
           ++ Spec.linesOf (geminiService.onLogCalls sim))
    with (Spec.linesOf (first :: geminiService.onLogCalls sim)).
  - rewrite formattedLogs_linesOf; [reflexivity|].
    cbn [forallb]. rewrite Hplain, andb_true_r.
    unfold Spec.plain. cbn [timestamp message first]. rewrite Hstamp. reflexivity.
  - unfold Spec.linesOf. cbn [flat_map timestamp message first].
    now rewrite <- !app_assoc.
Qed.

Lemma simulated_job_console_witness :
  let w := App.mkWorld [] None false false [apiService.GET_jobs] in
  let env := Sample.env "k3x9qa" "2026-11-03T04:51:00.000Z" in
  let created := run (App.handleCreateJob Sample.isoTime env (js "task") None None None
                        (Returned (js "never sent")) (Returned [])) w in
  let sim := Sample.simulate (geminiService.Rejects (Error (js "503 Service Unavailable"))) in
  let final := run (for_of (tl (geminiService.callbacks sim))
                           (App.deliver (js "sim-k3x9qa"))) created in
  exists finished : Job,
    App.activeJob final = Some finished
    /\ map type_ (JobView.formattedLogs Sample.asciiLower (logs finished))
       = [ty "process"; ty "process"; ty "info"].
Proof.
  intros w env created sim final.
  destruct (simulated_job_console Sample.asciiLower Sample.isoTime
              (Sample.parseByTable Sample.table)
              Sample.v8Message env (js "task") None None None
              (Returned (js "never sent")) (Returned [])
              (geminiService.Rejects (Error (js "503 Service Unavailable"))) w)
    as (finished & Hactive & Hshown).
  - reflexivity.
  - intros [].
  - reflexivity.
  - reflexivity.
  - exists finished. split; [exact Hactive|].
    exact (f_equal (map type_) Hshown).
Defined.

(* ================================================================== *)
(** * The files of a job on the screen *)
(* ================================================================== *)

Lemma digitsOf_zero (u : Decimal.uint) :
  FileBrowser.digitsOf u = [48%N] -> u = Decimal.D0 Decimal.Nil.
Proof.
  destruct u as [|u|u|u|u|u|u|u|u|u|u]; cbn [FileBrowser.digitsOf]; intros H;
    try discriminate H.
  injection H as H. destruct u; cbn [FileBrowser.digitsOf] in H; try discriminate H.
  reflexivity.
Qed.

Lemma isZero_number (n : nat) :
  FileBrowser.isZero (FileBrowser.number n) = Nat.eqb n 0.
Proof.
  unfold FileBrowser.isZero, FileBrowser.number.
  destruct n as [|n]; [reflexivity|]. cbn [Nat.eqb].
  destruct (str_eqb (FileBrowser.digitsOf (Nat.to_uint (S n))) (js "0")) eqn:E;
    [|reflexivity].
  apply str_eqb_eq in E. change (js "0") with [48%N] in E.
  apply digitsOf_zero in E.
  change (Decimal.D0 Decimal.Nil) with (Nat.to_uint 0) in E.
  apply DecimalNat.Unsigned.to_uint_inj in E. discriminate E.
Qed.

Lemma card_schema (jobId : jsstring) (isSimulation : bool) (file : value) :
  geminiService.fileMatches file = true ->
  exists c : FileBrowser.Card,
    FileBrowser.card jobId isSimulation file = Returned c
    /\ Spec.shows jobId isSimulation file c
    /\ FileBrowser.renderable (FileBrowser.fileName c) = true
    /\ FileBrowser.renderable (FileBrowser.fileSize c) = true.
Proof.
  unfold geminiService.fileMatches, geminiService.isString, Spec.shows.
  destruct file as [| | | | | |props]; try discriminate.
  intros H. apply andb_true_iff in H as [H Hsize]. apply andb_true_iff in H as [Hname Hpath].
  unfold FileBrowser.card, FileBrowser.field.
  destruct (own props (js "name")) as [[| | | |name| |]|]; try discriminate Hname.
  destruct (own props (js "path")) as [[| | | |path| |]|]; try discriminate Hpath.
  destruct (own props (js "size")) as [[| | | |size| |]|]; try discriminate Hsize;
    destruct isSimulation; cbn [geminiService.toString negb];
    eexists; (split; [reflexivity|]);
    cbn [FileBrowser.fileName FileBrowser.fileSize FileBrowser.anchor];
    (split; [eexists _, _; repeat split|]);
    (split; [reflexivity|]);
    cbn [FileBrowser.truthy_value]; try reflexivity;
    now destruct (truthy_str size).
Qed.

Lemma cardsOf_schema (jobId : jsstring) (isSimulation : bool) (items : list value) :
  forallb geminiService.fileMatches items = true ->
  exists cards,
    FileBrowser.cardsOf jobId isSimulation items = Some cards
    /\ Forall2 (Spec.shows jobId isSimulation) items cards.
Proof.
  induction items as [|file items IH]; intros H.
  - exists []. split; [reflexivity|constructor].
  - cbn [forallb] in H. apply andb_true_iff in H as [Hfile H].
    destruct (IH H) as (cards & Hcards & Hall).
    destruct (card_schema jobId isSimulation file Hfile)
      as (c & Hcard & Hshows & Hname & Hsize).
    exists (c :: cards). split.
    + cbn [FileBrowser.cardsOf]. rewrite Hcard, Hcards, Hname, Hsize. reflexivity.
    + now constructor.
Qed.

Lemma render_schema (jobId : jsstring) (isSimulation : bool) (items : list value) :
  forallb geminiService.fileMatches items = true ->
  exists cards,
    FileBrowser.cardsOf jobId isSimulation items = Some cards
    /\ FileBrowser.render jobId (VArr items) isSimulation
       = match items with
         | [] => FileBrowser.EmptyState
         | _ :: _ => FileBrowser.Grid cards
         end.
Proof.
  intros H. destruct (cardsOf_schema jobId isSimulation items H) as (cards & Hcards & _).
  exists cards. split; [exact Hcards|].
  unfold FileBrowser.render. cbn [FileBrowser.lengthOf].
  rewrite isZero_number. destruct items as [|file items]; [reflexivity|].
  cbn [List.length Nat.eqb]. now rewrite Hcards.
Qed.

(** X20. Files of the schema are always rendered: no file, the empty state;
    otherwise one card per file, in the order of the files, with the name
    of its file and its size, or [Unknown size] when the file has none.
    Outside a simulation each card has a download anchor, whose link is
    the download link of the backend for the job and the name; in a
    simulation no anchor is rendered. *)
Theorem render_schema_files (jobId : jsstring) (isSimulation : bool) (items : list value) :
  forallb geminiService.fileMatches items = true ->
  exists cards : list FileBrowser.Card,
    FileBrowser.render jobId (VArr items) isSimulation
    = match items with
      | [] => FileBrowser.EmptyState
      | _ :: _ => FileBrowser.Grid cards
      end
    /\ Forall2 (fun file c =>
                  exists (name : jsstring) (size : value),
                    FileBrowser.field file "name" = Returned (VStr name)
                    /\ FileBrowser.field file "size" = Returned size
                    /\ FileBrowser.fileName c = VStr name
                    /\ FileBrowser.fileSize c
                       = (if FileBrowser.truthy_value size then size
                          else VStr (js "Unknown size"))
                    /\ FileBrowser.anchor c
                       = if isSimulation then None
                         else Some (apiService.getDownloadUrl jobId name))
               items cards.
Proof.
  intros H.
  destruct (cardsOf_schema jobId isSimulation items H) as (cards & Hcards & Hall).
  destruct (render_schema jobId isSimulation items H) as (cards' & Hcards' & Hrender).
  rewrite Hcards in Hcards'. injection Hcards' as <-.
  exists cards. split; [exact Hrender|exact Hall].
Qed.

Lemma render_schema_files_witness :
  exists cards,
    FileBrowser.render (js "job-7") Sample.twoFiles false = FileBrowser.Grid cards
    /\ map FileBrowser.anchor cards
       = [Some (js "http://localhost:8000/jobs/job-7/download/a.md");
          Some (js "http://localhost:8000/jobs/job-7/download/b.md")].
Proof.
  destruct (render_schema_files (js "job-7") false
              [Sample.file "a.md" "output/a.md"; Sample.file "b.md" "output/b.md"])
    as (cards & Hrender & Hall).
  - reflexivity.
  - exists cards. split; [exact Hrender|].
    inversion Hall as [|f1 c1 l1 r1 (n1 & s1 & H1 & _ & _ & _ & U1) Hrest]; subst.
    inversion Hrest as [|f2 c2 l2 r2 (n2 & s2 & H2 & _ & _ & _ & U2) Hrest']; subst.
    inversion Hrest'; subst.
    injection H1 as <-. injection H2 as <-.
    cbn [map]. rewrite U1, U2. vm_compute. reflexivity.
Defined.

Lemma stepMatches_describes (items : list value) :
  forallb geminiService.stepMatches items = true ->
  exists steps, Forall2 Spec.describes items steps.
Proof.
  induction items as [|v items IH]; intros H.
  - exists []. constructor.
  - cbn [forallb] in H. apply andb_true_iff in H as [Hv H].
    destruct (IH H) as (steps & Hsteps).
    unfold geminiService.stepMatches, geminiService.isString, geminiService.isStepType in Hv.
    destruct v as [| | | | | |props]; try discriminate Hv.
    destruct (own props (js "thought")) as [[| | | |th| |]|] eqn:Eth; try discriminate Hv.
    destruct (own props (js "action")) as [[| | | |ac| |]|] eqn:Eac; try discriminate Hv.
    destruct (own props (js "type")) as [[| | | |ki| |]|] eqn:Eki; try discriminate Hv.
    exists (Spec.mkStep th ac ki :: steps). constructor; [|exact Hsteps].
    exists props. repeat split; assumption.
Qed.

(** The job of a simulation whose steps were all replayed. *)
Lemma lifecycle_replayed
    (getTime : jsstring -> option Z) (JSON_parse : jsstring -> outcome value)
    (faultMessage : Fault -> jsstring) (env : App.Surroundings) (goal : jsstring)
    (repo persona : option jsstring) (useSearch : option bool)
    (createReply : outcome jsstring) (listReply : outcome (list Job))
    (text : option jsstring) (props : list (jsstring * value)) (items : list value)
    (steps : list Spec.Step) (w : App.World) :
  App.isBackendOnline w = false ->
  ~ In (js "sim-" ++ App.randomSuffix env) (map id (App.jobs w)) ->
  geminiService.parsed JSON_parse text = Returned (VObj props) ->
  own props (js "steps") = Some (VArr items) ->
  Forall2 Spec.describes items steps ->
  let new := App.newSimulationJob env goal repo persona useSearch in
  let created := run (App.handleCreateJob getTime env goal repo persona useSearch
                        createReply listReply) w in
  let sim := run (geminiService.simulateAgentExecution (App.engineClock env) JSON_parse
                    faultMessage goal repo persona useSearch
                    (geminiService.Responds text))
                 geminiService.start in
  let final := run (for_of (tl (geminiService.callbacks sim)) (App.deliver (id new)))
                   created in
  exists finished : Job,
    App.activeJob final = Some finished
    /\ id finished = js "sim-" ++ App.randomSuffix env
    /\ is_simulation finished = Some true
    /\ status finished = completed
    /\ files finished = match own props (js "files") with
                        | Some produced => produced
                        | None => VUndefined
                        end.
Proof.
  intros Hoff Hfresh Hparsed Hsteps Hitems new created sim final.
  destruct (lifecycle_fields getTime JSON_parse faultMessage env goal repo persona
              useSearch createReply listReply (geminiService.Responds text) w Hoff Hfresh)
    as (finished & _ & Hactive & _ & Hid & _ & Hsim & _ & Hstatus & Hdone).
  fold new created sim final in Hactive. fold sim in Hstatus, Hdone.
  clearbody final.
  assert (Hrun : geminiService.completions sim
                 = [match own props (js "files") with
                    | Some produced => produced
                    | None => VUndefined
                    end]).
  { subst sim. unfold run.
    rewrite (simulate_replayed (App.engineClock env) JSON_parse faultMessage goal repo
               persona useSearch text props items steps Hparsed Hsteps Hitems).
    unfold geminiService.completions. cbn [snd geminiService.trace].
    rewrite !flat_map_app, completions_of_stepEvents. reflexivity. }
  clearbody sim. rewrite Hrun in Hstatus, Hdone. cbn [last] in Hdone.
  exists finished. repeat (split; [assumption|]). exact Hdone.
Qed.

Lemma jobView_nullish (toLowerCase : jsstring -> jsstring) (job : Job) (filesTab : bool) :
  files job = VUndefined \/ files job = VNull ->
  FileBrowser.jobView toLowerCase job filesTab = FileBrowser.RenderFails.
Proof. unfold FileBrowser.jobView. now intros [-> | ->]. Qed.

(** X21. A reply with steps of the schema and no [files]. The run calls
    [onCompletion] with [undefined], so the job is marked [completed] and
    its files are [undefined]; from then on the view of the job cannot be
    rendered on either tab, because the badge of the files tab reads the
    length of the files. *)
Theorem reply_without_files_breaks_view
    (toLowerCase : jsstring -> jsstring)
    (getTime : jsstring -> option Z) (JSON_parse : jsstring -> outcome value)
    (faultMessage : Fault -> jsstring) (env : App.Surroundings) (goal : jsstring)
    (repo persona : option jsstring) (useSearch : option bool)
    (createReply : outcome jsstring) (listReply : outcome (list Job))
    (text : option jsstring) (props : list (jsstring * value)) (items : list value)
    (steps : list Spec.Step) (w : App.World) :
  App.isBackendOnline w = false ->
  ~ In (js "sim-" ++ App.randomSuffix env) (map id (App.jobs w)) ->
  geminiService.parsed JSON_parse text = Returned (VObj props) ->
  own props (js "steps") = Some (VArr items) ->
  Forall2 Spec.describes items steps ->
  own props (js "files") = None ->
  let new := App.newSimulationJob env goal repo persona useSearch in
  let created := run (App.handleCreateJob getTime env goal repo persona useSearch
                        createReply listReply) w in
  let sim := run (geminiService.simulateAgentExecution (App.engineClock env) JSON_parse
                    faultMessage goal repo persona useSearch
                    (geminiService.Responds text))
                 geminiService.start in
  let final := run (for_of (tl (geminiService.callbacks sim)) (App.deliver (id new)))
                   created in
  exists finished : Job,
    App.activeJob final = Some finished
    /\ status finished = completed
    /\ files finished = VUndefined
    /\ forall filesTab : bool,
         FileBrowser.jobView toLowerCase finished filesTab = FileBrowser.RenderFails.
Proof.
  intros Hoff Hfresh Hparsed Hsteps Hitems Hnone new created sim final.
  destruct (lifecycle_replayed getTime JSON_parse faultMessage env goal repo persona
              useSearch createReply listReply text props items steps w
              Hoff Hfresh Hparsed Hsteps Hitems)
    as (finished & Hactive & _ & _ & Hstatus & Hfiles).
  fold new created sim final in Hactive. clearbody final.
  rewrite Hnone in Hfiles.
  exists finished. split; [exact Hactive|]. split; [exact Hstatus|].
  split; [exact Hfiles|].
  intros filesTab. apply jobView_nullish. now left.
Qed.

Lemma reply_without_files_breaks_view_witness :
  let w := App.mkWorld [] None false false [apiService.GET_jobs] in
  let env := Sample.env "k3x9qa" "2026-11-03T04:51:00.000Z" in
  let created := run (App.handleCreateJob Sample.isoTime env (js "task") None None None
                        (Returned (js "never sent")) (Returned [])) w in
  let sim := Sample.simulate (geminiService.Responds (Some (Sample.stringify Sample.noFiles))) in
  let final := run (for_of (tl (geminiService.callbacks sim))
                           (App.deliver (js "sim-k3x9qa"))) created in
  exists finished : Job,
    App.activeJob final = Some finished
    /\ status finished = completed
    /\ FileBrowser.jobView Sample.asciiLower finished false = FileBrowser.RenderFails.
Proof.
  intros w env created sim final.
  destruct (reply_without_files_breaks_view Sample.asciiLower Sample.isoTime
              (Sample.parseByTable Sample.table)
              Sample.v8Message env (js "task") None None None
              (Returned (js "never sent")) (Returned [])
              (Some (Sample.stringify Sample.noFiles))
              [(js "steps", VArr [])] [] [] w)
    as (finished & Hactive & Hstatus & _ & Hview).
  - reflexivity.
  - intros [].
  - reflexivity.
  - reflexivity.
  - constructor.
  - reflexivity.
  - exists finished. split; [exact Hactive|]. split; [exact Hstatus|]. apply Hview.
Defined.

(** X22. A reply of the schema is always rendered. The backend is taken to be
    offline and the id of the new job is not in use; the reply parses to
    a value that matches the schema of the request. Once the callbacks of
    the run have been delivered, the job is [completed], the logs tab
    shows its formatted log, and the files tab shows the empty state when
    the reply has no file and otherwise one card per file, in the order of
    the files, each with the name of its file and without a download
    anchor: a simulated file never gets a download link of the backend. *)
Theorem schema_reply_is_rendered
    (toLowerCase : jsstring -> jsstring)
    (getTime : jsstring -> option Z) (JSON_parse : jsstring -> outcome value)
    (faultMessage : Fault -> jsstring) (env : App.Surroundings) (goal : jsstring)
    (repo persona : option jsstring) (useSearch : option bool)
    (createReply : outcome jsstring) (listReply : outcome (list Job))
    (text : option jsstring) (reply : value) (w : App.World) :
  App.isBackendOnline w = false ->
  ~ In (js "sim-" ++ App.randomSuffix env) (map id (App.jobs w)) ->
  geminiService.parsed JSON_parse text = Returned reply ->
  geminiService.matchesSchema reply = true ->
  let new := App.newSimulationJob env goal repo persona useSearch in
  let created := run (App.handleCreateJob getTime env goal repo persona useSearch
                        createReply listReply) w in
  let sim := run (geminiService.simulateAgentExecution (App.engineClock env) JSON_parse
                    faultMessage goal repo persona useSearch
                    (geminiService.Responds text))
                 geminiService.start in
  let final := run (for_of (tl (geminiService.callbacks sim)) (App.deliver (id new)))
                   created in
  exists (finished : Job) (produced : list value) (cards : list FileBrowser.Card),
    App.activeJob final = Some finished
    /\ status finished = completed
    /\ files finished = VArr produced
    /\ (exists props, reply = VObj props /\ own props (js "files") = Some (VArr produced))
    /\ FileBrowser.jobView toLowerCase finished false
       = FileBrowser.LogsTab (JobView.formattedLogs toLowerCase (logs finished))
    /\ FileBrowser.jobView toLowerCase finished true
       = FileBrowser.FilesTab match produced with
                              | [] => FileBrowser.EmptyState
                              | _ :: _ => FileBrowser.Grid cards
                              end
    /\ List.length cards = List.length produced
    /\ Forall2 (fun file c =>
                  exists name : jsstring,
                    FileBrowser.field file "name" = Returned (VStr name)
                    /\ FileBrowser.fileName c = VStr name
                    /\ FileBrowser.anchor c = None)
               produced cards.
Proof.
  intros Hoff Hfresh Hparsed Hschema new created sim final.
  unfold geminiService.matchesSchema in Hschema.
  destruct reply as [| | | | | |props]; try discriminate Hschema.
  destruct (own props (js "steps")) as [[| | | | |items|]|] eqn:Esteps;
    try discriminate Hschema.
  destruct (own props (js "files")) as [[| | | | |produced|]|] eqn:Efiles;
    try discriminate Hschema.
  apply andb_true_iff in Hschema as [Hsteps Hfiles].
  destruct (stepMatches_describes items Hsteps) as (steps & Hitems).
  destruct (lifecycle_replayed getTime JSON_parse faultMessage env goal repo persona
              useSearch createReply listReply text props items steps w
              Hoff Hfresh Hparsed Esteps Hitems)
    as (finished & Hactive & Hid & Hsim & Hstatus & Hdone).
  fold new created sim final in Hactive. clearbody final.
  rewrite Efiles in Hdone.
  destruct (cardsOf_schema (id finished) true produced Hfiles) as (cards & Hcards & Hall).
  destruct (render_schema (id finished) true produced Hfiles)
    as (cards' & Hcards' & Hrender).
  rewrite Hcards in Hcards'. injection Hcards' as <-.
  exists finished, produced, cards.
  split; [exact Hactive|]. split; [exact Hstatus|]. split; [exact Hdone|].
  split; [exists props; split; [reflexivity|exact Efiles]|].
  unfold FileBrowser.jobView. rewrite Hdone, Hsim.
  cbn [FileBrowser.lengthOf App.truthy].
  change (FileBrowser.badge (FileBrowser.number (List.length produced)))
    with (@Returned unit tt).
  split; [reflexivity|]. rewrite Hrender.
  split; [now destruct produced|].
  split; [symmetry; exact (Forall2_length Hall)|].
  clear - Hall.
  induction Hall as [|file c items cards (name & size & Hname & _ & Hshown & _ & Hurl) _ IH];
    constructor; [|assumption].
  exists name. repeat split; assumption.
Qed.

Lemma schema_reply_is_rendered_witness :
  let w := App.mkWorld [] None false false [apiService.GET_jobs] in
  let env := Sample.env "k3x9qa" "2026-11-03T04:51:00.000Z" in
  let created := run (App.handleCreateJob Sample.isoTime env (js "task") None None None
                        (Returned (js "never sent")) (Returned [])) w in
  let sim := Sample.simulate
               (geminiService.Responds (Some (Sample.stringify Sample.threeSteps))) in
  let final := run (for_of (tl (geminiService.callbacks sim))
                           (App.deliver (js "sim-k3x9qa"))) created in
  exists finished : Job,
    App.activeJob final = Some finished
    /\ status finished = completed
    /\ FileBrowser.jobView Sample.asciiLower finished false
       = FileBrowser.LogsTab (JobView.formattedLogs Sample.asciiLower (logs finished)).
Proof.
  intros w env created sim final.
  destruct (schema_reply_is_rendered Sample.asciiLower Sample.isoTime
              (Sample.parseByTable Sample.table)
              Sample.v8Message env (js "task") None None None
              (Returned (js "never sent")) (Returned [])
              (Some (Sample.stringify Sample.threeSteps)) Sample.threeSteps w)
    as (finished & produced & cards & Hactive & Hstatus & _ & _ & Hlogs & _).
  - reflexivity.
  - intros [].
  - reflexivity.
  - reflexivity.
  - exists finished.
    split; [exact Hactive|]. split; [exact Hstatus|exact Hlogs].
Defined.

(* ================================================================== *)
(** * What every state of the console satisfies *)
(* ================================================================== *)

Lemma startsWith_app (p s : jsstring) : startsWith (p ++ s) p = true.
Proof.
  induction p as [|x p IH]; [reflexivity|].
  cbn [app startsWith]. now rewrite N.eqb_refl, IH.
Qed.

Lemma marked_applyEvents (events : list geminiService.Event) (j : Job) :
  Spec.marked (Spec.applyEvents events j) = Spec.marked j.
Proof.
  destruct (applyEvents_fields events j) as (Hid & _ & _ & Hsim & _).
  unfold Spec.marked. now rewrite Hid, Hsim.
Qed.

Lemma marked_new (env : App.Surroundings) (goal : jsstring)
    (repo persona : option jsstring) (useSearch : option bool) :
  Spec.marked (App.newSimulationJob env goal repo persona useSearch) = true.
Proof.
  destruct (newSimulationJob_fields env goal repo persona useSearch)
    as (Hid & _ & Hsim & _).
  unfold Spec.marked. rewrite Hid, Hsim. apply startsWith_app.
Qed.

Section Marked.

Variable getTime : jsstring -> option Z.

Lemma marked_reconcile (data prev : list Job) :
  forallb Spec.marked prev = true ->
  forallb Spec.marked (App.reconcile getTime data prev) = true.
Proof.
  intros H. rewrite forallb_forall in H |- *. intros x Hx.
  unfold App.reconcile in Hx. apply in_sort, fold_push_origin in Hx as [Hx|Hx].
  - apply in_map_iff in Hx as (s & <- & _). reflexivity.
  - apply filter_In in Hx as [Hx _]. now apply H.
Qed.

Lemma marked_fallback (mockId : jsstring) (first : LogEntry) (new : Job) (l : list Job) :
  Spec.marked new = true ->
  forallb Spec.marked l = true ->
  forallb Spec.marked
    (map (fun j => if str_eqb (id j) mockId then App.appendLog first j else j) (new :: l))
  = true.
Proof.
  intros Hnew Hl. rewrite forallb_forall. intros x Hx.
  apply in_map_iff in Hx as (j & <- & Hj).
  assert (Hm : Spec.marked j = true).
  { destruct Hj as [<-|Hj]; [exact Hnew|]. rewrite forallb_forall in Hl. now apply Hl. }
  destruct (str_eqb (id j) mockId); exact Hm.
Qed.

Lemma marked_perform (a : App.Action) (w : App.World) :
  forallb Spec.marked (App.jobs w) = true ->
  forallb Spec.marked (App.jobs (run (App.perform getTime a) w)) = true.
Proof.
  intros H.
  destruct a as [reply|env goal repo persona useSearch createReply listReply
                 |jobId confirmed|jobId]; cbn [App.perform].
  - destruct reply as [data|e].
    + change (App.jobs (run (App.fetchJobsList getTime (Returned data)) w))
        with (App.reconcile getTime data (App.jobs w)).
      now apply marked_reconcile.
    + exact H.
  - unfold run. destruct (App.isBackendOnline w) eqn:Hon.
    + destruct createReply as [job_id|e].
      * rewrite handleCreateJob_accepted_run by exact Hon. cbn [snd App.jobs].
        destruct listReply as [data|e]; [now apply marked_reconcile|exact H].
      * rewrite handleCreateJob_rejected_run by exact Hon. cbv zeta. cbn [snd App.jobs].
        apply marked_fallback; [apply marked_new|exact H].
    + rewrite handleCreateJob_offline_run by exact Hon. cbv zeta. cbn [snd App.jobs].
      apply marked_fallback; [apply marked_new|exact H].
  - unfold run. rewrite handleDeleteJob_run. cbn [snd].
    destruct confirmed; [|exact H]. cbn [App.jobs].
    rewrite forallb_forall in H |- *. intros x Hx.
    apply filter_In in Hx as [Hx _]. now apply H.
  - exact H.
Qed.

Lemma marked_deliver (mockId : jsstring) (events : list geminiService.Event)
    (w : App.World) :
  forallb Spec.marked (App.jobs w) = true ->
  forallb Spec.marked (App.jobs (run (for_of events (App.deliver mockId)) w)) = true.
Proof.
  intros H. unfold run. rewrite deliver_all. cbn [snd App.jobs].
  rewrite forallb_forall in H |- *. intros x Hx.
  apply in_map_iff in Hx as (j & <- & Hj).
  destruct (str_eqb (id j) mockId); [rewrite marked_applyEvents|]; now apply H.
Qed.

End Marked.

(** X23. In every state that the console can reach, and after any callbacks
    of the engine, every job of the store is marked: [is_simulation] is
    [false] for a job that came from the server and [true] for a job
    that the console made itself, whose id then begins with [sim-]. No
    job is left without the mark that the file browser and the next poll
    read. *)
Theorem reachable_jobs_marked (getTime : jsstring -> option Z) (v : App.World) :
  App.reachable getTime v ->
  forallb Spec.marked (App.jobs v) = true
  /\ forall (mockId : jsstring) (events : list geminiService.Event),
       forallb Spec.marked (App.jobs (run (for_of events (App.deliver mockId)) v)) = true.
Proof.
  intros Hv.
  assert (H : forallb Spec.marked (App.jobs v) = true).
  { induction Hv as [|w a _ IH]; [reflexivity|]. now apply marked_perform. }
  split; [exact H|]. intros mockId events. now apply marked_deliver.
Qed.

Lemma reachable_jobs_marked_witness :
  let v := run (App.perform Sample.isoTime
                  (App.Poll (Returned [Sample.serverJob "job-6" "2026-11-03T04:00:00.000Z"])))
               App.initial in
  forallb Spec.marked (App.jobs v) = true.
Proof.
  intros v.
  exact (proj1 (reachable_jobs_marked Sample.isoTime v
                  (@App.reach_step Sample.isoTime _
                     (App.Poll (Returned [Sample.serverJob "job-6"
                                            "2026-11-03T04:00:00.000Z"]))
                     (App.reach_initial Sample.isoTime)))).
Defined.

(* ================================================================== *)
(** * Names of files and fields of the form *)
(* ================================================================== *)

Lemma join_split (c : N) (s : jsstring) : LogViewer.join c (split c s) = s.
Proof.
  induction s as [|x s IH]; [reflexivity|]. cbn [split].
  destruct (N.eqb x c) eqn:E.
  - apply N.eqb_eq in E. subst x.
    destruct (split c s) as [|h t] eqn:Es; [now apply split_nonempty in Es|].
    change (LogViewer.join c ([] :: h :: t)) with ([] ++ c :: LogViewer.join c (h :: t)).
    now rewrite IH.
  - destruct (split c s) as [|h t] eqn:Es; [now apply split_nonempty in Es|].
    destruct t as [|h' t].
    + cbn [LogViewer.join] in IH |- *. now rewrite IH.
    + change (LogViewer.join c ((x :: h) :: h' :: t))
        with (x :: (h ++ c :: LogViewer.join c (h' :: t))).
      change (LogViewer.join c (h :: h' :: t))
        with (h ++ c :: LogViewer.join c (h' :: t)) in IH.
      now rewrite IH.
Qed.

Lemma split_no_sep (c : N) (s : jsstring) : Forall (fun seg => ~ In c seg) (split c s).
Proof.
  induction s as [|x s IH]; cbn [split].
  - constructor; [intros []|constructor].
  - destruct (N.eqb x c) eqn:E.
    + constructor; [intros []|exact IH].
    + destruct (split c s) as [|h t]; [constructor; [|constructor]|].
      * intros [->|[]]. now rewrite N.eqb_refl in E.
      * inversion IH as [|? ? Hh Ht]; subst. constructor; [|exact Ht].
        intros [->|Hin]; [now rewrite N.eqb_refl in E|contradiction].
Qed.

Lemma join_snoc (c : N) (init : list jsstring) (l : jsstring) :
  init <> [] -> LogViewer.join c (init ++ [l]) = LogViewer.join c init ++ c :: l.
Proof.
  induction init as [|p init IH]; intros H; [contradiction|].
  destruct init as [|q init]; [reflexivity|].
  change (LogViewer.join c ((p :: q :: init) ++ [l]))
    with (p ++ c :: LogViewer.join c ((q :: init) ++ [l])).
  rewrite IH by discriminate.
  change (LogViewer.join c (p :: q :: init)) with (p ++ c :: LogViewer.join c (q :: init)).
  now rewrite <- app_assoc.
Qed.

(** X24. The name shown for a file given as a path is the part of the path
    after its last slash: the path ends with the name, the name holds no
    slash, and what stands before it ends with a slash. Only a path with
    no slash, or one that ends with a slash, is shown whole. *)
Theorem baseName_last_segment (file : jsstring) :
  (FileBrowser.baseName file = file
   /\ (~ In (chr "/") file \/ exists dir, file = dir ++ [chr "/"]))
  \/ (exists dir, file = dir ++ [chr "/"] ++ FileBrowser.baseName file
                  /\ ~ In (chr "/") (FileBrowser.baseName file)
                  /\ FileBrowser.baseName file <> []).
Proof.
  unfold FileBrowser.baseName. cbv zeta.
  pose proof (join_split (chr "/") file) as Hjoin.
  pose proof (split_no_sep (chr "/") file) as Hsep.
  destruct (exists_last (split_nonempty (chr "/") file)) as (init & l & Hsplit).
  rewrite Hsplit in Hjoin, Hsep |- *. rewrite last_last.
  apply Forall_app in Hsep as [_ Hlast]. apply Forall_inv in Hlast.
  destruct init as [|p init].
  - left. cbn [app LogViewer.join] in Hjoin. rewrite <- Hjoin.
    split; [now destruct l|left; exact Hlast].
  - rewrite join_snoc in Hjoin by discriminate.
    destruct l as [|x l].
    + left. split; [reflexivity|]. right.
      exists (LogViewer.join (chr "/") (p :: init)). now rewrite <- Hjoin.
    + right. exists (LogViewer.join (chr "/") (p :: init)).
      cbn [truthy_str]. split; [now rewrite <- Hjoin|]. split; [exact Hlast|discriminate].
Qed.

(** X25. A form with a blank task does nothing at all: no request, no job, and
    the dialog stays open. Otherwise the task goes to [handleCreateJob]
    as it was typed, spaces included, while the repository and the
    persona go trimmed, and as [undefined] when they are blank, so that
    neither is ever passed as an empty string. *)
Theorem handleSubmit_effect
    (getTime : jsstring -> option Z) (env : App.Surroundings) (f : NewJobModal.Form)
    (createReply : outcome jsstring) (listReply : outcome (list Job)) (w : App.World) :
  let passed text := if forallb is_space text then None else Some (trim text) in
  NewJobModal.handleSubmit getTime env f createReply listReply w
  = (if forallb is_space (NewJobModal.task f) then (Returned tt, w)
     else App.handleCreateJob getTime env (NewJobModal.task f)
            (passed (NewJobModal.repo f)) (passed (NewJobModal.persona f))
            (Some (NewJobModal.useSearch f)) createReply listReply w)
  /\ passed (NewJobModal.repo f) <> Some []
  /\ passed (NewJobModal.persona f) <> Some [].
Proof.
  intros passed.
  assert (Hpassed : forall text, NewJobModal.orUndefined (trim text) = passed text).
  { intros text. unfold NewJobModal.orUndefined, passed.
    rewrite trim_blank. now destruct (forallb is_space text). }
  assert (Hfull : forall text, passed text <> Some []).
  { intros text. unfold passed. pose proof (trim_blank text) as Ht.
    destruct (forallb is_space text); [discriminate|].
    intros Heq. injection Heq as Heq. rewrite Heq in Ht. discriminate Ht. }
  split; [|split; apply Hfull].
  unfold NewJobModal.handleSubmit, NewJobModal.submitted.
  rewrite trim_blank, !Hpassed.
  now destruct (forallb is_space (NewJobModal.task f)).
Qed.
